(** * DevCollab chat and progress core: a shallow embedding

    The chat store ([Chat] model and controller), the project progress
    aggregate ([Project] model), the module and message routes, the socket
    gateway and the client's message reconciliation are transcribed from the
    JavaScript sources as Rocq functions.  Documents are records, collections
    are lists in insertion order, JS objects of the client are finite maps
    from field names to values, and the persistence calls of Mongoose are
    explicit state-passing steps. *)

From Stdlib Require Import ZArith List Lia Ascii String Sorted.
From stdpp Require Import base numbers list strings gmap pretty.

(** ** JavaScript primitives used by the sources *)

Module Js.

Local Open Scope Z_scope.

(** Dates are compared and subtracted as their millisecond time value. *)
Definition Date := Z.

(** Mongoose ObjectIds; the sources compare them through [toString()]. *)
Definition ObjectId := N.

(** [Math.round(total / n)] for an integer [total] and a positive integer
    [n]: the quotient rounded to the nearest integer, halves going up.
    (The double quotient is exact enough for this at every size a document
    can have.) *)
Definition Math_round_div (total n : Z) : Z := (2 * total + n) / (2 * n).

(** [x || 0] on a number. *)
Definition or0 (x : Z) : Z := if x =? 0 then 0 else x.

(** [arr.reduce((sum, x) => sum + (f(x) || 0), 0)] *)
Definition reduce_sum {A} (f : A → Z) (arr : list A) : Z :=
  fold_left (λ sum x, sum + or0 (f x)) arr 0.

(** [arr.sort((a, b) => key(b) - key(a))]: the stable descending sort. *)
Fixpoint insert_desc {A} (key : A → Z) (x : A) (l : list A) : list A :=
  match l with
  | [] => [x]
  | y :: l' => if key y <=? key x then x :: y :: l' else y :: insert_desc key x l'
  end.

Definition sort_desc {A} (key : A → Z) (arr : list A) : list A :=
  foldr (insert_desc key) [] arr.

(** [s || null] on an optional string: the empty string is falsy. *)
Definition or_null (s : option string) : option string :=
  match s with
  | Some t => if bool_decide (t = "") then None else Some t
  | None => None
  end.

(** Strings hold their UTF-8 bytes.  The characters [trim] strips and
    [parseInt] skips are the white space and line terminator characters of
    the language: U+0009 to U+000D and U+0020 (one byte), U+00A0 (two
    bytes), and U+1680, U+2000 to U+200A, U+2028, U+2029, U+202F, U+205F,
    U+3000 and U+FEFF (three bytes). *)
Definition is_ws (a : ascii) : bool :=
  let n := nat_of_ascii a in
  ((9 <=? n)%nat && (n <=? 13)%nat) || (n =? 32)%nat.

Definition is_ws2 (a b : ascii) : bool :=
  (nat_of_ascii a =? 194)%nat && (nat_of_ascii b =? 160)%nat.

Definition is_ws3 (a b c : ascii) : bool :=
  let '(x, y, z) := (nat_of_ascii a, nat_of_ascii b, nat_of_ascii c) in
  ((x =? 225) && (y =? 154) && (z =? 128)
   || (x =? 226) && (y =? 128)
      && ((128 <=? z) && (z <=? 138) || (z =? 168) || (z =? 169) || (z =? 175))
   || (x =? 226) && (y =? 129) && (z =? 159)
   || (x =? 227) && (y =? 128) && (z =? 128)
   || (x =? 239) && (y =? 187) && (z =? 191))%nat.

Fixpoint trimStart (s : string) : string :=
  match s with
  | String a r =>
      if is_ws a then trimStart r
      else
        match r with
        | String b r2 =>
            if is_ws2 a b then trimStart r2
            else
              match r2 with
              | String c r3 => if is_ws3 a b c then trimStart r3 else s
              | EmptyString => s
              end
        | EmptyString => s
        end
  | EmptyString => EmptyString
  end.

(** The longest prefix that is not followed by white space only. *)
Fixpoint trimEnd (s : string) : string :=
  match s with
  | String a r =>
      match trimStart s with
      | EmptyString => EmptyString
      | _ => String a (trimEnd r)
      end
  | EmptyString => EmptyString
  end.

(** [s.trim()] *)
Definition trim (s : string) : string := trimEnd (trimStart s).

(** The value of a character as a digit, below 36. *)
Definition digit_val (a : ascii) : option Z :=
  let n := Z.of_nat (nat_of_ascii a) in
  if (48 <=? n) && (n <=? 57) then Some (n - 48)
  else if (97 <=? n) && (n <=? 122) then Some (n - 87)
  else if (65 <=? n) && (n <=? 90) then Some (n - 55)
  else None.

Fixpoint parse_digits (radix : Z) (s : string) (acc : option Z) : option Z :=
  match s with
  | String a r =>
      match digit_val a with
      | Some d =>
          if d <? radix
          then parse_digits radix r (Some (radix * default 0 acc + d))
          else acc
      | None => acc
      end
  | EmptyString => acc
  end.

(** [parseInt(s)] with no radix argument; [None] is [NaN].  Leading white
    space, a sign, a [0x] prefix, then the longest run of digits. *)
Definition parseInt (s : string) : option Z :=
  let s1 := trimStart s in
  let '(sign, s2) :=
    match s1 with
    | String "-"%char r => (-1, r)
    | String "+"%char r => (1, r)
    | _ => (1, s1)
    end in
  let '(radix, s3) :=
    match s2 with
    | String "0"%char (String "x"%char r) => (16, r)
    | String "0"%char (String "X"%char r) => (16, r)
    | _ => (10, s2)
    end in
  (λ v, sign * v) <$> parse_digits radix s3 None.

(** *** The clock and the id generator

    [Date.now()], [new Date()] and the ObjectIds Mongoose assigns are the
    only effects of the model code besides the collections.  A world holds
    the clock as the sequence of its successive readings. *)
Record World := {
  clock : nat → Date;
  ticks : nat;
  next_oid : ObjectId
}.

Definition M (A : Type) : Type := World → A * World.

#[global] Instance M_ret : MRet M := λ A a w, (a, w).
#[global] Instance M_bind : MBind M := λ A B f m w, let '(a, w') := m w in f a w'.

Definition Date_now : M Date :=
  λ w, (clock w (ticks w),
        {| clock := clock w; ticks := S (ticks w); next_oid := next_oid w |}).

Definition new_ObjectId : M ObjectId :=
  λ w, (next_oid w,
        {| clock := clock w; ticks := ticks w; next_oid := N.succ (next_oid w) |}).

(** A promise settles with a value or rejects (the error is thrown at the
    [await]). *)
Inductive Settled (A : Type) : Type :=
| Resolved (a : A)
| Rejected (reason : string).
Arguments Resolved {A} a.
Arguments Rejected {A} reason.

End Js.

(** ** The Project model (models/Project.js; src/unnamed/part_003) *)

Module ProjectModel.
Import Js.
Local Open Scope Z_scope.

Record ModuleSubmission := {
  ms_title : string;
  ms_description : string;
  ms_githubLink : option string;
  ms_files : list string;
  ms_completionPercentage : Z;
  ms_submittedBy : ObjectId;
  ms_submittedAt : Date
}.

Record Project := {
  p_id : ObjectId;
  p_name : string;
  p_owner : ObjectId;
  p_collaborators : list ObjectId;
  p_deadline : Date;
  p_moduleSubmissions : list ModuleSubmission;
  p_completionPercentage : Z;
  p_lastUpdated : Date
}.

Definition set_moduleSubmissions (p : Project) (l : list ModuleSubmission) : Project :=
  {| p_id := p_id p; p_name := p_name p; p_owner := p_owner p;
     p_collaborators := p_collaborators p; p_deadline := p_deadline p;
     p_moduleSubmissions := l;
     p_completionPercentage := p_completionPercentage p;
     p_lastUpdated := p_lastUpdated p |}.

Definition set_completion (p : Project) (pct : Z) (t : Date) : Project :=
  {| p_id := p_id p; p_name := p_name p; p_owner := p_owner p;
     p_collaborators := p_collaborators p; p_deadline := p_deadline p;
     p_moduleSubmissions := p_moduleSubmissions p;
     p_completionPercentage := pct;
     p_lastUpdated := t |}.

Record ProgressData := {
  pd_completionPercentage : Z;
  pd_lastUpdated : Date
}.

(** [projectSchema.virtual('progressData').get].  The getter sorts the
    document's array in place, so the reordered project is returned with
    the value. *)
Definition progressData (p : Project) : M (ProgressData * Project) :=
  match p_moduleSubmissions p with
  | [] =>
      now ← Date_now;
      mret ({| pd_completionPercentage := 0; pd_lastUpdated := now |}, p)
  | first :: _ =>
      let totalPercentage := reduce_sum ms_completionPercentage (p_moduleSubmissions p) in
      let sorted := sort_desc ms_submittedAt (p_moduleSubmissions p) in
      let lastSubmission := hd first sorted in
      mret ({| pd_completionPercentage :=
                 Math_round_div totalPercentage
                   (Z.of_nat (length (p_moduleSubmissions p)));
               pd_lastUpdated := ms_submittedAt lastSubmission |},
            set_moduleSubmissions p sorted)
  end.

(** [projectSchema.methods.updateProgress] *)
Definition updateProgress (p : Project) : Z :=
  match p_moduleSubmissions p with
  | [] => 0
  | _ :: _ =>
      Math_round_div (reduce_sum ms_completionPercentage (p_moduleSubmissions p))
                     (Z.of_nat (length (p_moduleSubmissions p)))
  end.

End ProjectModel.

(** ** The Chat model (models/Chat.js; second document of
       src/backend/src/middleware/auth.js) *)

Module ChatModel.
Import Js.
Local Open Scope Z_scope.

Inductive AttachmentType := att_file | att_image | att_code | att_module.

Record ModuleData := {
  md_title : string;
  md_description : option string;
  md_completionPercentage : Z;
  md_githubLink : option string
}.

Record Attachment := {
  at_type : AttachmentType;
  at_filename : option string;
  at_path : option string;
  at_mimetype : option string;
  at_size : option Z;
  at_language : option string;
  at_preview : option string;
  at_moduleData : option ModuleData
}.

(** A path with [ref: 'User'] as a document in memory holds it: the stored
    ObjectId; once the path was populated, the User document with that id;
    or [null] when populate found no such user (the database keeps the
    id). *)
Inductive UserRef :=
| ref_id (id : ObjectId)
| ref_doc (id : ObjectId)
| ref_null (id : ObjectId).

Definition ref_target (r : UserRef) : ObjectId :=
  match r with
  | ref_id id | ref_doc id | ref_null id => id
  end.

Record ReadReceipt := { rr_user : UserRef; rr_readAt : Date }.

Record Message := {
  m_id : ObjectId;
  m_sender : ObjectId;
  m_content : string;
  m_githubLink : option string;
  m_attachments : list Attachment;
  m_readBy : list ReadReceipt;
  m_createdAt : Date
}.

Record LastMessage := {
  lm_content : string;
  lm_sender : ObjectId;
  lm_createdAt : Date;
  lm_hasAttachments : option bool;
  lm_githubLink : option string
}.

Inductive ChatType := direct | project.

#[global] Instance ChatType_eq_dec : EqDecision ChatType.
Proof. solve_decision. Defined.

Record Chat := {
  c_id : ObjectId;
  c_type : ChatType;
  c_participants : list ObjectId;
  c_project : option ObjectId;
  c_messages : list Message;
  c_lastMessage : option LastMessage
}.

Definition set_messages (c : Chat) (ms : list Message) : Chat :=
  {| c_id := c_id c; c_type := c_type c; c_participants := c_participants c;
     c_project := c_project c; c_messages := ms; c_lastMessage := c_lastMessage c |}.

Definition set_lastMessage (c : Chat) (lm : LastMessage) : Chat :=
  {| c_id := c_id c; c_type := c_type c; c_participants := c_participants c;
     c_project := c_project c; c_messages := c_messages c; c_lastMessage := Some lm |}.

Definition set_participants (c : Chat) (ps : list ObjectId) : Chat :=
  {| c_id := c_id c; c_type := c_type c; c_participants := ps;
     c_project := c_project c; c_messages := c_messages c;
     c_lastMessage := c_lastMessage c |}.

Definition set_readBy (m : Message) (rs : list ReadReceipt) : Message :=
  {| m_id := m_id m; m_sender := m_sender m; m_content := m_content m;
     m_githubLink := m_githubLink m; m_attachments := m_attachments m;
     m_readBy := rs; m_createdAt := m_createdAt m |}.

(** *** Schema validation, run by [save()] and [create()]

    [content] of a message is [required: true], which Mongoose refuses for
    the empty string; [project] is required when [type] is ['project'].
    The other required paths ([sender], [type], an attachment's [type] in
    its enum) are always present in the typed records. *)
Definition message_valid (m : Message) : bool :=
  bool_decide (m_content m ≠ "").

Definition chat_valid (c : Chat) : bool :=
  forallb message_valid (c_messages c)
  && match c_type c with
     | project => bool_decide (is_Some (c_project c))
     | direct => true
     end.

(** [await this.save()] on a chat document: the document as persisted, or
    the validation error. *)
Definition save (c : Chat) : Settled Chat :=
  if chat_valid c then Resolved c else Rejected "ValidationError".

(** [chatSchema.methods.addMessage].  Pushing the plain object casts it
    to a subdocument, which is when the schema defaults are filled in:
    [_id], then the receipt's [readAt] while [readBy] is cast, and the
    message's own [createdAt] after its paths are set; [lastMessage] then
    takes its own [new Date()]. *)
Definition addMessage (this : Chat) (senderId : ObjectId) (content : string)
    (attachments : list Attachment) (githubLink : option string)
    : M (Settled (Message * Chat)) :=
  oid ← new_ObjectId;
  readAt ← Date_now;
  createdAt ← Date_now;
  let message := {|
    m_id := oid;
    m_sender := senderId;
    m_content := content;
    m_githubLink := or_null githubLink;
    m_attachments := attachments;
    m_readBy := [ {| rr_user := ref_id senderId; rr_readAt := readAt |} ];
    m_createdAt := createdAt |} in
  let this := set_messages this (c_messages this ++ [message]) in
  now ← Date_now;
  let this := set_lastMessage this {|
    lm_content := content;
    lm_sender := senderId;
    lm_createdAt := now;
    lm_hasAttachments := Some (0 <? Z.of_nat (length attachments));
    lm_githubLink := or_null githubLink |} in
  match save this with
  | Resolved this => mret (Resolved (List.last (c_messages this) message, this))
  | Rejected e => mret (Rejected e)
  end.

(** [readBy.some(read => read.user.toString() === userId.toString())].
    An ObjectId prints as its hexadecimal digits; a populated User
    document prints as the inspection of its fields, which is never the
    digits of an id; on [null] the call of [toString] throws a TypeError,
    which is [None].  [some] stops at the first receipt that matches. *)
Fixpoint some_read (userId : ObjectId) (readBy : list ReadReceipt) : option bool :=
  match readBy with
  | [] => Some false
  | read :: rest =>
      match rr_user read with
      | ref_id id => if bool_decide (id = userId) then Some true else some_read userId rest
      | ref_doc _ => some_read userId rest
      | ref_null _ => None
      end
  end.

Definition read_by (userId : ObjectId) (msg : Message) : option bool :=
  some_read userId (m_readBy msg).

(** [this.messages.filter(msg => !msg.readBy.some(...))]; [None] when the
    callback throws. *)
Fixpoint filter_unread (userId : ObjectId) (msgs : list Message) : option (list Message) :=
  match msgs with
  | [] => Some []
  | msg :: rest =>
      match read_by userId msg with
      | None => None
      | Some read =>
          match filter_unread userId rest with
          | None => None
          | Some rest' => Some (if read then rest' else msg :: rest')
          end
      end
  end.

(** The [forEach] of [markAsRead]: the filtered array holds the chat's own
    subdocuments, so each push lands in [this.messages]; every pushed
    receipt holds the id it was given and takes its [readAt] default from
    the clock. *)
Fixpoint push_receipts (userId : ObjectId) (msgs : list Message) : M (list Message) :=
  match msgs with
  | [] => mret []
  | msg :: rest =>
      match read_by userId msg with
      | Some false =>
          readAt ← Date_now;
          let msg' := set_readBy msg (m_readBy msg
                                      ++ [ {| rr_user := ref_id userId; rr_readAt := readAt |} ]) in
          rest' ← push_receipts userId rest;
          mret (msg' :: rest')
      | _ => rest' ← push_receipts userId rest; mret (msg :: rest')
      end
  end.

(** [chatSchema.methods.markAsRead] *)
Definition markAsRead (this : Chat) (userId : ObjectId) : M (Settled (nat * Chat)) :=
  match filter_unread userId (c_messages this) with
  | None => mret (Rejected "TypeError")
  | Some unreadMessages =>
      msgs ← push_receipts userId (c_messages this);
      let this' := set_messages this msgs in
      if (0 <? length unreadMessages)%nat
      then
        match save this' with
        | Resolved saved => mret (Resolved (length unreadMessages, saved))
        | Rejected e => mret (Rejected e)
        end
      else mret (Resolved (length unreadMessages, this'))
  end.

(** *** Population of the receipts

    [populate('messages.readBy.user')] replaces, in the document in memory,
    every receipt's user id by the User document it names, or by [null]
    when [users], the ids of the User collection, has none.  What a later
    [save()] writes for such a path is the id again. *)
Definition populate_ref (users : list ObjectId) (r : UserRef) : UserRef :=
  match r with
  | ref_id id => if bool_decide (id ∈ users) then ref_doc id else ref_null id
  | _ => r
  end.

Definition map_receipts (f : UserRef → UserRef) (msg : Message) : Message :=
  set_readBy msg
    (map (λ read, {| rr_user := f (rr_user read); rr_readAt := rr_readAt read |})
         (m_readBy msg)).

Definition populate_readBy (users : list ObjectId) (c : Chat) : Chat :=
  set_messages c (map (map_receipts (populate_ref users)) (c_messages c)).

Definition depopulate (c : Chat) : Chat :=
  set_messages c (map (map_receipts (λ r, ref_id (ref_target r))) (c_messages c)).

(** *** The collection and [getOrCreateDirectChat] *)

(** The filter [{type: 'direct', participants: {$all: [u1, u2], $size: 2}}] *)
Definition direct_query (user1Id user2Id : ObjectId) (c : Chat) : bool :=
  bool_decide (c_type c = direct)
  && bool_decide (user1Id ∈ c_participants c)
  && bool_decide (user2Id ∈ c_participants c)
  && (length (c_participants c) =? 2)%nat.

(** [this.findOne(filter)]: the first document in the collection's
    natural order that matches. *)
Definition findOne (filter : Chat → bool) (coll : list Chat) : option Chat :=
  List.find filter coll.

(** [this.create({type: 'direct', participants: [u1, u2]})]: inserts a new
    document under a fresh id. *)
Definition create_direct (user1Id user2Id : ObjectId) (coll : list Chat)
    : M (Chat * list Chat) :=
  oid ← new_ObjectId;
  let chat := {| c_id := oid; c_type := direct;
                 c_participants := [user1Id; user2Id]; c_project := None;
                 c_messages := []; c_lastMessage := None |} in
  mret (chat, coll ++ [chat]).

(** [chatSchema.statics.getOrCreateDirectChat], run without any other
    request touching the collection between its two awaits. *)
Definition getOrCreateDirectChat (user1Id user2Id : ObjectId) (coll : list Chat)
    : M (Chat * list Chat) :=
  match findOne (direct_query user1Id user2Id) coll with
  | Some chat => mret (chat, coll)
  | None => create_direct user1Id user2Id coll
  end.

(** The same function cut at its two awaits.  Each persistence call is
    one atomic step on the collection; between the steps of one call the
    event loop may run the steps of other calls. *)
Inductive Call :=
| AwaitFindOne
| AwaitCreate
| Returned (chat : Chat).

Definition step_call (user1Id user2Id : ObjectId) (call : Call) (coll : list Chat)
    : M (Call * list Chat) :=
  match call with
  | AwaitFindOne =>
      match findOne (direct_query user1Id user2Id) coll with
      | Some chat => mret (Returned chat, coll)
      | None => mret (AwaitCreate, coll)
      end
  | AwaitCreate =>
      '(chat, coll') ← create_direct user1Id user2Id coll;
      mret (Returned chat, coll')
  | Returned chat => mret (Returned chat, coll)
  end.

(** A schedule names, step by step, which of the pending calls runs its
    next persistence call. *)
Fixpoint run_schedule (user1Id user2Id : ObjectId) (schedule : list nat)
    (calls : list Call) (coll : list Chat) : M (list Call * list Chat) :=
  match schedule with
  | [] => mret (calls, coll)
  | i :: schedule' =>
      match calls !! i with
      | Some call =>
          '(call', coll') ← step_call user1Id user2Id call coll;
          run_schedule user1Id user2Id schedule' (<[i := call']> calls) coll'
      | None => run_schedule user1Id user2Id schedule' calls coll
      end
  end.

(** The schedule in which the [n] calls run one after the other. *)
Definition serial_schedule (n : nat) : list nat :=
  flat_map (λ i, [i; i]) (seq 0 n).

End ChatModel.

(** ** The chat controller (controllers/chatController.js;
       src/unnamed/part_001) *)

Module ChatController.
Import Js ChatModel.

Inductive Body :=
| json_message (message : string)
| json_error (message error : string)
| json_chat (chat : Chat)
| json_chat_message (msg : Message).

Record Response := { status : nat; body : Body }.

(** [Chat.findById(chatId)] *)
Definition findById (chatId : ObjectId) (coll : list Chat) : option Chat :=
  List.find (λ c, bool_decide (c_id c = chatId)) coll.

(** The effect of a resolved [save()] on the collection: the stored
    document with the same [_id] is replaced. *)
Definition persist (chat : Chat) (coll : list Chat) : list Chat :=
  map (λ c, if bool_decide (c_id c = c_id chat) then chat else c) coll.

(** [sendMessage]; [content] is [req.body.content], absent when [None]. *)
Definition sendMessage (user : ObjectId) (chatId : ObjectId) (content : option string)
    (coll : list Chat) : M (Response * list Chat) :=
  match content with
  | None => mret ({| status := 400; body := json_message "Message content is required" |}, coll)
  | Some content =>
      if bool_decide (content = "") || bool_decide (trim content = "")
      then mret ({| status := 400; body := json_message "Message content is required" |}, coll)
      else
        match findById chatId coll with
        | None => mret ({| status := 404; body := json_message "Chat not found" |}, coll)
        | Some chat =>
            if negb (existsb (λ p, bool_decide (p = user)) (c_participants chat))
            then mret ({| status := 403;
                          body := json_message "Not authorized to send messages in this chat" |},
                       coll)
            else
              r ← addMessage chat user (trim content) [] None;
              match r with
              | Resolved (message, chat') =>
                  mret ({| status := 201; body := json_chat_message message |},
                        persist chat' coll)
              | Rejected e =>
                  mret ({| status := 500; body := json_error "Error sending message" e |}, coll)
              end
        end
  end.

(** A route parameter naming a user: a string of 24 hexadecimal digits,
    given by the ObjectId it casts to and by whether it is spelled the way
    [ObjectId.prototype.toString] prints an id, with lower-case digits.
    (Casting reads the digits in either case.) *)
Record IdParam := { ip_id : ObjectId; ip_lower : bool }.

(** [p.toString() === userId] *)
Definition toString_is (p : ObjectId) (userId : IdParam) : bool :=
  bool_decide (p = ip_id userId) && ip_lower userId.

(** [addChatParticipant]; the push casts the parameter to an ObjectId. *)
Definition addChatParticipant (chatId : ObjectId) (userId : IdParam) (coll : list Chat)
    : Response * list Chat :=
  match findById chatId coll with
  | None => ({| status := 404; body := json_message "Chat not found" |}, coll)
  | Some chat =>
      if existsb (λ p, toString_is p userId) (c_participants chat)
      then ({| status := 400; body := json_message "User is already a participant" |}, coll)
      else
        let chat := set_participants chat (c_participants chat ++ [ip_id userId]) in
        match save chat with
        | Resolved chat => ({| status := 200; body := json_chat chat |}, persist chat coll)
        | Rejected e =>
            ({| status := 500; body := json_error "Error adding participant" e |}, coll)
        end
  end.

(** [removeChatParticipant] *)
Definition removeChatParticipant (chatId : ObjectId) (userId : IdParam) (coll : list Chat)
    : Response * list Chat :=
  match findById chatId coll with
  | None => ({| status := 404; body := json_message "Chat not found" |}, coll)
  | Some chat =>
      let chat := set_participants chat
                    (List.filter (λ p, negb (toString_is p userId)) (c_participants chat)) in
      match save chat with
      | Resolved chat => ({| status := 200; body := json_chat chat |}, persist chat coll)
      | Rejected e =>
          ({| status := 500; body := json_error "Error removing participant" e |}, coll)
      end
  end.

End ChatController.

(** ** The Message model (models/Message.js; src/unnamed/part_002) and the
       chat routes (src/backend/src/routes/chatRoutes.js) *)

Module ChatRoutes.
Import Js ChatModel ProjectModel.
Local Open Scope Z_scope.

Record FileRef := { f_url : string; f_filename : string; f_mimetype : string }.

Record ProjectProgress := {
  pp_projectId : ObjectId;
  pp_completionPercentage : Z;
  pp_deadline : option Date;
  pp_lastUpdated : Date
}.

Record MessageDoc := {
  d_id : ObjectId;
  d_chat : ObjectId;
  d_sender : ObjectId;
  d_content : string;
  d_attachments : list FileRef;
  d_projectProgress : option ProjectProgress
}.

(** The validators of the Message schema that can fail on a typed
    document: [min: 0, max: 100] on the snapshot's percentage. *)
Definition message_doc_valid (d : MessageDoc) : bool :=
  match d_projectProgress d with
  | Some pp => (0 <=? pp_completionPercentage pp) && (pp_completionPercentage pp <=? 100)
  | None => true
  end.

Record Db := {
  db_chats : list Chat;
  db_messages : list MessageDoc;
  db_projects : list Project
}.

(** [req.body.projectProgress] after [JSON.parse] *)
Record ProgressField := {
  pf_projectId : ObjectId;
  pf_completionPercentage : Z;
  pf_deadline : option Date
}.

Record Request := {
  rq_user : ObjectId;
  rq_chatId : ObjectId;
  rq_content : option string;
  rq_projectProgress : option ProgressField;
  rq_files : list FileRef
}.

Inductive Body :=
| json_message (message : string)
| json_error (message error : string)
| json_message_doc (d : MessageDoc).

Record Response := { status : nat; body : Body }.

(** [Project.findByIdAndUpdate(id, {completionPercentage, lastUpdated})]:
    a direct update of the stored document.  Mongoose runs schema
    validators on updates only under [runValidators], which is not
    passed. *)
Definition findByIdAndUpdate (id : ObjectId) (completionPercentage : Z)
    (lastUpdated : Date) (projects : list Project) : list Project :=
  map (λ p, if bool_decide (p_id p = id)
            then set_completion p completionPercentage lastUpdated
            else p) projects.

Section PostMessage.

(** [chat.messages.push(message._id); await chat.save()]: the array holds
    embedded message documents and is handed a bare id here.  What the
    save then does is Mongoose's casting of that id; it is left open,
    the handler being the same for either outcome. *)
Variable push_id_and_save : Chat → ObjectId → Settled Chat.

(** [router.post('/:chatId/messages', ...)], after authentication, with
    the uploaded files already stored. *)
Definition post_message (req : Request) (db : Db) : M (Response * Db) :=
  match ChatController.findById (rq_chatId req) (db_chats db) with
  | None => mret ({| status := 404; body := json_message "Chat not found" |}, db)
  | Some chat =>
      if negb (existsb (λ p, bool_decide (p = rq_user req)) (c_participants chat))
      then mret ({| status := 403;
                    body := json_message "Not authorized to send messages in this chat" |},
                 db)
      else
        let attachments := rq_files req in
        oid ← new_ObjectId;
        let message := {|
          d_id := oid; d_chat := rq_chatId req; d_sender := rq_user req;
          d_content := trim (default "" (or_null (rq_content req)));
          d_attachments := attachments;
          d_projectProgress := None |} in
        '(message, projects) ←
          match rq_projectProgress req with
          | Some projectProgress =>
              if bool_decide (c_type chat = project)
              then
                lastUpdated ← Date_now;
                let message := {|
                  d_id := d_id message; d_chat := d_chat message;
                  d_sender := d_sender message; d_content := d_content message;
                  d_attachments := d_attachments message;
                  d_projectProgress := Some {|
                    pp_projectId := pf_projectId projectProgress;
                    pp_completionPercentage := pf_completionPercentage projectProgress;
                    pp_deadline := pf_deadline projectProgress;
                    pp_lastUpdated := lastUpdated |} |} in
                now ← Date_now;
                mret (message,
                      findByIdAndUpdate (pf_projectId projectProgress)
                        (pf_completionPercentage projectProgress) now (db_projects db))
              else mret (message, db_projects db)
          | None => mret (message, db_projects db)
          end;
        if negb (message_doc_valid message)
        then mret ({| status := 500;
                      body := json_error "Error creating message" "ValidationError" |},
                   {| db_chats := db_chats db; db_messages := db_messages db;
                      db_projects := projects |})
        else
          let messages := db_messages db ++ [message] in
          match push_id_and_save chat (d_id message) with
          | Rejected e =>
              mret ({| status := 500; body := json_error "Error creating message" e |},
                    {| db_chats := db_chats db; db_messages := messages;
                       db_projects := projects |})
          | Resolved chat' =>
              mret ({| status := 201; body := json_message_doc message |},
                    {| db_chats := ChatController.persist chat' (db_chats db);
                       db_messages := messages; db_projects := projects |})
          end
  end.

End PostMessage.

End ChatRoutes.

(** ** The project routes: module submission (second document of
       src/backend/src/routes/moduleRoutes.js) *)

Module ModuleRoutes.
Import Js ChatModel ProjectModel.
Local Open Scope Z_scope.

Record UploadedFile := {
  uf_originalname : string;
  uf_path : string;
  uf_mimetype : string;
  uf_size : Z
}.

(** The multipart body of [POST /:id/modules]; every field is a string or
    absent. *)
Record Request := {
  rq_user : ObjectId;
  rq_id : ObjectId;
  rq_title : option string;
  rq_description : option string;
  rq_completionPercentage : option string;
  rq_githubLink : option string;
  rq_files : list UploadedFile
}.

Record Db := {
  db_chats : list Chat;
  db_projects : list Project
}.

Inductive Body :=
| json_message (message : string)
| json_error (message error : string)
| json_submitted (chatMessage : Message) (project_id : ObjectId)
                 (project_name : string) (progressData : ProgressData).

Record Response := { status : nat; body : Body }.

(** The validators of the Project schema that can fail on a typed
    document: a submission's required [title] and its percentage within
    [min: 0, max: 100], and the same bounds on the stored
    [completionPercentage]. *)
Definition submission_valid (s : ModuleSubmission) : bool :=
  bool_decide (ms_title s ≠ "")
  && (0 <=? ms_completionPercentage s) && (ms_completionPercentage s <=? 100).

Definition project_valid (p : Project) : bool :=
  forallb submission_valid (p_moduleSubmissions p)
  && (0 <=? p_completionPercentage p) && (p_completionPercentage p <=? 100).

(** [Project.findOne({_id: id, $or: [{owner}, {'collaborators.user'}]})] *)
Definition find_accessible (id user : ObjectId) (projects : list Project)
    : option Project :=
  List.find (λ p, bool_decide (p_id p = id)
                  && (bool_decide (p_owner p = user)
                      || existsb (λ c, bool_decide (c = user)) (p_collaborators p)))
            projects.

Definition persist_project (p : Project) (projects : list Project) : list Project :=
  map (λ q, if bool_decide (p_id q = p_id p) then p else q) projects.

(** [Chat.findOne({type: 'project', project: project._id})] *)
Definition find_project_chat (pid : ObjectId) (chats : list Chat) : option Chat :=
  findOne (λ c, bool_decide (c_type c = project) && bool_decide (c_project c = Some pid))
          chats.

(** The template literal of the chat message. *)
Definition messageContent (title : string) (percentage : Z)
    (githubLink : option string) : string :=
  "Module Submitted: " +:+ title +:+ " (" +:+ pretty percentage +:+ "% complete)"
  +:+ match or_null githubLink with Some _ => " - View Repository" | None => "" end.

(** [router.post('/:id/modules', ...)], after authentication.  The removal
    of uploaded files on the error paths acts on the file store only and
    is left out. *)
Definition submit_module (req : Request) (db : Db) : M (Response * Db) :=
  match or_null (rq_title req) with
  | None => mret ({| status := 400; body := json_message "Module title is required" |}, db)
  | Some title =>
    if bool_decide (trim title = "")
    then mret ({| status := 400; body := json_message "Module title is required" |}, db)
    else
    match or_null (rq_completionPercentage req) with
    | None =>
        mret ({| status := 400; body := json_message "Completion percentage is required" |}, db)
    | Some completionPercentage =>
      match parseInt completionPercentage with
      | None =>
          mret ({| status := 400;
                   body := json_message "Completion percentage must be a number between 0 and 100" |},
                db)
      | Some percentage =>
        if (percentage <? 0) || (100 <? percentage)
        then mret ({| status := 400;
                      body := json_message "Completion percentage must be a number between 0 and 100" |},
                   db)
        else
        match find_accessible (rq_id req) (rq_user req) (db_projects db) with
        | None =>
            mret ({| status := 404; body := json_message "Project not found or unauthorized" |}, db)
        | Some proj =>
          submittedAt ← Date_now;
          let moduleSubmission := {|
            ms_title := trim title;
            ms_description := match or_null (rq_description req) with
                              | Some d => trim d | None => "" end;
            ms_githubLink := or_null (rq_githubLink req);
            ms_files := map uf_originalname (rq_files req);
            ms_completionPercentage := percentage;
            ms_submittedBy := rq_user req;
            ms_submittedAt := submittedAt |} in
          let proj := set_moduleSubmissions proj
                        (p_moduleSubmissions proj ++ [moduleSubmission]) in
          let totalProgress := reduce_sum ms_completionPercentage (p_moduleSubmissions proj) in
          let averageProgress :=
            Math_round_div totalProgress (Z.of_nat (length (p_moduleSubmissions proj))) in
          if negb (project_valid proj)
          then mret ({| status := 500;
                        body := json_error "Error submitting module" "ValidationError" |}, db)
          else
          let db := {| db_chats := db_chats db;
                       db_projects := persist_project proj (db_projects db) |} in
          match find_project_chat (p_id proj) (db_chats db) with
          | None =>
              mret ({| status := 404; body := json_message "Chat not found for project" |}, db)
          | Some chat =>
            let content := messageContent title percentage (rq_githubLink req) in
            createdAt ← Date_now;
            oid ← new_ObjectId;
            readAt ← Date_now;
            let message := {|
              m_id := oid;
              m_sender := rq_user req;
              m_content := content;
              m_githubLink := or_null (rq_githubLink req);
              m_attachments := [ {|
                at_type := att_module; at_filename := None; at_path := None;
                at_mimetype := None; at_size := None; at_language := None;
                at_preview := None;
                at_moduleData := Some {|
                  md_title := title;
                  md_description := rq_description req;
                  md_completionPercentage := percentage;
                  md_githubLink := or_null (rq_githubLink req) |} |} ];
              m_readBy := [ {| rr_user := ref_id (rq_user req); rr_readAt := readAt |} ];
              m_createdAt := createdAt |} in
            let chat := set_messages chat (c_messages chat ++ [message]) in
            now ← Date_now;
            (* [hasAttachment] is not a path of the schema and is dropped *)
            let chat := set_lastMessage chat {|
              lm_content := content; lm_sender := rq_user req; lm_createdAt := now;
              lm_hasAttachments := None;
              lm_githubLink := or_null (rq_githubLink req) |} in
            match save chat with
            | Rejected e =>
                mret ({| status := 500; body := json_error "Error submitting module" e |}, db)
            | Resolved chat =>
                let db := {| db_chats := ChatController.persist chat (db_chats db);
                             db_projects := db_projects db |} in
                let newMessage := List.last (c_messages chat) message in
                '(virtual, _) ← progressData proj;
                lastUpdated ← Date_now;
                mret ({| status := 201;
                         body := json_submitted newMessage (p_id proj) (p_name proj)
                                   {| pd_completionPercentage := pd_completionPercentage virtual;
                                      pd_lastUpdated := lastUpdated |} |},
                      db)
            end
          end
        end
      end
    end
  end.

End ModuleRoutes.

(** ** The realtime gateway (the server entry point; second document of
       src/backend/src/routes/userRoutes.js) *)

Module Gateway.
Import Js.

Section Gateway.

(** [jwt.verify(token, process.env.JWT_SECRET)], called without a
    callback: it returns the decoded payload or throws. *)
Variable Payload : Type.
Variable jwt_verify : string → option Payload.

Record Socket := {
  handshake_auth_token : option string;
  user : option Payload;
  rooms : list string
}.

Inductive NextArg :=
| next_ok
| next_error (message : string).

(** [authenticateSocket] *)
Definition authenticateSocket (socket : Socket) : Socket * NextArg :=
  match or_null (handshake_auth_token socket) with
  | None => (socket, next_error "Authentication error: No token provided")
  | Some token =>
      match jwt_verify token with
      | Some decoded =>
          ({| handshake_auth_token := handshake_auth_token socket;
              user := Some decoded; rooms := rooms socket |}, next_ok)
      | None => (socket, next_error "Authentication error: Invalid token")
      end
  end.

Inductive ClientEvent :=
| join_room (room : string)
| leave_room (room : string)
| disconnect
| other_event (name : string).

Inductive RoomOp :=
| joined (room : string)
| left (room : string).

(** A connection as the server sees it: the socket, whether the
    ['connection'] handler has run and registered the listeners, the
    error the handshake was refused with, and the room operations
    performed so far. *)
Record Connection := {
  socket : Socket;
  listening : bool;
  refused : option string;
  room_ops : list RoomOp
}.

(** [io.use(authenticateSocket)] and [io.on('connection', ...)]: the
    server runs the middleware on the handshake and emits
    ['connection'] only when it called [next()] without an error;
    otherwise the client gets the error and the socket is closed. *)
Definition connect (token : option string) : Connection :=
  let socket := {| handshake_auth_token := token; user := None; rooms := [] |} in
  match authenticateSocket socket with
  | (socket, next_ok) =>
      {| socket := socket; listening := true; refused := None; room_ops := [] |}
  | (socket, next_error message) =>
      {| socket := socket; listening := false; refused := Some message; room_ops := [] |}
  end.

Definition set_rooms (s : Socket) (rs : list string) : Socket :=
  {| handshake_auth_token := handshake_auth_token s; user := user s; rooms := rs |}.

(** The listeners registered by the ['connection'] handler. *)
Definition on_event (c : Connection) (e : ClientEvent) : Connection :=
  if listening c then
    match e with
    | join_room room =>
        {| socket := set_rooms (socket c)
                       (if bool_decide (room ∈ rooms (socket c))
                        then rooms (socket c) else rooms (socket c) ++ [room]);
           listening := true; refused := refused c;
           room_ops := room_ops c ++ [joined room] |}
    | leave_room room =>
        {| socket := set_rooms (socket c) (filter (λ r, r ≠ room) (rooms (socket c)));
           listening := true; refused := refused c;
           room_ops := room_ops c ++ [left room] |}
    | disconnect =>
        {| socket := set_rooms (socket c) []; listening := false;
           refused := refused c; room_ops := room_ops c |}
    | other_event _ => c
    end
  else c.

Definition run (token : option string) (events : list ClientEvent) : Connection :=
  foldl on_event (connect token) events.

End Gateway.

Arguments handshake_auth_token {Payload} _.
Arguments user {Payload} _.
Arguments rooms {Payload} _.
Arguments socket {Payload} _.
Arguments listening {Payload} _.
Arguments refused {Payload} _.
Arguments room_ops {Payload} _.
Arguments on_event {Payload} _ _.

End Gateway.

(** ** The client's message list
       (src/frontend/src/components/ChatWindow.jsx) *)

Module Client.
Import Js.
Local Open Scope Z_scope.

(** The values a field of a message object holds.  Objects and arrays
    that arrive inside a payload are kept by identity; the fresh values
    the component itself builds have their own constructors. *)
Inductive JsVal :=
| JUndefined
| JNull
| JBool (b : bool)
| JNum (z : Z)
| JStr (s : string)
| JObject (ref : N)
| JDate (t : Date)
| JEmptyArray
| JUnknownUser.

#[global] Instance JsVal_eq_dec : EqDecision JsVal.
Proof. solve_decision. Defined.

Definition truthy (v : JsVal) : bool :=
  match v with
  | JUndefined | JNull => false
  | JBool b => b
  | JNum z => negb (z =? 0)
  | JStr s => negb (bool_decide (s = ""))
  | JObject _ | JDate _ | JEmptyArray | JUnknownUser => true
  end.

(** [a || b] *)
Definition or (a b : JsVal) : JsVal := if truthy a then a else b.

(** A message object: its own properties. *)
Abbreviation JsObj := (gmap string JsVal).

(** [o.k]: reading an absent property yields [undefined]. *)
Definition get (o : JsObj) (k : string) : JsVal := default JUndefined (o !! k).

(** [handleMessageUpdate]: the guard, then the updater handed to
    [setMessages], applied to the current list.  [===] on two ids is
    equality of the values: ids are strings, and an object is represented
    by its identity. *)
Definition handleMessageUpdate (message : option JsObj) (prev : list JsObj)
    : M (list JsObj) :=
  match message with
  | None => mret prev
  | Some message =>
      if negb (truthy (get message "_id")) then mret prev
      else
        match list_find (λ m, get m "_id" = get message "_id") prev with
        | Some (existingIndex, existing) =>
            let merged :=
              <["githubLink" := or (get message "githubLink") (get existing "githubLink")]>
              (<["createdAt" := or (get message "createdAt") (get existing "createdAt")]>
              (<["sender" := or (get message "sender")
                                (or (get existing "sender") JUnknownUser)]>
              (message ∪ existing))) in
            mret (<[existingIndex := merged]> prev)
        | None =>
            createdAt ←
              (if truthy (get message "createdAt")
               then mret (get message "createdAt")
               else now ← Date_now; mret (JDate now));
            let entry : JsObj :=
              <["_id" := get message "_id"]>
              (<["content" := or (get message "content") (JStr "")]>
              (<["sender" := or (get message "sender") JUnknownUser]>
              (<["createdAt" := createdAt]>
              (<["attachments" := or (get message "attachments") JEmptyArray]>
              (<["readBy" := or (get message "readBy") JEmptyArray]>
              (<["githubLink" := get message "githubLink"]> ∅)))))) in
            mret (prev ++ [entry])
        end
  end.

(** The payload of a ['receive_message'] event: its own fields, and the
    object under its [message] key when that holds one. *)
Record SocketMessage := {
  sm_fields : JsObj;
  sm_message : option JsObj
}.

(** The ['receive_message'] listener, as far as the message list goes
    (the rest of it updates the cached project details). *)
Definition on_receive_message (message : SocketMessage) (prev : list JsObj)
    : M (list JsObj) :=
  match sm_message message with
  | Some inner =>
      handleMessageUpdate (Some (
        <["_id" := get inner "_id"]>
        (<["content" := get inner "content"]>
        (<["sender" := get inner "sender"]>
        (<["createdAt" := get inner "createdAt"]>
        (<["githubLink" := get inner "githubLink"]>
        (<["attachments" := or (get inner "attachments") JEmptyArray]> ∅))))))) prev
  | None => handleMessageUpdate (Some (sm_fields message)) prev
  end.

(** One element of the array [GET /chats/:id/messages] answers with: its
    fields, and the value of
    [message.attachments?.[0]?.moduleData?.githubLink]. *)
Record Fetched := {
  fm_fields : JsObj;
  fm_module_githubLink : JsVal
}.

Definition is_string (v : JsVal) : bool :=
  match v with JStr _ => true | _ => false end.

(** [fetchMessages] on a successful response: the transformed array
    replaces the list.  The scan for module messages in between calls
    [content.includes], which throws on a message without a string
    content; the [catch] then leaves the list as it was. *)
Definition fetchMessages (data : list Fetched) (prev : list JsObj) : list JsObj :=
  let transformedMessages := map (λ message,
    let f := fm_fields message in
    (<["_id" := get f "_id"]>
    (<["content" := get f "content"]>
    (<["sender" := get f "sender"]>
    (<["createdAt" := get f "createdAt"]>
    (<["githubLink" := or (get f "githubLink") (fm_module_githubLink message)]>
    (<["attachments" := or (get f "attachments") JEmptyArray]> ∅)))))) : JsObj) data in
  if forallb (λ msg, is_string (get msg "content")) transformedMessages
  then transformedMessages
  else prev.

Inductive Incoming :=
| history (data : list Fetched)
| realtime (message : SocketMessage).

Definition receive (ev : Incoming) (prev : list JsObj) : M (list JsObj) :=
  match ev with
  | history data => mret (fetchMessages data prev)
  | realtime message => on_receive_message message prev
  end.

Fixpoint receive_all (evs : list Incoming) (prev : list JsObj) : M (list JsObj) :=
  match evs with
  | [] => mret prev
  | ev :: evs' => cur ← receive ev prev; receive_all evs' cur
  end.

(** The ids of the visible entries. *)
Definition ids (l : list JsObj) : list JsVal := map (λ m, get m "_id") l.

(** The merge rule in the spec's words: fields present on the incoming
    message overwrite, absent fields are kept from the existing entry. *)
Definition spec_merge (existing message : JsObj) : JsObj := message ∪ existing.

End Client.

(** ** Specification-side definitions and example data *)

Module Spec.
Import Js ProjectModel.
Local Open Scope Z_scope.

(** The spec's aggregate: an integer nearest to the mean of the
    percentages, i.e. at most one half away from total / count. *)
Definition spec_rounded_mean (percentages : list Z) (r : Z) : Prop :=
  let n := Z.of_nat (length percentages) in
  let total := foldr Z.add 0 percentages in
  2 * Z.abs (n * r - total) <= n.

(** The head of the sorted array carries the largest key. *)
Definition head_max {A} (key : A → Z) (l : list A) : Prop :=
  match l with
  | [] => True
  | h :: t => Forall (λ y, key y <= key h) t
  end.

End Spec.

Module Examples.
Import Js ProjectModel.
Local Open Scope Z_scope.

Definition example_submission (pct : Z) (at_ : Date) : ModuleSubmission :=
  {| ms_title := "m"; ms_description := ""; ms_githubLink := None; ms_files := [];
     ms_completionPercentage := pct; ms_submittedBy := 1%N; ms_submittedAt := at_ |}.

Definition example_project (subs : list ModuleSubmission) : Project :=
  {| p_id := 7%N; p_name := "P"; p_owner := 1%N; p_collaborators := [];
     p_deadline := 1000; p_moduleSubmissions := subs;
     p_completionPercentage := 0; p_lastUpdated := 0 |}.

Definition example_world : World := {| clock := Z.of_nat; ticks := 0; next_oid := 100%N |}.

End Examples.

Module ChatExamples.
Import Js ChatModel.

Definition empty_direct : Chat :=
  {| c_id := 50%N; c_type := direct; c_participants := [1%N; 2%N]; c_project := None;
     c_messages := []; c_lastMessage := None |}.

Definition a_file : Attachment :=
  {| at_type := att_file; at_filename := Some "notes.txt"; at_path := Some "uploads/chat/files/notes.txt";
     at_mimetype := Some "text/plain"; at_size := Some 12%Z; at_language := None;
     at_preview := None; at_moduleData := None |}.

Definition hello (reader : list ReadReceipt) : Message :=
  {| m_id := 60%N; m_sender := 1%N; m_content := "hello"; m_githubLink := None;
     m_attachments := []; m_readBy := reader; m_createdAt := 5%Z |}.

Definition chat_with_hello : Chat :=
  {| c_id := 50%N; c_type := direct; c_participants := [1%N; 2%N]; c_project := None;
     c_messages := [hello [ {| rr_user := ref_id 1%N; rr_readAt := 5%Z |} ]];
     c_lastMessage := None |}.

(** One more receipt of [u], holding the id, at the end of [m]'s
    receipts. *)
Definition receipt_pushed (u : ObjectId) (m m' : Message) : Prop :=
  ∃ t, m' = set_readBy m (m_readBy m ++ [ {| rr_user := ref_id u; rr_readAt := t |} ]).

(** What [markAsRead] does to one message: a receipt of the user is
    appended when none of the receipts prints as the user's id, and
    nothing else changes. *)
Definition receipt_added (u : ObjectId) (m m' : Message) : Prop :=
  match read_by u m with
  | Some false => receipt_pushed u m m'
  | _ => m' = m
  end.

(** The receipts of a document as the collection stores it: ids, here of
    users that exist. *)
Definition stored_receipts (users : list ObjectId) (msgs : list Message) : Prop :=
  Forall (λ m, Forall (λ read, ∃ id, rr_user read = ref_id id ∧ id ∈ users) (m_readBy m))
         msgs.

(** The users named by the receipts of a message, in order. *)
Definition readers (m : Message) : list ObjectId :=
  map (λ read, ref_target (rr_user read)) (m_readBy m).

End ChatExamples.

Module RouteExamples.
Import Js ChatModel ProjectModel ChatExamples Examples.

(** A project chat of project 7, whose owner, user 1, takes part. *)
Definition project_chat : Chat :=
  {| c_id := 51%N; c_type := project; c_participants := [1%N; 2%N];
     c_project := Some 7%N; c_messages := []; c_lastMessage := None |}.

(** Project 7 with one earlier submission of 40 percent. *)
Definition project_with_40 : Project :=
  {| p_id := 7%N; p_name := "P"; p_owner := 1%N; p_collaborators := [2%N];
     p_deadline := 1000%Z;
     p_moduleSubmissions := [example_submission 40%Z 3%Z];
     p_completionPercentage := 40%Z; p_lastUpdated := 3%Z |}.

(** [POST /chats/50/messages] by participant 1 with an empty content and
    no file. *)
Definition empty_post : ChatRoutes.Request :=
  {| ChatRoutes.rq_user := 1%N; ChatRoutes.rq_chatId := 50%N;
     ChatRoutes.rq_content := Some ""; ChatRoutes.rq_projectProgress := None;
     ChatRoutes.rq_files := [] |}.

(** [POST /chats/51/messages] by participant 1 with
    [projectProgress = {"projectId": 7, "completionPercentage": 150}]. *)
Definition progress_150_post : ChatRoutes.Request :=
  {| ChatRoutes.rq_user := 1%N; ChatRoutes.rq_chatId := 51%N;
     ChatRoutes.rq_content := Some "status";
     ChatRoutes.rq_projectProgress :=
       Some {| ChatRoutes.pf_projectId := 7%N;
               ChatRoutes.pf_completionPercentage := 150%Z;
               ChatRoutes.pf_deadline := None |};
     ChatRoutes.rq_files := [] |}.

Definition chat_db : ChatRoutes.Db :=
  {| ChatRoutes.db_chats := [empty_direct; project_chat];
     ChatRoutes.db_messages := [];
     ChatRoutes.db_projects := [project_with_40] |}.

(** [POST /projects/7/modules] by the owner: title "Parser", 80 percent. *)
Definition submit_80 : ModuleRoutes.Request :=
  {| ModuleRoutes.rq_user := 1%N; ModuleRoutes.rq_id := 7%N;
     ModuleRoutes.rq_title := Some "Parser"; ModuleRoutes.rq_description := None;
     ModuleRoutes.rq_completionPercentage := Some "80";
     ModuleRoutes.rq_githubLink := None; ModuleRoutes.rq_files := [] |}.

Definition module_db : ModuleRoutes.Db :=
  {| ModuleRoutes.db_chats := [empty_direct; project_chat];
     ModuleRoutes.db_projects := [project_with_40] |}.

End RouteExamples.

Module ClientExamples.
Import Js Client.

(** The keys [handleMessageUpdate] merges with [||] instead of the spread. *)
Definition fallback_keys : list string := ["sender"; "createdAt"; "githubLink"].

(** A fetched history lists every message id once. *)
Definition history_distinct (ev : Incoming) : Prop :=
  match ev with
  | history data => NoDup (map (λ f, get (fm_fields f) "_id") data)
  | realtime _ => True
  end.

(** The entry of a module message as a history fetch leaves it, and two
    later events for the same id. *)
Definition m1_entry : JsObj :=
  <["_id" := JStr "m1"]> (<["content" := JStr "hi"]>
  (<["githubLink" := JStr "https://repo"]> (<["attachments" := JObject 9%N]> ∅))).

(** [{_id: "m1", content: "hi", githubLink: null}], as the server
    serializes a message without a link. *)
Definition m1_event : JsObj :=
  <["_id" := JStr "m1"]> (<["content" := JStr "hi"]> (<["githubLink" := JNull]> ∅)).

(** [{chatId: "c", message: {_id: "m1", content: "hi"}}] *)
Definition m1_wrapped : SocketMessage :=
  {| sm_fields := <["chatId" := JStr "c"]> ∅;
     sm_message := Some (<["_id" := JStr "m1"]> (<["content" := JStr "hi"]> ∅)) |}.

Definition m1_fetched : Fetched :=
  {| fm_fields := <["_id" := JStr "m1"]> (<["content" := JStr "hi"]> ∅);
     fm_module_githubLink := JUndefined |}.

End ClientExamples.

(** ** Further JavaScript primitives *)

Module JsMore.
Import Js.
Local Open Scope Z_scope.

(** [s.split(sep)] for a one-character separator. *)
Fixpoint split_on (sep : ascii) (s : string) : list string :=
  match s with
  | EmptyString => [EmptyString]
  | String a r =>
      if Ascii.eqb a sep then EmptyString :: split_on sep r
      else match split_on sep r with
           | h :: t => String a h :: t
           | [] => [String a EmptyString]
           end
  end.

(** [arr.join(sep)] *)
Fixpoint join (sep : string) (arr : list string) : string :=
  match arr with
  | [] => EmptyString
  | [x] => x
  | x :: rest => x +:+ sep +:+ join sep rest
  end.

(** The line feed character. *)
Definition LF : ascii := ascii_of_nat 10.

(** [Math.ceil(a / d)] for an integer [a] and a positive integer [d]
    (exact as long as the quotient is far below 2^26 in size, which holds
    for dates within hundreds of thousands of years of each other). *)
Definition Math_ceil_div (a d : Z) : Z := - ((- a) / d).

(** [s.toLowerCase()] on the ASCII letters.  The result is only looked up
    among the extensions below, which are ASCII and hold no letter that a
    character beyond ASCII lowers to, so leaving the other characters as
    they are changes no answer. *)
Definition lower_ascii (a : ascii) : ascii :=
  let n := nat_of_ascii a in
  if ((65 <=? n)%nat && (n <=? 90)%nat) then ascii_of_nat (n + 32) else a.

Fixpoint toLowerCase (s : string) : string :=
  match s with
  | EmptyString => EmptyString
  | String a r => String (lower_ascii a) (toLowerCase r)
  end.

End JsMore.

(** ** The rest of the chat controller (src/unnamed/part_001) *)

Module ChatEndpoints.
Import Js ChatModel.

Inductive Body :=
| json_message (message : string)
| json_error (message error : string)
| json_chat (chat : Chat)
| json_messages (messages : list Message).

Record Response := { status : nat; body : Body }.

(** [getOrCreateDirectChat] of the controller; [users] are the ids
    [User.findById] finds. *)
Definition getOrCreateDirectChat (user userId : ObjectId) (users : list ObjectId)
    (coll : list Chat) : M (Response * list Chat) :=
  if negb (bool_decide (userId ∈ users))
  then mret ({| status := 404; body := json_message "User not found" |}, coll)
  else
    '(chat, coll') ← ChatModel.getOrCreateDirectChat user userId coll;
    mret ({| status := 200; body := json_chat chat |}, coll').

(** [getChatMessages]; [users] are the ids of the User collection.  The
    query populates the receipts' users before [markAsRead] runs on the
    document; the save inside [markAsRead] writes the receipts with their
    ids.  A Mongoose array's [includes] compares ids.  (The senders are
    populated too; the body keeps their ids.) *)
Definition getChatMessages (user chatId : ObjectId) (users : list ObjectId)
    (coll : list Chat) : M (Response * list Chat) :=
  match populate_readBy users <$> ChatController.findById chatId coll with
  | None => mret ({| status := 404; body := json_message "Chat not found" |}, coll)
  | Some chat =>
      if negb (bool_decide (user ∈ c_participants chat))
      then mret ({| status := 403;
                    body := json_message "Not authorized to access this chat" |}, coll)
      else
        r ← markAsRead chat user;
        match r with
        | Resolved (n, chat') =>
            mret ({| status := 200; body := json_messages (c_messages chat') |},
                  if (0 <? n)%nat then ChatController.persist (depopulate chat') coll
                  else coll)
        | Rejected e =>
            mret ({| status := 500; body := json_error "Error fetching messages" e |}, coll)
        end
  end.

(** [createProjectChat] *)
Definition createProjectChat (user projectId : ObjectId) (coll : list Chat)
    : M (Response * list Chat) :=
  match findOne (λ c, bool_decide (c_type c = project)
                      && bool_decide (c_project c = Some projectId)) coll with
  | Some _ =>
      mret ({| status := 400; body := json_message "Project chat already exists" |}, coll)
  | None =>
      oid ← new_ObjectId;
      let chat := {| c_id := oid; c_type := project; c_participants := [user];
                     c_project := Some projectId; c_messages := [];
                     c_lastMessage := None |} in
      match save chat with
      | Resolved chat => mret ({| status := 201; body := json_chat chat |}, coll ++ [chat])
      | Rejected e =>
          mret ({| status := 500; body := json_error "Error creating project chat" e |}, coll)
      end
  end.

End ChatEndpoints.

(** ** The token middleware (first document of
       src/backend/src/middleware/auth.js) *)

Module AuthMiddleware.
Import Js JsMore.

Inductive VerifyError := TokenExpiredError | OtherVerifyError.

Inductive Outcome (Payload : Type) :=
| next (user : Payload)
| respond (status : nat) (message : string).
Arguments next {Payload} user.
Arguments respond {Payload} status message.

Section Middleware.

(** [jwt.verify(token, secret, callback)]: the decoded payload, or the
    error handed to the callback. *)
Variable Payload : Type.
Variable jwt_verify : string → Payload + VerifyError.

(** [authenticateToken]; the argument is [req.headers['authorization']]. *)
Definition authenticateToken (authHeader : option string) : Outcome Payload :=
  let token :=
    match or_null authHeader with
    | Some authHeader => split_on " " authHeader !! 1%nat
    | None => None
    end in
  match or_null token with
  | None => respond 401 "Authentication token is required"
  | Some token =>
      match jwt_verify token with
      | inl user => next user
      | inr TokenExpiredError => respond 401 "Token has expired"
      | inr OtherVerifyError => respond 403 "Invalid token"
      end
  end.

End Middleware.

End AuthMiddleware.

(** ** File upload to a chat (src/backend/src/routes/chatRoutes.js) *)

Module ChatUpload.
Import Js JsMore ChatModel.
Local Open Scope Z_scope.

Record FileInfo := { fi_type : AttachmentType; fi_language : option string }.

Definition codeExtensions : list (string * string) :=
  [ (".js", "javascript"); (".jsx", "javascript"); (".ts", "typescript");
    (".tsx", "typescript"); (".html", "html"); (".css", "css"); (".json", "json");
    (".py", "python"); (".java", "java"); (".cpp", "cpp"); (".c", "c");
    (".php", "php"); (".rb", "ruby"); (".go", "go"); (".rs", "rust") ].

Definition imageExtensions : list string :=
  [".jpg"; ".jpeg"; ".png"; ".gif"; ".webp"; ".svg"].

(** The file [multer] hands to the handler; [uf_content] is what
    [fs.readFileSync(file.path, 'utf8')] returns, [None] when it throws. *)
Record UploadedFile := {
  uf_originalname : string;
  uf_filename : string;
  uf_path : string;
  uf_mimetype : string;
  uf_size : Z;
  uf_content : option string
}.

Inductive Body :=
| json_message (message : string)
| json_error (message error : string)
| json_chat_message (msg : Message).

Record Response := { status : nat; body : Body }.

(** The name of an attachment type as the template literal prints it. *)
Definition type_name (t : AttachmentType) : string :=
  match t with
  | att_file => "file" | att_image => "image" | att_code => "code" | att_module => "module"
  end.

(** [content.split('\n').slice(0, 5).join('\n')] *)
Definition first_lines (content : string) : string :=
  join (String LF EmptyString) (take 5 (split_on LF content)).

Section Upload.

(** [path.extname]: the extension of a file name, empty or starting with
    a dot. *)
Variable extname : string → string.

(** [getFileInfo] *)
Definition getFileInfo (file : UploadedFile) : FileInfo :=
  let ext := toLowerCase (extname (uf_originalname file)) in
  match List.find (λ kv, bool_decide (kv.1 = ext)) codeExtensions with
  | Some (_, language) => {| fi_type := att_code; fi_language := Some language |}
  | None =>
      if bool_decide (ext ∈ imageExtensions)
      then {| fi_type := att_image; fi_language := None |}
      else {| fi_type := att_file; fi_language := None |}
  end.

(** [message.populate(...)] on a message embedded in a chat: Mongoose
    refuses to populate a subdocument and throws. *)
Definition subdocument_populate (message : Message) : Settled Message :=
  Rejected "MongooseError".

(** [router.post('/:chatId/upload', ...)], after authentication.  Without
    a file, reading [file.path] or [file.originalname] throws, which the
    [catch] answers with 400. *)
Definition upload (user chatId : ObjectId) (file : option UploadedFile)
    (coll : list Chat) : M (Response * list Chat) :=
  match file with
  | None =>
      mret ({| status := 400; body := json_error "Error uploading file" "TypeError" |}, coll)
  | Some file =>
      match findOne (λ c, bool_decide (c_id c = chatId)
                          && bool_decide (user ∈ c_participants c)) coll with
      | None =>
          mret ({| status := 404; body := json_message "Chat not found or unauthorized" |},
                coll)
      | Some chat =>
          let fileInfo := getFileInfo file in
          let preview :=
            match fi_type fileInfo, uf_content file with
            | att_code, Some content => first_lines content
            | _, _ => ""
            end in
          r ← addMessage chat user
                ("Shared a "
                 +:+ match fi_type fileInfo, fi_language fileInfo with
                     | att_code, Some language => language +:+ " file"
                     | att_code, None => "undefined file"
                     | t, _ => type_name t
                     end
                 +:+ ": " +:+ uf_originalname file)
                [ {| at_type := fi_type fileInfo;
                     at_filename := Some (uf_filename file);
                     at_path := Some (uf_path file);
                     at_mimetype := Some (uf_mimetype file);
                     at_size := Some (uf_size file);
                     at_language := fi_language fileInfo;
                     at_preview := Some preview;
                     at_moduleData := None |} ]
                None;
          match r with
          | Resolved (message, chat') =>
              let coll := ChatController.persist chat' coll in
              match subdocument_populate message with
              | Resolved message =>
                  mret ({| status := 200; body := json_chat_message message |}, coll)
              | Rejected e =>
                  mret ({| status := 400; body := json_error "Error uploading file" e |}, coll)
              end
          | Rejected e =>
              mret ({| status := 400; body := json_error "Error uploading file" e |}, coll)
          end
      end
  end.

End Upload.

End ChatUpload.

(** ** Typing indicator, deadline colour and local storage of the client
       (src/frontend/src/components/ChatWindow.jsx,
       src/frontend/src/utils/storage.js) *)

Module ClientMore.
Import Js JsMore Client.
Local Open Scope Z_scope.

(** *** The typing indicator

    [typingUsers] is a JS [Set]: insertion-ordered, without duplicates.
    Every accepted ['user_typing'] event also schedules one removal of the
    name 3000 ms later; the delays being equal, the removals fire in the
    order they were scheduled. *)
Definition set_add (x : JsVal) (s : list JsVal) : list JsVal :=
  if bool_decide (x ∈ s) then s else s ++ [x].

Definition set_delete (x : JsVal) (s : list JsVal) : list JsVal :=
  filter (λ y, y ≠ x) s.

Record TypingState := {
  typingUsers : list JsVal;
  pending : list JsVal
}.

Inductive TypingEvent :=
| user_typing (me userId username : JsVal)
| timeout_fires.

(** The ['user_typing'] listener ([me] is [storage.getUser()?._id] at that
    moment) and the timeout callback. *)
Definition on_typing (st : TypingState) (ev : TypingEvent) : TypingState :=
  match ev with
  | user_typing me userId username =>
      if bool_decide (userId ≠ me)
      then {| typingUsers := set_add username (typingUsers st);
              pending := pending st ++ [username] |}
      else st
  | timeout_fires =>
      match pending st with
      | [] => st
      | username :: rest =>
          {| typingUsers := set_delete username (typingUsers st); pending := rest |}
      end
  end.

(** *** [getDeadlineColor] *)
Inductive Color := color_error | color_warning | color_info | color_default.

Definition day_ms : Z := 1000 * 60 * 60 * 24.

Definition getDeadlineColor (deadline now : Date) : Color :=
  let daysRemaining := Math_ceil_div (deadline - now) day_ms in
  if daysRemaining <? 0 then color_error
  else if daysRemaining <=? 3 then color_warning
  else if daysRemaining <=? 7 then color_info
  else color_default.

(** *** [storage]: the token and the session

    [localStorage] maps keys to strings. *)
Abbreviation LocalStorage := (gmap string string).

Definition blank (s : string) : bool :=
  bool_decide (s = "") || bool_decide (trim s = "").

(** [storage.setToken] *)
Definition setToken (token : JsVal) (ls : LocalStorage) : bool * LocalStorage :=
  match token with
  | JStr t => if blank t then (false, ls) else (true, <["token" := t]> ls)
  | _ => (false, ls)
  end.

(** [storage.getToken]; [None] is [null]. *)
Definition getToken (ls : LocalStorage) : option string :=
  match ls !! "token" with
  | Some token => if blank token then None else Some token
  | None => None
  end.

(** [storage.remove] *)
Definition remove (key : string) (ls : LocalStorage) : bool * LocalStorage :=
  (true, delete key ls).

(** [storage.clearAuth] *)
Definition clearAuth (ls : LocalStorage) : bool * LocalStorage :=
  let '(_, ls) := remove "user" ls in
  let '(_, ls) := remove "token" ls in
  (true, ls).

Section Json.

(** [JSON.parse], [None] when it throws, and the truthiness of a parsed
    value. *)
Variable Json : Type.
Variable JSON_parse : string → option Json.
Variable json_truthy : Json → bool.

(** [storage.get(key, defaultValue)] *)
Definition get_item (key : string) (defaultValue : option Json) (ls : LocalStorage)
    : option Json :=
  match or_null (ls !! key) with
  | None => defaultValue
  | Some item =>
      match JSON_parse item with
      | Some v => Some v
      | None => defaultValue
      end
  end.

(** [storage.getUser] *)
Definition getUser (ls : LocalStorage) : option Json := get_item "user" None ls.

(** [storage.isAuthenticated] *)
Definition isAuthenticated (ls : LocalStorage) : bool :=
  match getToken ls, getUser ls with
  | Some _, Some user => json_truthy user
  | _, _ => false
  end.

End Json.

End ClientMore.

(** ** Openings, applications and collaborators of a project
       (src/unnamed/part_003; second document of
       src/backend/src/routes/moduleRoutes.js) *)

Module ProjectMembership.
Import Js.

Inductive ApplicantStatus := Pending | Accepted | Rejected_.
Inductive OpeningStatus := Open | Filled | Closed.
Inductive CollaboratorStatus := CoPending | CoActive | CoInactive.

#[global] Instance ApplicantStatus_eq_dec : EqDecision ApplicantStatus.
Proof. solve_decision. Defined.
#[global] Instance OpeningStatus_eq_dec : EqDecision OpeningStatus.
Proof. solve_decision. Defined.
#[global] Instance CollaboratorStatus_eq_dec : EqDecision CollaboratorStatus.
Proof. solve_decision. Defined.

Record Applicant := {
  ap_id : ObjectId;
  ap_user : ObjectId;
  ap_status : ApplicantStatus;
  ap_appliedAt : Date
}.

Record Opening := {
  op_id : ObjectId;
  op_role : string;
  op_description : string;
  op_status : OpeningStatus;
  op_applicants : list Applicant;
  op_filledBy : option ObjectId
}.

Record Collaborator := {
  co_user : ObjectId;
  co_role : string;
  co_status : CollaboratorStatus;
  co_joinedAt : Date
}.

(** The membership part of a project document: its owner, its openings
    with their applicants, and its collaborators with role and status. *)
Record ProjectDoc := {
  pj_id : ObjectId;
  pj_owner : ObjectId;
  pj_openings : list Opening;
  pj_collaborators : list Collaborator
}.

(** The validators that can fail on these typed parts: the required
    [role] and [description] of an opening and [role] of a collaborator. *)
Definition doc_valid (p : ProjectDoc) : bool :=
  forallb (λ o, bool_decide (op_role o ≠ "") && bool_decide (op_description o ≠ ""))
          (pj_openings p)
  && forallb (λ c, bool_decide (co_role c ≠ "")) (pj_collaborators p).

Definition save (p : ProjectDoc) : Settled ProjectDoc :=
  if doc_valid p then Resolved p else Rejected "ValidationError".

(** Assignment to the first element that satisfies [P] (the subdocument a
    [find] or [id()] returned). *)
Fixpoint update_first {A} (P : A → bool) (f : A → A) (l : list A) : list A :=
  match l with
  | [] => []
  | x :: rest => if P x then f x :: rest else x :: update_first P f rest
  end.

Definition set_openings (p : ProjectDoc) (os : list Opening) : ProjectDoc :=
  {| pj_id := pj_id p; pj_owner := pj_owner p; pj_openings := os;
     pj_collaborators := pj_collaborators p |}.

Definition set_collaborators (p : ProjectDoc) (cs : list Collaborator) : ProjectDoc :=
  {| pj_id := pj_id p; pj_owner := pj_owner p; pj_openings := pj_openings p;
     pj_collaborators := cs |}.

Definition set_applicants (o : Opening) (aps : list Applicant) : Opening :=
  {| op_id := op_id o; op_role := op_role o; op_description := op_description o;
     op_status := op_status o; op_applicants := aps; op_filledBy := op_filledBy o |}.

Definition set_filled (o : Opening) (userId : ObjectId) : Opening :=
  {| op_id := op_id o; op_role := op_role o; op_description := op_description o;
     op_status := Filled; op_applicants := op_applicants o; op_filledBy := Some userId |}.

Definition set_status (a : Applicant) (s : ApplicantStatus) : Applicant :=
  {| ap_id := ap_id a; ap_user := ap_user a; ap_status := s;
     ap_appliedAt := ap_appliedAt a |}.

(** [this.openings.id(openingId)] *)
Definition opening_by_id (openingId : ObjectId) (p : ProjectDoc) : option Opening :=
  List.find (λ o, bool_decide (op_id o = openingId)) (pj_openings p).

(** [projectSchema.methods.isCollaborator] *)
Definition isCollaborator (this : ProjectDoc) (userId : ObjectId) : bool :=
  existsb (λ collaborator, bool_decide (co_user collaborator = userId)
                           && bool_decide (co_status collaborator = CoActive))
          (pj_collaborators this).

(** [projectSchema.methods.addCollaborator]; the schema trims the role. *)
Definition addCollaborator (this : ProjectDoc) (userId : ObjectId) (role : string)
    : M (Settled ProjectDoc) :=
  if negb (existsb (λ c, bool_decide (co_user c = userId)) (pj_collaborators this))
  then
    joinedAt ← Date_now;
    mret (save (set_collaborators this
                  (pj_collaborators this
                   ++ [ {| co_user := userId; co_role := trim role;
                           co_status := CoPending; co_joinedAt := joinedAt |} ])))
  else mret (Resolved this).

(** [projectSchema.methods.handleJoinRequest] *)
Definition handleJoinRequest (this : ProjectDoc) (userId openingId : ObjectId)
    (status : ApplicantStatus) : M (Settled ProjectDoc) :=
  match opening_by_id openingId this with
  | None => mret (Rejected "Opening not found")
  | Some opening =>
      match List.find (λ a, bool_decide (ap_user a = userId)) (op_applicants opening) with
      | None => mret (Rejected "Application not found")
      | Some applicant =>
          let mark (o : Opening) :=
            set_applicants o
              (update_first (λ a, bool_decide (ap_user a = userId))
                            (λ a, set_status a status) (op_applicants o)) in
          if bool_decide (status = Accepted)
          then
            let this := set_openings this
                          (update_first (λ o, bool_decide (op_id o = openingId))
                                        (λ o, set_filled (mark o) userId)
                                        (pj_openings this)) in
            r ← addCollaborator this userId (op_role opening);
            match r with
            | Resolved this => mret (save this)
            | Rejected e => mret (Rejected e)
            end
          else
            mret (save (set_openings this
                          (update_first (λ o, bool_decide (op_id o = openingId)) mark
                                        (pj_openings this))))
      end
  end.

(** *** [POST /request]: applying for an opening *)

Record Response := { status : nat; message : string }.

Definition persist (p : ProjectDoc) (projects : list ProjectDoc) : list ProjectDoc :=
  map (λ q, if bool_decide (pj_id q = pj_id p) then p else q) projects.

Definition apply_for_opening (user projectId openingId : ObjectId)
    (projects : list ProjectDoc) : M (Response * list ProjectDoc) :=
  match List.find (λ p, bool_decide (pj_id p = projectId)) projects with
  | None => mret ({| status := 404; message := "Project not found" |}, projects)
  | Some proj =>
      match opening_by_id openingId proj with
      | None => mret ({| status := 404; message := "Opening not found" |}, projects)
      | Some opening =>
          if negb (bool_decide (op_status opening = Open))
          then mret ({| status := 400; message := "This position is no longer open" |},
                     projects)
          else
            match List.find (λ applicant, bool_decide (ap_user applicant = user))
                            (op_applicants opening) with
            | Some _ =>
                mret ({| status := 400;
                         message := "You have already applied for this position" |},
                      projects)
            | None =>
                oid ← new_ObjectId;
                appliedAt ← Date_now;
                let proj := set_openings proj
                  (update_first (λ o, bool_decide (op_id o = openingId))
                     (λ o, set_applicants o
                             (op_applicants o
                              ++ [ {| ap_id := oid; ap_user := user; ap_status := Pending;
                                      ap_appliedAt := appliedAt |} ]))
                     (pj_openings proj)) in
                match save proj with
                | Resolved proj =>
                    mret ({| status := 200; message := "Application submitted successfully" |},
                          persist proj projects)
                | Rejected _ =>
                    mret ({| status := 500; message := "Error submitting project request" |},
                          projects)
                end
            end
      end
  end.

End ProjectMembership.

(** ** Orders and predicates used by the further properties *)

Module MoreSpec.
Import Js ProjectModel.
Local Open Scope Z_scope.

(** The order of an array sorted by [submittedAt], newest first. *)
Definition newest_first (a b : ModuleSubmission) : Prop :=
  ms_submittedAt b <= ms_submittedAt a.

(** The number of occurrences of a character in a string. *)
Fixpoint count_char (c : ascii) (s : string) : nat :=
  match s with
  | EmptyString => 0
  | String a r => (if Ascii.eqb a c then 1 else 0) + count_char c r
  end.

(** Every module attachment of a message carries a percentage within
    0..100. *)
Definition modules_in_range (m : ChatModel.Message) : Prop :=
  Forall (λ a, match ChatModel.at_moduleData a with
               | Some md => 0 <= ChatModel.md_completionPercentage md <= 100
               | None => True
               end) (ChatModel.m_attachments m).

(** The stored documents pass their schemas' validators, and the
    percentages kept in module attachments lie within 0..100. *)
Definition module_db_ok (db : ModuleRoutes.Db) : Prop :=
  Forall (λ p, ModuleRoutes.project_valid p = true) (ModuleRoutes.db_projects db)
  ∧ Forall (λ c, ChatModel.chat_valid c = true
                 ∧ Forall modules_in_range (ChatModel.c_messages c))
           (ModuleRoutes.db_chats db).

End MoreSpec.

Module MoreExamples.
Import Js JsMore ChatModel AuthMiddleware ChatUpload.

(** A verifier that accepts the token "abc" for user 1 and reports "old"
    as expired. *)
Definition example_verify (token : string) : nat + VerifyError :=
  if bool_decide (token = "abc") then inl 1%nat
  else if bool_decide (token = "old") then inr TokenExpiredError
  else inr OtherVerifyError.

(** An extension function good enough for names with one dot. *)
Definition example_extname (name : string) : string :=
  match split_on "." name with
  | [_; e] => String "." e
  | _ => ""
  end.

Definition main_js : UploadedFile :=
  {| uf_originalname := "Main.JS"; uf_filename := "1700-1.JS";
     uf_path := "uploads/chat/code/1700-1.JS"; uf_mimetype := "text/javascript";
     uf_size := 20%Z;
     uf_content := Some ("a" +:+ String LF ("b" +:+ String LF ("c" +:+ String LF
                         ("d" +:+ String LF ("e" +:+ String LF "f"))))) |}.

(** White space beyond ASCII, in UTF-8: the no-break space U+00A0, the em
    space U+2003, the line separator U+2028 and the byte order mark
    U+FEFF. *)
Definition nbsp : string :=
  String (ascii_of_nat 194) (String (ascii_of_nat 160) EmptyString).

Definition em_space : string :=
  String (ascii_of_nat 226) (String (ascii_of_nat 128) (String (ascii_of_nat 131) EmptyString)).

Definition line_separator : string :=
  String (ascii_of_nat 226) (String (ascii_of_nat 128) (String (ascii_of_nat 168) EmptyString)).

Definition byte_order_mark : string :=
  String (ascii_of_nat 239) (String (ascii_of_nat 187) (String (ascii_of_nat 191) EmptyString)).

End MoreExamples.

Module MembershipExamples.
Import Js ProjectMembership.

(** Project 7 of owner 1 with one open opening, 30, to which user 2 has
    applied. *)
Definition backend_opening : Opening :=
  {| op_id := 30%N; op_role := "Backend"; op_description := "API work";
     op_status := Open;
     op_applicants := [ {| ap_id := 40%N; ap_user := 2%N; ap_status := Pending;
                           ap_appliedAt := 1%Z |} ];
     op_filledBy := None |}.

Definition project7 : ProjectDoc :=
  {| pj_id := 7%N; pj_owner := 1%N; pj_openings := [backend_opening];
     pj_collaborators := [] |}.

End MembershipExamples.

(** * Theorems *)

Section ProgressAggregate.
Import Js ProjectModel Spec.
Local Open Scope Z_scope.

Lemma or0_id x : or0 x = x.
Proof. unfold or0. destruct (Z.eqb_spec x 0); lia. Qed.

Lemma fold_sum_acc {A} (f : A → Z) l acc :
  fold_left (λ sum x, sum + or0 (f x)) l acc = acc + reduce_sum f l.
Proof.
  unfold reduce_sum. revert acc.
  induction l as [|a l IH]; intros acc; simpl; [lia|].
  rewrite IH, (IH (0 + _)). lia.
Qed.

Lemma reduce_sum_cons {A} (f : A → Z) a l :
  reduce_sum f (a :: l) = f a + reduce_sum f l.
Proof. unfold reduce_sum at 1. simpl. rewrite fold_sum_acc, or0_id. lia. Qed.

Lemma reduce_sum_perm {A} (f : A → Z) (l l' : list A) :
  l ≡ₚ l' → reduce_sum f l = reduce_sum f l'.
Proof.
  induction 1 as [|x l l' _ IH|x y l|l l' l'' _ IH1 _ IH2].
  - reflexivity.
  - rewrite !reduce_sum_cons. lia.
  - rewrite !reduce_sum_cons. lia.
  - congruence.
Qed.

Lemma insert_desc_perm {A} (key : A → Z) x l : insert_desc key x l ≡ₚ x :: l.
Proof.
  induction l as [|y l IH]; simpl; [done|].
  destruct (key y <=? key x); [done|].
  rewrite IH. apply Permutation_swap.
Qed.

Lemma sort_desc_perm {A} (key : A → Z) l : sort_desc key l ≡ₚ l.
Proof.
  induction l as [|x l IH]; simpl; [done|].
  rewrite insert_desc_perm. by f_equiv.
Qed.

Lemma insert_desc_head_max {A} (key : A → Z) x l :
  head_max key l → head_max key (insert_desc key x l).
Proof.
  destruct l as [|h t]; simpl; [constructor|].
  intros Hh. destruct (Z.leb_spec (key h) (key x)) as [Hle|Hlt]; simpl.
  - constructor; [done|].
    eapply Forall_impl; [exact Hh|]. simpl. intros; lia.
  - destruct t as [|h' t']; simpl.
    + constructor; [lia|constructor].
    + assert (Hperm : insert_desc key x (h' :: t') ≡ₚ x :: h' :: t')
        by apply insert_desc_perm.
      simpl in Hperm. rewrite Hperm. constructor; [lia|done].
Qed.

Lemma sort_desc_head_max {A} (key : A → Z) l : head_max key (sort_desc key l).
Proof.
  induction l as [|x l IH]; simpl; [done|]. by apply insert_desc_head_max.
Qed.

Lemma sort_desc_hd {A} (key : A → Z) (d : A) l :
  l ≠ [] →
  hd d (sort_desc key l) ∈ l ∧ Forall (λ y, key y <= key (hd d (sort_desc key l))) l.
Proof.
  intros Hne.
  pose proof (sort_desc_perm key l) as Hp.
  pose proof (sort_desc_head_max key l) as Hm.
  destruct (sort_desc key l) as [|h t] eqn:E.
  - apply Permutation_nil_l in Hp. congruence.
  - simpl in *. split.
    + rewrite <- Hp. constructor.
    + rewrite <- Hp. constructor; [lia|done].
Qed.

End ProgressAggregate.

(** ** C3: the progress aggregate *)

Section ProgressTheorems.
Import Js ProjectModel Spec Examples.
Local Open Scope Z_scope.

Lemma reduce_sum_foldr (subs : list ModuleSubmission) :
  reduce_sum ms_completionPercentage subs
  = foldr Z.add 0 (map ms_completionPercentage subs).
Proof.
  induction subs as [|s subs IH]; [done|].
  rewrite reduce_sum_cons. simpl. by rewrite IH.
Qed.

Lemma foldr_add_perm (l l' : list Z) :
  l ≡ₚ l' → foldr Z.add 0 l = foldr Z.add 0 l'.
Proof. induction 1; simpl; lia. Qed.

Lemma Math_round_div_nearest total n :
  0 < n → 2 * Z.abs (n * Math_round_div total n - total) <= n.
Proof.
  intros Hn. unfold Math_round_div.
  pose proof (Z.div_mod (2 * total + n) (2 * n) ltac:(lia)) as Hdm.
  pose proof (Z.mod_pos_bound (2 * total + n) (2 * n) ltac:(lia)) as Hb.
  lia.
Qed.

Lemma progressData_nonempty (p : Project) (w : World) :
  p_moduleSubmissions p ≠ [] →
  ∃ first,
    progressData p w =
      (({| pd_completionPercentage :=
             Math_round_div (reduce_sum ms_completionPercentage (p_moduleSubmissions p))
                            (Z.of_nat (length (p_moduleSubmissions p)));
           pd_lastUpdated :=
             ms_submittedAt (hd first (sort_desc ms_submittedAt (p_moduleSubmissions p))) |},
        set_moduleSubmissions p (sort_desc ms_submittedAt (p_moduleSubmissions p))), w).
Proof.
  unfold progressData. destruct (p_moduleSubmissions p) as [|first rest] eqn:E; [done|].
  intros _. exists first. done.
Qed.

(** C3.  For a project with submissions, the aggregate of [progressData]
    is [Math.round] of total / count, an integer nearest to the mean of
    the submissions' percentages; the aggregate and the "last updated"
    time are the same for every order of the submissions array; and the
    "last updated" time is the largest [submittedAt] among the
    submissions, wherever it sits in the array. *)
Theorem progressData_mean_order_invariant (p p' : Project) (w w' : World) :
  p_moduleSubmissions p ≠ [] →
  p_moduleSubmissions p' ≡ₚ p_moduleSubmissions p →
  let subs := p_moduleSubmissions p in
  let pd := (progressData p w).1.1 in
  let pd' := (progressData p' w').1.1 in
  pd_completionPercentage pd
    = Math_round_div (foldr Z.add 0 (map ms_completionPercentage subs))
                     (Z.of_nat (length subs))
  ∧ spec_rounded_mean (map ms_completionPercentage subs) (pd_completionPercentage pd)
  ∧ pd_completionPercentage pd' = pd_completionPercentage pd
  ∧ pd_lastUpdated pd' = pd_lastUpdated pd
  ∧ (∃ s, s ∈ subs ∧ ms_submittedAt s = pd_lastUpdated pd)
  ∧ (∀ s, s ∈ subs → ms_submittedAt s <= pd_lastUpdated pd).
Proof.
  intros Hne Hperm subs pd pd'.
  assert (Hne' : p_moduleSubmissions p' ≠ []).
  { intros E. rewrite E in Hperm. symmetry in Hperm.
    apply Permutation_nil_r in Hperm. done. }
  destruct (progressData_nonempty p w Hne) as (d & Hpd).
  destruct (progressData_nonempty p' w' Hne') as (d' & Hpd').
  subst pd pd'. rewrite Hpd, Hpd'. simpl.
  destruct (sort_desc_hd ms_submittedAt d _ Hne) as [Hin Hmax].
  destruct (sort_desc_hd ms_submittedAt d' _ Hne') as [Hin' Hmax'].
  remember (hd d' (sort_desc ms_submittedAt (p_moduleSubmissions p'))) as h' eqn:Eh'.
  rewrite Hperm in Hin', Hmax'.
  rewrite Forall_forall in Hmax, Hmax'.
  assert (Hlen : (0 < Z.of_nat (length subs))).
  { subst subs. destruct (p_moduleSubmissions p); [done|]. simpl. lia. }
  repeat split.
  - by rewrite reduce_sum_foldr.
  - unfold spec_rounded_mean. rewrite length_map, <- reduce_sum_foldr.
    by apply Math_round_div_nearest.
  - by rewrite (reduce_sum_perm _ _ _ Hperm), (Permutation_length Hperm).
  - specialize (Hmax _ Hin'). specialize (Hmax' _ Hin). simpl in *. lia.
  - by exists (hd d (sort_desc ms_submittedAt (p_moduleSubmissions p))).
  - intros s Hs. by apply Hmax.
Qed.

Lemma progressData_mean_order_invariant_witness :
  let s20 := example_submission 20 30 in
  let s60 := example_submission 60 10 in
  let s100 := example_submission 100 20 in
  let p := example_project [s20; s60; s100] in
  let p' := example_project [s60; s20; s100] in
  pd_completionPercentage (progressData p example_world).1.1 = 60
  ∧ pd_completionPercentage (progressData p' example_world).1.1 = 60
  ∧ pd_lastUpdated (progressData p' example_world).1.1 = 30.
Proof.
  intros s20 s60 s100 p p'.
  assert (Hne : p_moduleSubmissions p ≠ []) by done.
  assert (Hperm : p_moduleSubmissions p' ≡ₚ p_moduleSubmissions p)
    by apply Permutation_swap.
  destruct (progressData_mean_order_invariant p p' example_world example_world Hne Hperm)
    as (H1 & _ & H3 & H4 & _).
  split; [exact H1|].
  split; [rewrite H3; exact H1|].
  rewrite H4. reflexivity.
Defined.

(** Percentages 20, 60 and 100, submitted in any order, aggregate to 60. *)
Lemma progressData_20_60_100 (p : Project) (w : World) :
  map ms_completionPercentage (p_moduleSubmissions p) ≡ₚ [20; 60; 100] →
  pd_completionPercentage (progressData p w).1.1 = 60.
Proof.
  intros Hperm.
  assert (Hne : p_moduleSubmissions p ≠ []).
  { intros E. rewrite E in Hperm. by apply Permutation_nil_l in Hperm. }
  destruct (progressData_nonempty p w Hne) as (d & ->). simpl.
  rewrite reduce_sum_foldr.
  assert (Hsum : foldr Z.add 0 (map ms_completionPercentage (p_moduleSubmissions p)) = 180).
  { rewrite (foldr_add_perm _ _ Hperm). reflexivity. }
  rewrite Hsum.
  apply Permutation_length in Hperm. rewrite length_map in Hperm. rewrite Hperm.
  reflexivity.
Qed.

(** With no submissions the getter answers 0 and the current time. *)
Lemma progressData_empty (p : Project) (w : World) :
  p_moduleSubmissions p = [] →
  (progressData p w).1.1 = {| pd_completionPercentage := 0; pd_lastUpdated := clock w (ticks w) |}.
Proof. unfold progressData. by intros ->. Qed.

End ProgressTheorems.

(** ** C1: get-or-create of a direct chat *)

Section DirectChatTheorems.
Import Js ChatModel Examples.

Lemma direct_query_created (u1 u2 : ObjectId) (oid : ObjectId) :
  direct_query u1 u2
    {| c_id := oid; c_type := direct; c_participants := [u1; u2]; c_project := None;
       c_messages := []; c_lastMessage := None |} = true.
Proof.
  unfold direct_query. cbn [c_type c_participants length].
  rewrite !andb_true_iff, !bool_decide_eq_true, Nat.eqb_eq.
  repeat split.
  - apply list_elem_of_here.
  - apply list_elem_of_further, list_elem_of_here.
Qed.

Lemma find_app_None {A} (f : A → bool) (l : list A) (x : A) :
  List.find f l = None → f x = true → List.find f (l ++ [x]) = Some x.
Proof.
  induction l as [|a l IH]; simpl; intros Hn Hx.
  - by rewrite Hx.
  - destruct (f a); [done|]. by apply IH.
Qed.

Lemma find_None_filter {A} (f : A → bool) (l : list A) :
  List.find f l = None → List.filter f l = [].
Proof.
  induction l as [|a l IH]; simpl; [done|].
  destruct (f a); [done|]. exact IH.
Qed.

Lemma find_Some_filter_hd {A} (f : A → bool) (l : list A) (x : A) :
  List.find f l = Some x → ∃ rest, List.filter f l = x :: rest.
Proof.
  induction l as [|a l IH]; simpl; [done|].
  destruct (f a) eqn:E.
  - intros [= ->]. eauto.
  - exact IH.
Qed.

Lemma insert_middle {A} (l1 l2 : list A) (x y : A) :
  <[length l1 := x]> (l1 ++ y :: l2) = l1 ++ x :: l2.
Proof. rewrite insert_app_r_alt by lia. by rewrite Nat.sub_diag. Qed.

(** A call run alone, both of its steps in a row, is the function itself. *)
Lemma step_call_twice (u1 u2 : ObjectId) (coll : list Chat) (w : World) :
  ('(call, coll') ← step_call u1 u2 AwaitFindOne coll; step_call u1 u2 call coll') w
  = ('(chat, coll') ← getOrCreateDirectChat u1 u2 coll; mret (Returned chat, coll')) w.
Proof.
  unfold getOrCreateDirectChat, step_call, mbind, M_bind, mret, M_ret.
  destruct (findOne (direct_query u1 u2) coll); reflexivity.
Qed.

(** Once the chat is in the collection, every later call run serially
    returns it and leaves the collection alone. *)
Lemma run_serial_found (u1 u2 : ObjectId) (chat : Chat) (coll : list Chat) (w : World) (m : nat) :
  findOne (direct_query u1 u2) coll = Some chat →
  ∀ (finished : list Call),
    run_schedule u1 u2 (flat_map (λ i, [i; i]) (seq (length finished) m))
                 (finished ++ replicate m AwaitFindOne) coll w
    = ((finished ++ replicate m (Returned chat), coll), w).
Proof.
  intros Hfound. induction m as [|m IH]; intros finished; [done|].
  cbn [seq flat_map app run_schedule replicate].
  rewrite list_lookup_middle by done.
  unfold mbind at 1, M_bind at 1. cbn [step_call]. rewrite Hfound.
  unfold mret at 1, M_ret at 1.
  rewrite insert_middle.
  cbn [run_schedule].
  rewrite list_lookup_middle by done.
  unfold mbind at 1, M_bind at 1. cbn [step_call].
  unfold mret at 1, M_ret at 1.
  rewrite insert_middle.
  specialize (IH (finished ++ [Returned chat])).
  rewrite length_app in IH. simpl in IH.
  replace (length finished + 1)%nat with (S (length finished)) in IH by lia.
  rewrite <- !(assoc_L (++)) in IH. simpl in IH. exact IH.
Qed.

(** C1, as the code has it.  [getOrCreateDirectChat] is a [findOne]
    followed, when nothing was found, by a separate [create].  When the
    [n] calls for a pair run one after the other on a collection holding
    at most one direct chat of the pair, every call returns the same chat,
    a direct chat whose participants include both users and number two,
    and afterwards the collection holds exactly that one chat for the
    pair. *)
Theorem getOrCreateDirectChat_serial_single
    (u1 u2 : ObjectId) (coll : list Chat) (w : World) (n : nat) :
  (0 < n)%nat →
  (length (List.filter (direct_query u1 u2) coll) ≤ 1)%nat →
  ∃ chat coll' w',
    run_schedule u1 u2 (serial_schedule n) (replicate n AwaitFindOne) coll w
      = ((replicate n (Returned chat), coll'), w')
    ∧ c_type chat = direct
    ∧ u1 ∈ c_participants chat ∧ u2 ∈ c_participants chat
    ∧ length (c_participants chat) = 2%nat
    ∧ List.filter (direct_query u1 u2) coll' = [chat].
Proof.
  intros Hn Hone. destruct n as [|m]; [lia|].
  unfold serial_schedule.
  destruct (findOne (direct_query u1 u2) coll) as [chat|] eqn:Hfind.
  - exists chat, coll, w.
    pose proof (run_serial_found u1 u2 chat coll w (S m) Hfind []) as Hrun.
    simpl length in Hrun. rewrite !app_nil_l in Hrun.
    split; [exact Hrun|].
    destruct (find_Some_filter_hd _ _ _ Hfind) as [rest Hf].
    apply find_some in Hfind as [_ Hq].
    unfold direct_query in Hq.
    repeat (apply andb_prop in Hq as [Hq ?]).
    repeat match goal with
           | H : bool_decide _ = true |- _ => apply bool_decide_eq_true_1 in H
           | H : (_ =? _)%nat = true |- _ => apply Nat.eqb_eq in H
           end.
    repeat (split; [done|]).
    rewrite Hf in Hone |- *. destruct rest; [done|simpl in Hone; lia].
  - set (chat := {| c_id := next_oid w; c_type := direct; c_participants := [u1; u2];
                    c_project := None; c_messages := []; c_lastMessage := None |}).
    set (w1 := {| clock := clock w; ticks := ticks w; next_oid := N.succ (next_oid w) |}).
    exists chat, (coll ++ [chat]), w1.
    assert (Hq : direct_query u1 u2 chat = true) by apply direct_query_created.
    assert (Hfind' : findOne (direct_query u1 u2) (coll ++ [chat]) = Some chat)
      by (by apply find_app_None).
    split.
    + cbn [seq flat_map app run_schedule replicate lookup list_lookup].
      unfold mbind at 1, M_bind at 1. cbn [step_call]. rewrite Hfind.
      unfold mret at 1, M_ret at 1. cbn [insert list_insert].
      cbn [run_schedule lookup list_lookup].
      unfold mbind at 1, M_bind at 1. cbn [step_call].
      unfold create_direct, new_ObjectId, mbind, M_bind, mret, M_ret.
      cbn [insert list_insert].
      fold (@mbind M _) (@mret M _). fold chat w1.
      exact (run_serial_found u1 u2 chat (coll ++ [chat]) w1 m Hfind' [Returned chat]).
    + split; [done|].
      split; [apply list_elem_of_here|].
      split; [apply list_elem_of_further, list_elem_of_here|].
      split; [done|].
      rewrite List.filter_app, (find_None_filter _ _ Hfind). simpl. by rewrite Hq.
Qed.

Lemma getOrCreateDirectChat_serial_single_witness :
  ∃ chat coll' w',
    run_schedule 1%N 2%N (serial_schedule 3) (replicate 3 AwaitFindOne) [] example_world
      = ((replicate 3 (Returned chat), coll'), w')
    ∧ c_type chat = direct
    ∧ 1%N ∈ c_participants chat ∧ 2%N ∈ c_participants chat
    ∧ length (c_participants chat) = 2%nat
    ∧ List.filter (direct_query 1%N 2%N) coll' = [chat].
Proof.
  apply (getOrCreateDirectChat_serial_single 1%N 2%N [] example_world 3); simpl; lia.
Defined.

(** C1 as stated fails: with two concurrent calls for the pair (1, 2) on
    an empty collection, both [findOne]s run before either [create]; two
    direct chats of the pair are persisted and the calls return different
    ids. *)
Lemma getOrCreateDirectChat_concurrent_duplicates :
  ∃ chatA chatB w',
    run_schedule 1%N 2%N [0; 1; 0; 1]%nat [AwaitFindOne; AwaitFindOne] [] example_world
      = (([Returned chatA; Returned chatB], [chatA; chatB]), w')
    ∧ c_id chatA ≠ c_id chatB
    ∧ c_participants chatA = [1%N; 2%N] ∧ c_participants chatB = [1%N; 2%N]
    ∧ length (List.filter (direct_query 1%N 2%N) [chatA; chatB]) = 2%nat.
Proof.
  eexists _, _, _. split; [reflexivity|].
  repeat split. compute. discriminate.
Qed.

End DirectChatTheorems.

(** ** C2 and C5: appending a message, marking messages read *)

Section ChatDocumentTheorems.
Import Js ChatModel Examples ChatExamples.
Local Open Scope Z_scope.

Lemma forallb_app_single {A} (f : A → bool) (l : list A) (x : A) :
  forallb f (l ++ [x]) = forallb f l && f x.
Proof. rewrite forallb_app. simpl. by rewrite andb_true_r. Qed.

Lemma last_snoc {A} (l : list A) (x d : A) : List.last (l ++ [x]) d = x.
Proof. apply last_last. Qed.

(** C2, as the code has it.  On a valid chat and for a non-empty content
    (the schema requires it), [addMessage] resolves with the created
    message: it is appended at the end of the log, carries the sender, the
    content and the attachments, and is read by the sender; [lastMessage]
    takes the same content and sender, and as [createdAt] the clock reading
    taken when [lastMessage] is set, the one after the reading that
    stamped the message (the receipt took the reading before that). *)
Theorem addMessage_appends_and_caches
    (c : Chat) (s : ObjectId) (content : string) (attachments : list Attachment)
    (githubLink : option string) (w : World) :
  chat_valid c = true →
  content ≠ "" →
  ∃ msg c' w',
    addMessage c s content attachments githubLink w = (Resolved (msg, c'), w')
    ∧ c_messages c' = c_messages c ++ [msg]
    ∧ m_sender msg = s ∧ m_content msg = content ∧ m_attachments msg = attachments
    ∧ read_by s msg = Some true
    ∧ m_readBy msg = [ {| rr_user := ref_id s; rr_readAt := clock w (ticks w) |} ]
    ∧ m_createdAt msg = clock w (S (ticks w))
    ∧ c_lastMessage c'
      = Some {| lm_content := m_content msg; lm_sender := m_sender msg;
                lm_createdAt := clock w (S (S (ticks w)));
                lm_hasAttachments := Some (0 <? Z.of_nat (length attachments));
                lm_githubLink := or_null githubLink |}
    ∧ c_id c' = c_id c ∧ c_type c' = c_type c ∧ c_participants c' = c_participants c.
Proof.
  intros Hvalid Hcontent.
  unfold addMessage, mbind, M_bind, new_ObjectId, Date_now, mret, M_ret.
  cbn [clock ticks next_oid].
  unfold save.
  match goal with |- context [chat_valid ?x] => set (c2 := x) end.
  assert (Hv2 : chat_valid c2 = true).
  { unfold chat_valid in *. subst c2. cbn [c_messages c_type c_project set_lastMessage set_messages].
    rewrite forallb_app_single.
    apply andb_prop in Hvalid as [Hm Ht]. rewrite Hm, Ht.
    unfold message_valid. cbn [m_content]. by rewrite bool_decide_eq_true_2. }
  rewrite Hv2.
  eexists _, _, _. split; [reflexivity|].
  subst c2. cbn [c_messages c_lastMessage c_id c_type c_participants set_lastMessage set_messages].
  rewrite last_snoc. cbn [m_sender m_content m_attachments m_readBy m_createdAt].
  repeat split.
  unfold read_by. cbn. by rewrite bool_decide_eq_true_2.
Qed.

Lemma addMessage_appends_and_caches_witness :
  ∃ msg c' w',
    addMessage empty_direct 1%N "hello" [a_file] None example_world = (Resolved (msg, c'), w')
    ∧ c_messages c' = c_messages empty_direct ++ [msg]
    ∧ m_sender msg = 1%N ∧ m_content msg = "hello" ∧ m_attachments msg = [a_file]
    ∧ read_by 1%N msg = Some true
    ∧ m_readBy msg = [ {| rr_user := ref_id 1%N; rr_readAt := 0 |} ]
    ∧ m_createdAt msg = 1
    ∧ c_lastMessage c'
      = Some {| lm_content := m_content msg; lm_sender := m_sender msg;
                lm_createdAt := 2;
                lm_hasAttachments := Some true;
                lm_githubLink := None |}
    ∧ c_id c' = 50%N ∧ c_type c' = direct ∧ c_participants c' = [1%N; 2%N].
Proof.
  apply (addMessage_appends_and_caches empty_direct 1%N "hello" [a_file] None example_world).
  - reflexivity.
  - discriminate.
Defined.

(** C2 as stated fails twice.  The message's [createdAt] and
    [lastMessage.createdAt] are separate clock readings: on a clock that
    advances they differ (1 and 2 below).  And an empty content is
    refused by the schema even with an attachment: the call rejects and
    returns no message. *)
Lemma addMessage_lastMessage_time_differs :
  (∃ msg c' w',
     addMessage empty_direct 1%N "hello" [] None example_world = (Resolved (msg, c'), w')
     ∧ lm_createdAt <$> c_lastMessage c' = Some 2
     ∧ m_createdAt msg = 1)
  ∧ (addMessage empty_direct 1%N "" [a_file] None example_world).1
    = Rejected "ValidationError".
Proof.
  split; [|vm_compute; reflexivity].
  eexists _, _, _. split; [vm_compute; reflexivity|]. split; reflexivity.
Qed.

(** *** [markAsRead] *)

Lemma some_read_app (u : ObjectId) (rs rs' : list ReadReceipt) :
  some_read u rs = Some false → some_read u (rs ++ rs') = some_read u rs'.
Proof.
  induction rs as [|r rs IH]; simpl; [done|].
  destruct (rr_user r) as [id|id|id]; [|done|done].
  by case_bool_decide.
Qed.

Lemma push_receipts_each (u : ObjectId) (msgs : list Message) (w : World) :
  Forall2 (receipt_added u) msgs (push_receipts u msgs w).1.
Proof.
  revert w. induction msgs as [|m msgs IH]; intros w; simpl; [constructor|].
  destruct (read_by u m) as [[|]|] eqn:E.
  - unfold mbind, M_bind, mret, M_ret.
    specialize (IH w). destruct (push_receipts u msgs w) as [rest w1]. simpl in *.
    constructor; [|done]. unfold receipt_added. by rewrite E.
  - unfold mbind, M_bind, mret, M_ret, Date_now.
    match goal with |- context [push_receipts u msgs ?w1] => specialize (IH w1);
      destruct (push_receipts u msgs w1) as [rest w2] end.
    simpl in *. constructor; [|done]. unfold receipt_added, receipt_pushed. rewrite E. eauto.
  - unfold mbind, M_bind, mret, M_ret.
    specialize (IH w). destruct (push_receipts u msgs w) as [rest w1]. simpl in *.
    constructor; [|done]. unfold receipt_added. by rewrite E.
Qed.

Lemma receipt_pushed_read (u : ObjectId) (m m' : Message) :
  read_by u m = Some false → receipt_pushed u m m' → read_by u m' = Some true.
Proof.
  intros E [t ->]. unfold read_by in *. cbn [m_readBy set_readBy].
  rewrite (some_read_app _ _ _ E). simpl. by rewrite bool_decide_eq_true_2.
Qed.

Lemma receipt_added_read (u : ObjectId) (m m' : Message) :
  read_by u m ≠ None → receipt_added u m m' →
  read_by u m' = Some true ∧ m_content m' = m_content m.
Proof.
  unfold receipt_added. destruct (read_by u m) as [[|]|] eqn:E; [| |done]; intros _.
  - by intros ->.
  - intros H. split; [by eapply receipt_pushed_read|]. by destruct H as [t ->].
Qed.

Lemma filter_unread_Some (u : ObjectId) (msgs unread : list Message) :
  filter_unread u msgs = Some unread → Forall (λ m, read_by u m ≠ None) msgs.
Proof.
  revert unread. induction msgs as [|m msgs IH]; intros unread; simpl; [by constructor|].
  destruct (read_by u m) as [b|] eqn:E; [|done].
  destruct (filter_unread u msgs) as [rest|]; [|done].
  intros _. constructor; [by rewrite E|by eapply IH].
Qed.

Lemma push_receipts_fixed (u : ObjectId) (msgs : list Message) (w : World) :
  Forall (λ m, read_by u m = Some true) msgs → push_receipts u msgs w = (msgs, w).
Proof.
  induction 1 as [|m msgs Hm _ IH]; simpl; [done|].
  rewrite Hm. unfold mbind, M_bind, mret, M_ret. by rewrite IH.
Qed.

Lemma filter_unread_nil (u : ObjectId) (msgs : list Message) :
  Forall (λ m, read_by u m = Some true) msgs → filter_unread u msgs = Some [].
Proof.
  induction 1 as [|m msgs Hm _ IH]; simpl; [done|]. by rewrite Hm, IH.
Qed.

Lemma filter_unread_all_read (u : ObjectId) (msgs : list Message) :
  filter_unread u msgs = Some [] → Forall (λ m, read_by u m = Some true) msgs.
Proof.
  induction msgs as [|m msgs IH]; simpl; [by constructor|].
  destruct (read_by u m) as [[|]|] eqn:E; [| |done];
    destruct (filter_unread u msgs) as [rest|] eqn:F; try done.
  intros [= ->]. constructor; [done|by apply IH].
Qed.

Lemma filter_unread_all_unread (u : ObjectId) (msgs : list Message) :
  Forall (λ m, read_by u m = Some false) msgs → filter_unread u msgs = Some msgs.
Proof.
  induction 1 as [|m msgs Hm _ IH]; simpl; [done|]. by rewrite Hm, IH.
Qed.

Lemma set_messages_same (c : Chat) : set_messages c (c_messages c) = c.
Proof. by destruct c. Qed.

(** What [markAsRead] does on a valid document in memory whose receipts
    hold no [null]: it resolves with the number of messages the filter
    kept, each of which gets a receipt appended, and a second call on the
    same document in memory changes nothing and returns 0. *)
Lemma markAsRead_result (c : Chat) (u : ObjectId) (unread : list Message) (w : World) :
  chat_valid c = true →
  filter_unread u (c_messages c) = Some unread →
  ∃ msgs w',
    markAsRead c u w = (Resolved (length unread, set_messages c msgs), w')
    ∧ Forall2 (receipt_added u) (c_messages c) msgs
    ∧ Forall (λ m, read_by u m = Some true) msgs
    ∧ chat_valid (set_messages c msgs) = true
    ∧ (length unread = 0%nat → msgs = c_messages c ∧ w' = w)
    ∧ ∀ w2, markAsRead (set_messages c msgs) u w2
            = (Resolved (0%nat, set_messages c msgs), w2).
Proof.
  intros Hvalid Hfilter.
  pose proof (push_receipts_each u (c_messages c) w) as Heach.
  pose proof (filter_unread_Some _ _ _ Hfilter) as Hsome.
  unfold markAsRead at 1. rewrite Hfilter. unfold mbind, M_bind, mret, M_ret.
  destruct (push_receipts u (c_messages c) w) as [msgs w1] eqn:Hpush. simpl in Heach.
  assert (Hread : Forall (λ m, read_by u m = Some true) msgs).
  { clear Hpush Hfilter. induction Heach as [|m m' l l' Hm _ IH]; [constructor|].
    apply Forall_cons in Hsome as [Hm0 Hl]. constructor; [|by apply IH].
    by apply (receipt_added_read u m m' Hm0) in Hm as [? _]. }
  assert (Hv : chat_valid (set_messages c msgs) = true).
  { unfold chat_valid in *. cbn [c_messages c_type c_project set_messages].
    apply andb_prop in Hvalid as [Hm ->]. rewrite andb_true_r.
    rewrite forallb_forall in Hm. apply forallb_forall.
    clear Hpush Hread Hfilter. induction Heach as [|m m' l l' Hmm _ IH]; [done|].
    apply Forall_cons in Hsome as [Hm0 Hl].
    intros x [<-|Hx].
    - apply (receipt_added_read u m m' Hm0) in Hmm as [_ Hc]. unfold message_valid.
      rewrite Hc. apply Hm. by left.
    - apply IH; [| |done]; [|done]. intros y Hy. apply Hm. by right. }
  exists msgs, w1.
  split.
  { destruct (0 <? length _)%nat eqn:E.
    - unfold save. by rewrite Hv.
    - reflexivity. }
  split; [done|]. split; [done|]. split; [done|]. split.
  - intros Hn. apply length_zero_iff_nil in Hn. subst unread.
    apply filter_unread_all_read in Hfilter.
    rewrite (push_receipts_fixed u _ w Hfilter) in Hpush. by injection Hpush as <- <-.
  - intros w2. unfold markAsRead. cbn [c_messages set_messages].
    rewrite (filter_unread_nil u msgs Hread). unfold mbind, M_bind, mret, M_ret.
    rewrite (push_receipts_fixed u msgs w2 Hread). simpl. by destruct c.
Qed.

(** The same method called directly on the stored chat of the examples
    does what it is meant to: user 2 is marked once, and a second call
    returns 0. *)
Example markAsRead_unpopulated_once :
  ∃ c' w',
    markAsRead chat_with_hello 2%N example_world = (Resolved (1%nat, c'), w')
    ∧ readers <$> c_messages c' = [[1%N; 2%N]]
    ∧ ∀ w2, markAsRead c' 2%N w2 = (Resolved (0%nat, c'), w2).
Proof.
  destruct (markAsRead_result chat_with_hello 2%N (c_messages chat_with_hello)
              example_world eq_refl eq_refl)
    as (msgs & w' & Hrun & _ & _ & _ & _ & Hagain).
  eexists _, _. split; [exact Hrun|]. split; [|exact Hagain].
  vm_compute in Hrun. injection Hrun as Hm _. by rewrite <- Hm.
Qed.

(** *** [markAsRead] behind [populate] *)

Lemma populate_stored (users : list ObjectId) (m : Message) :
  Forall (λ read, ∃ id, rr_user read = ref_id id ∧ id ∈ users) (m_readBy m) →
  Forall (λ read, ∃ id, rr_user read = ref_doc id)
         (m_readBy (map_receipts (populate_ref users) m))
  ∧ map_receipts (λ r, ref_id (ref_target r)) (map_receipts (populate_ref users) m) = m.
Proof.
  destruct m as [i s c g a rs t]. unfold map_receipts. cbn [m_readBy set_readBy].
  intros H. split.
  - induction H as [|r rs (id & Hr & Hin) _ IH]; simpl; [constructor|].
    constructor; [|done]. cbn. rewrite Hr. cbn. rewrite bool_decide_eq_true_2 by done.
    by exists id.
  - unfold set_readBy. cbn. f_equal.
    induction H as [|r rs (id & Hr & Hin) _ IH]; simpl; [done|].
    rewrite IH. f_equal. destruct r as [ru rt]. cbn in *. subst ru. cbn.
    by rewrite bool_decide_eq_true_2.
Qed.

Lemma some_read_docs (u : ObjectId) (rs : list ReadReceipt) :
  Forall (λ read, ∃ id, rr_user read = ref_doc id) rs → some_read u rs = Some false.
Proof.
  induction 1 as [|r rs [id Hr] _ IH]; simpl; [done|]. by rewrite Hr.
Qed.

Lemma depopulate_pushed (users : list ObjectId) (u : ObjectId) (m m' : Message) :
  Forall (λ read, ∃ id, rr_user read = ref_id id ∧ id ∈ users) (m_readBy m) →
  receipt_pushed u (map_receipts (populate_ref users) m) m' →
  receipt_pushed u m (map_receipts (λ r, ref_id (ref_target r)) m').
Proof.
  intros Hst [t ->]. exists t.
  destruct (populate_stored users m Hst) as [_ Hback].
  apply (f_equal m_readBy) in Hback.
  unfold map_receipts in *. cbn [m_readBy set_readBy] in *. unfold set_readBy.
  cbn [m_id m_sender m_content m_githubLink m_attachments m_readBy m_createdAt].
  rewrite map_app, Hback. reflexivity.
Qed.

(** On a chat fetched with its receipts populated, no receipt prints as
    an id, so [markAsRead] takes every message for unread: it resolves
    with the number of all messages and appends a receipt to each, also to
    those the user had read. *)
Lemma markAsRead_populated
    (c : Chat) (users : list ObjectId) (u : ObjectId) (w : World) :
  chat_valid c = true →
  stored_receipts users (c_messages c) →
  ∃ c' w',
    markAsRead (populate_readBy users c) u w = (Resolved (length (c_messages c), c'), w')
    ∧ Forall2 (receipt_pushed u) (c_messages (populate_readBy users c)) (c_messages c')
    ∧ Forall2 (receipt_pushed u) (c_messages c) (c_messages (depopulate c'))
    ∧ c_id (depopulate c') = c_id c ∧ c_type (depopulate c') = c_type c
    ∧ c_participants (depopulate c') = c_participants c
    ∧ c_project (depopulate c') = c_project c
    ∧ c_lastMessage (depopulate c') = c_lastMessage c
    ∧ chat_valid (depopulate c') = true
    ∧ (c_messages c = [] → depopulate c' = c ∧ w' = w).
Proof.
  intros Hvalid Hstored.
  set (pc := populate_readBy users c).
  assert (Hunread : Forall (λ m, read_by u m = Some false) (c_messages pc)).
  { subst pc. cbn [c_messages populate_readBy set_messages].
    apply Forall_fmap. eapply Forall_impl; [exact Hstored|].
    intros m Hm. cbn. unfold read_by. apply some_read_docs.
    by apply (populate_stored users m). }
  assert (Hvp : chat_valid pc = true).
  { unfold chat_valid in *. subst pc. cbn [c_messages c_type c_project populate_readBy set_messages].
    apply andb_prop in Hvalid as [Hm ->]. rewrite andb_true_r.
    rewrite forallb_forall in *. intros x Hx. apply in_map_iff in Hx as (y & <- & Hy).
    by apply (Hm y). }
  destruct (markAsRead_result pc u (c_messages pc) w Hvp
              (filter_unread_all_unread _ _ Hunread))
    as (msgs & w' & Hrun & Hadded & _ & Hv & Hzero & _).
  assert (Hpushed : Forall2 (receipt_pushed u) (c_messages pc) msgs).
  { clear Hrun Hv Hzero. induction Hadded as [|m m' l l' Hm _ IH]; [constructor|].
    apply Forall_cons in Hunread as [Hu Hl]. constructor; [|by apply IH].
    unfold receipt_added in Hm. by rewrite Hu in Hm. }
  exists (set_messages pc msgs), w'.
  split.
  { rewrite Hrun. subst pc. cbn [c_messages populate_readBy set_messages].
    by rewrite length_map. }
  split; [done|].
  split.
  { cbn [c_messages depopulate set_messages]. subst pc.
    cbn [c_messages populate_readBy set_messages] in Hpushed.
    clear -Hpushed Hstored. revert msgs Hpushed.
    induction Hstored as [|m l Hm _ IH]; intros msgs Hp; inversion Hp; subst; simpl.
    - constructor.
    - constructor; [by eapply depopulate_pushed|by apply IH]. }
  do 5 (split; [done|]).
  split.
  { unfold chat_valid in *. cbn [c_messages c_type c_project depopulate set_messages] in *.
    clear Hvalid Hvp.
    apply andb_prop in Hv as [Hm Ht]. rewrite Ht, andb_true_r.
    rewrite forallb_forall in *. intros x Hx. apply in_map_iff in Hx as (y & <- & Hy).
    by apply (Hm y). }
  intros Hnil. subst pc. unfold populate_readBy in *. rewrite Hnil in *.
  cbn [c_messages set_messages map] in *.
  destruct (Hzero eq_refl) as [-> ->]. split; [|done].
  unfold depopulate. cbn. destruct c; cbn in *. by subst.
Qed.

Lemma receipt_pushed_stored (users : list ObjectId) (u : ObjectId)
    (msgs msgs' : list Message) :
  u ∈ users → stored_receipts users msgs →
  Forall2 (receipt_pushed u) msgs msgs' → stored_receipts users msgs'.
Proof.
  intros Hu Hst Hp. unfold stored_receipts in *.
  induction Hp as [|m m' l l' [t ->] _ IH]; [constructor|].
  apply Forall_cons in Hst as [Hm Hl]. constructor; [|by apply IH].
  cbn [m_readBy set_readBy]. apply Forall_app. split; [done|].
  constructor; [|constructor]. by exists u.
Qed.

Lemma receipt_pushed_readers (u : ObjectId) (m m' : Message) :
  receipt_pushed u m m' →
  readers m' = readers m ++ [u]
  ∧ m_id m' = m_id m ∧ m_sender m' = m_sender m ∧ m_content m' = m_content m
  ∧ m_attachments m' = m_attachments m ∧ m_createdAt m' = m_createdAt m.
Proof.
  intros [t ->]. unfold readers. cbn [m_readBy set_readBy]. by rewrite map_app.
Qed.

Lemma receipt_pushed_twice (u : ObjectId) (l l1 l2 : list Message) :
  Forall2 (receipt_pushed u) l l1 → Forall2 (receipt_pushed u) l1 l2 →
  Forall2 (λ m m2, readers m2 = readers m ++ [u; u]
                   ∧ m_id m2 = m_id m ∧ m_content m2 = m_content m) l l2.
Proof.
  intros Hp1. revert l2.
  induction Hp1 as [|m m1 l l1 Hm _ IH]; intros l2 Hp2;
    inversion Hp2 as [|m1' m2 l1' l2' Hm2 Hl2]; subst; constructor; [|by apply IH].
  apply receipt_pushed_readers in Hm as (Hr1 & Hi1 & _ & Hc1 & _).
  apply receipt_pushed_readers in Hm2 as (Hr2 & Hi2 & _ & Hc2 & _).
  rewrite Hr2, Hr1, <- app_assoc. split; [done|]. split; congruence.
Qed.

(** C5.  [markAsRead] is only ever called by [getChatMessages], on a chat
    fetched with [populate('messages.readBy.user')].  There its test for
    an existing receipt never succeeds: on a valid stored chat whose
    receipts name existing users, each call, after the fetch, resolves with
    the number of all messages and stores one more receipt of the user on
    every message.  Two calls in succession leave every message with two
    further receipts of the user, and the second returns the number of
    messages, not 0. *)
Theorem markAsRead_after_populate_marks_again
    (c : Chat) (users : list ObjectId) (u : ObjectId) (w : World) :
  chat_valid c = true →
  stored_receipts users (c_messages c) →
  u ∈ users →
  ∃ c1 w1 c2 w2,
    markAsRead (populate_readBy users c) u w = (Resolved (length (c_messages c), c1), w1)
    ∧ markAsRead (populate_readBy users (depopulate c1)) u w1
      = (Resolved (length (c_messages c), c2), w2)
    ∧ Forall2 (λ m m2, readers m2 = readers m ++ [u; u]
                       ∧ m_id m2 = m_id m ∧ m_content m2 = m_content m)
              (c_messages c) (c_messages (depopulate c2)).
Proof.
  intros Hvalid Hstored Hu.
  destruct (markAsRead_populated c users u w Hvalid Hstored)
    as (c1 & w1 & Hrun1 & _ & Hp1 & _ & _ & _ & _ & _ & Hv1 & _).
  pose proof (receipt_pushed_stored users u _ _ Hu Hstored Hp1) as Hstored1.
  destruct (markAsRead_populated (depopulate c1) users u w1 Hv1 Hstored1)
    as (c2 & w2 & Hrun2 & _ & Hp2 & _).
  exists c1, w1, c2, w2.
  split; [exact Hrun1|].
  split.
  { rewrite Hrun2. by rewrite <- (Forall2_length _ _ _ Hp1). }
  exact (receipt_pushed_twice u _ _ _ Hp1 Hp2).
Qed.

Lemma markAsRead_after_populate_marks_again_witness :
  ∃ c1 w1 c2 w2,
    markAsRead (populate_readBy [1%N; 2%N] chat_with_hello) 2%N example_world
      = (Resolved (1%nat, c1), w1)
    ∧ markAsRead (populate_readBy [1%N; 2%N] (depopulate c1)) 2%N w1
      = (Resolved (1%nat, c2), w2)
    ∧ Forall2 (λ m m2, readers m2 = readers m ++ [2%N; 2%N]
                       ∧ m_id m2 = m_id m ∧ m_content m2 = m_content m)
              (c_messages chat_with_hello) (c_messages (depopulate c2)).
Proof.
  apply (markAsRead_after_populate_marks_again chat_with_hello [1%N; 2%N] 2%N example_world).
  - reflexivity.
  - repeat constructor. exists 1%N. split; [reflexivity|]. apply list_elem_of_here.
  - apply list_elem_of_further, list_elem_of_here.
Defined.

End ChatDocumentTheorems.

(** ** C4: participants of a chat *)

Section ParticipantTheorems.
Import Js ChatModel ChatController ChatExamples Examples.

Lemma chat_valid_set_participants (c : Chat) (ps : list ObjectId) :
  chat_valid (set_participants c ps) = chat_valid c.
Proof. reflexivity. Qed.

Lemma direct_query_size (a b : ObjectId) (c : Chat) :
  length (c_participants c) ≠ 2%nat → direct_query a b c = false.
Proof.
  intros Hlen. unfold direct_query.
  apply Nat.eqb_neq in Hlen. rewrite Hlen. by rewrite andb_false_r.
Qed.

Lemma existsb_toString_is (userId : IdParam) (ps : list ObjectId) :
  ip_id userId ∉ ps ∨ ip_lower userId = false →
  existsb (λ p, toString_is p userId) ps = false.
Proof.
  intros H. induction ps as [|p ps IH]; [done|]. simpl.
  rewrite IH.
  - rewrite orb_false_r. unfold toString_is. destruct H as [H| ->].
    + rewrite bool_decide_eq_false_2; [done|]. intros ->. apply H, list_elem_of_here.
    + by rewrite andb_false_r.
  - destruct H as [H|H]; [left|by right]. intros Hin. by apply H, list_elem_of_further.
Qed.

(** C4.  Neither handler looks at the chat's type, although both are
    written for project chats and [getOrCreateDirectChat] finds a direct
    chat by its having exactly two participants.  On a valid direct chat
    of two, adding a user who does not take part (or whose id is spelled
    otherwise than [toString] prints it) answers 200 and stores the chat,
    still direct, with a third participant; removing a participant answers
    200 and stores it with fewer than two.  Either way no direct-chat
    query matches the chat any more. *)
Theorem direct_chat_participants_mutated
    (chatId : ObjectId) (userId : IdParam) (coll : list Chat) (chat : Chat) :
  findById chatId coll = Some chat →
  chat_valid chat = true →
  c_type chat = direct →
  length (c_participants chat) = 2%nat →
  ip_id userId ∉ c_participants chat ∨ ip_lower userId = false →
  (∃ chat',
     addChatParticipant chatId userId coll
       = ({| status := 200; body := json_chat chat' |}, persist chat' coll)
     ∧ c_id chat' = c_id chat ∧ c_type chat' = direct
     ∧ c_participants chat' = c_participants chat ++ [ip_id userId]
     ∧ ∀ a b, direct_query a b chat' = false)
  ∧ ∀ p, p ∈ c_participants chat →
      ∃ chat',
        removeChatParticipant chatId {| ip_id := p; ip_lower := true |} coll
          = ({| status := 200; body := json_chat chat' |}, persist chat' coll)
        ∧ c_id chat' = c_id chat ∧ c_type chat' = direct
        ∧ (p ∉ c_participants chat')
        ∧ (length (c_participants chat') < 2)%nat
        ∧ ∀ a b, direct_query a b chat' = false.
Proof.
  intros Hfind Hvalid Htype Hlen Hnew. split.
  - unfold addChatParticipant. rewrite Hfind, (existsb_toString_is _ _ Hnew).
    cbn zeta. unfold save. rewrite chat_valid_set_participants, Hvalid.
    eexists. split; [reflexivity|].
    cbn [c_id c_type c_participants set_participants].
    do 3 (split; [done|]).
    intros a b. apply direct_query_size. cbn [c_participants set_participants].
    rewrite length_app, Hlen. simpl. lia.
  - intros p Hp. unfold removeChatParticipant. rewrite Hfind.
    cbn zeta. unfold save. rewrite chat_valid_set_participants, Hvalid.
    eexists. split; [reflexivity|].
    cbn [c_id c_type c_participants set_participants].
    do 2 (split; [done|]).
    assert (Hnot : p ∉ List.filter (λ q, negb (toString_is q {| ip_id := p; ip_lower := true |}))
                                   (c_participants chat)).
    { intros Hin. apply list_elem_of_In, filter_In in Hin as [_ Hin].
      unfold toString_is in Hin. cbn in Hin. by rewrite bool_decide_eq_true_2 in Hin. }
    assert (Hless : (length (List.filter
                               (λ q, negb (toString_is q {| ip_id := p; ip_lower := true |}))
                               (c_participants chat)) < 2)%nat).
    { destruct (c_participants chat) as [|x [|y [|z l]]] eqn:E; try discriminate.
      unfold toString_is. cbn [ip_id ip_lower List.filter].
      apply elem_of_cons in Hp as [->|Hp].
      - rewrite (bool_decide_eq_true_2 (x = x)) by done. cbn.
        destruct (negb _); simpl; lia.
      - apply list_elem_of_singleton in Hp as ->.
        rewrite (bool_decide_eq_true_2 (y = y)) by done. cbn.
        destruct (negb _); simpl; lia. }
    split; [done|]. split; [done|].
    intros a b. apply direct_query_size. cbn [c_participants set_participants]. lia.
Qed.

Lemma direct_chat_participants_mutated_witness :
  (∃ chat',
     addChatParticipant 50%N {| ip_id := 3%N; ip_lower := true |} [empty_direct]
       = ({| status := 200; body := json_chat chat' |}, persist chat' [empty_direct])
     ∧ c_id chat' = 50%N ∧ c_type chat' = direct
     ∧ c_participants chat' = [1%N; 2%N] ++ [3%N]
     ∧ ∀ a b, direct_query a b chat' = false)
  ∧ ∀ p, p ∈ [1%N; 2%N] →
      ∃ chat',
        removeChatParticipant 50%N {| ip_id := p; ip_lower := true |} [empty_direct]
          = ({| status := 200; body := json_chat chat' |}, persist chat' [empty_direct])
        ∧ c_id chat' = 50%N ∧ c_type chat' = direct
        ∧ (p ∉ c_participants chat')
        ∧ (length (c_participants chat') < 2)%nat
        ∧ ∀ a b, direct_query a b chat' = false.
Proof.
  apply (direct_chat_participants_mutated 50%N {| ip_id := 3%N; ip_lower := true |}
           [empty_direct] empty_direct); try reflexivity.
  left. apply (bool_decide_eq_false_1 (3%N ∈ [1%N; 2%N])). reflexivity.
Defined.

(** After user 3 was added to the direct chat of users 1 and 2, a request
    for the direct chat of 1 and 2 does not find it and creates a second
    one. *)
Example direct_chat_lost_after_add :
  let coll := (addChatParticipant 50%N {| ip_id := 3%N; ip_lower := true |}
                 [empty_direct]).2 in
  ∃ chat' w',
    getOrCreateDirectChat 1%N 2%N coll example_world = ((chat', coll ++ [chat']), w')
    ∧ c_id chat' ≠ 50%N.
Proof.
  eexists _, _. split; [vm_compute; reflexivity|]. discriminate.
Qed.

(** An id spelled in upper case is not recognised as the participant it
    names: adding it stores the participant twice, and removing it removes
    nobody. *)
Example participant_in_other_spelling :
  (c_participants <$> (addChatParticipant 50%N {| ip_id := 2%N; ip_lower := false |}
                         [empty_direct]).2) = [[1%N; 2%N; 2%N]]
  ∧ (c_participants <$> (removeChatParticipant 50%N {| ip_id := 2%N; ip_lower := false |}
                           [empty_direct]).2) = [[1%N; 2%N]].
Proof. split; reflexivity. Qed.

End ParticipantTheorems.

(** ** C7 and C8: sending a message *)

Section SendTheorems.
Import Js ChatModel ProjectModel ChatExamples RouteExamples Examples.
Local Open Scope Z_scope.

(** The controller's [sendMessage] does refuse an empty or blank content
    with 400, before it reads or writes anything. *)
Lemma sendMessage_rejects_blank
    (user chatId : ObjectId) (content : option string) (coll : list Chat) (w : World) :
  content = None ∨ (∃ s, content = Some s ∧ trim s = "") →
  ChatController.sendMessage user chatId content coll w
  = ({| ChatController.status := 400;
        ChatController.body := ChatController.json_message "Message content is required" |},
     coll, w).
Proof.
  intros [->|(s & -> & Hs)]; [reflexivity|].
  unfold ChatController.sendMessage. rewrite Hs.
  rewrite (bool_decide_eq_true_2 ("" = "")) by done. by rewrite orb_true_r.
Qed.

(** C7 fails on the route that serves [POST /:chatId/messages].  For the
    request of participant 1 with an empty content and no file, whatever
    the final save of the chat does, the answer is not 400 and a message
    with empty content and no attachment has been stored. *)
Lemma post_message_stores_empty_message (push_id_and_save : Chat → ObjectId → Settled Chat) :
  let '(response, db, _) :=
    ChatRoutes.post_message push_id_and_save empty_post chat_db example_world in
  ChatRoutes.status response ≠ 400%nat
  ∧ ∃ d, ChatRoutes.db_messages db = [d]
         ∧ ChatRoutes.d_content d = "" ∧ ChatRoutes.d_attachments d = []
         ∧ ChatRoutes.d_sender d = 1%N ∧ ChatRoutes.d_chat d = 50%N.
Proof.
  unfold ChatRoutes.post_message, empty_post, chat_db. simpl.
  unfold mbind, M_bind, mret, M_ret, new_ObjectId. simpl.
  destruct (push_id_and_save empty_direct 100%N); simpl; (split; [done|]); eauto 10.
Qed.

(** C8 fails on the same route.  For the request of participant 1 in the
    project chat carrying [completionPercentage: 150], the project's stored
    [completionPercentage] becomes 150 (the update runs no validator), and
    only then is the message, whose schema bounds the snapshot by 100,
    refused with 500. *)
Lemma post_message_stores_150 (push_id_and_save : Chat → ObjectId → Settled Chat) :
  let '(response, db, _) :=
    ChatRoutes.post_message push_id_and_save progress_150_post chat_db example_world in
  ChatRoutes.status response = 500%nat
  ∧ map p_completionPercentage (ChatRoutes.db_projects db) = [150]
  ∧ ChatRoutes.db_messages db = [].
Proof. vm_compute. done. Qed.

End SendTheorems.

(** ** C9: module submission *)

Section SubmissionTheorems.
Import Js ChatModel ProjectModel ModuleRoutes Spec ChatExamples RouteExamples Examples.
Local Open Scope Z_scope.

Lemma messageContent_nonempty (title : string) (pct : Z) (link : option string) :
  messageContent title pct link ≠ "".
Proof. unfold messageContent. simpl. discriminate. Qed.

(** The sibling guard of C8: the module route answers 400 to a percentage
    outside 0..100 and touches nothing. *)
Lemma submit_module_rejects_out_of_range
    (req : Request) (db : Db) (w : World) (title cp : string) (pct : Z) :
  or_null (rq_title req) = Some title → trim title ≠ "" →
  or_null (rq_completionPercentage req) = Some cp →
  parseInt cp = Some pct →
  pct < 0 ∨ 100 < pct →
  ∃ m, submit_module req db w = ({| status := 400; body := json_message m |}, db, w).
Proof.
  intros Ht Htrim Hcp Hparse Hrange.
  unfold submit_module. rewrite Ht, (bool_decide_eq_false_2 _ Htrim), Hcp, Hparse.
  assert ((pct <? 0) || (100 <? pct) = true) as ->.
  { apply orb_true_iff. destruct Hrange; [left|right]; by apply Z.ltb_lt. }
  eauto.
Qed.

(** C9, as the code has it.  A submission with a title, a percentage
    [pct] within 0..100, an accessible valid project and a valid project
    chat answers 201.  The submission, carrying [pct], is appended to
    the project's [moduleSubmissions]; the reported aggregate is
    [Math.round] of the mean over all submissions including the new one;
    and one message is appended to the project's chat, read by the
    submitter, whose content names the title and [pct] and whose only
    attachment is of type module with [pct] as its percentage. *)
Theorem submit_module_appends_submission_and_message
    (req : Request) (db : Db) (w : World)
    (title cp : string) (pct : Z) (proj : Project) (chat : Chat) :
  or_null (rq_title req) = Some title → trim title ≠ "" →
  or_null (rq_completionPercentage req) = Some cp →
  parseInt cp = Some pct →
  0 <= pct <= 100 →
  find_accessible (rq_id req) (rq_user req) (db_projects db) = Some proj →
  project_valid proj = true →
  find_project_chat (p_id proj) (db_chats db) = Some chat →
  chat_valid chat = true →
  ∃ sub proj' msg chat' lastUpdated w',
    let all := p_moduleSubmissions proj ++ [sub] in
    let aggregate :=
      Math_round_div (foldr Z.add 0 (map ms_completionPercentage all))
                     (Z.of_nat (length all)) in
    submit_module req db w
      = ({| status := 201;
            body := json_submitted msg (p_id proj) (p_name proj)
                      {| pd_completionPercentage := aggregate;
                         pd_lastUpdated := lastUpdated |} |},
         {| db_chats := ChatController.persist chat' (db_chats db);
            db_projects := persist_project proj' (db_projects db) |}, w')
    ∧ spec_rounded_mean (map ms_completionPercentage all) aggregate
    ∧ ms_completionPercentage sub = pct ∧ ms_title sub = trim title
    ∧ ms_submittedBy sub = rq_user req
    ∧ p_id proj' = p_id proj ∧ p_moduleSubmissions proj' = all
    ∧ c_id chat' = c_id chat ∧ c_messages chat' = c_messages chat ++ [msg]
    ∧ m_sender msg = rq_user req ∧ read_by (rq_user req) msg = Some true
    ∧ m_content msg = messageContent title pct (rq_githubLink req)
    ∧ m_attachments msg
      = [ {| at_type := att_module; at_filename := None; at_path := None;
             at_mimetype := None; at_size := None; at_language := None;
             at_preview := None;
             at_moduleData := Some {| md_title := title;
                                      md_description := rq_description req;
                                      md_completionPercentage := pct;
                                      md_githubLink := or_null (rq_githubLink req) |} |} ]
    ∧ (lm_content <$> c_lastMessage chat') = Some (m_content msg).
Proof.
  intros Ht Htrim Hcp Hparse Hrange Hproj Hpvalid Hchat Hcvalid.
  unfold submit_module. rewrite Ht, (bool_decide_eq_false_2 _ Htrim), Hcp, Hparse.
  assert ((pct <? 0) || (100 <? pct) = false) as ->.
  { apply orb_false_iff. split; apply Z.ltb_ge; lia. }
  rewrite Hproj.
  unfold mbind at 1, M_bind at 1, Date_now at 1.
  match goal with |- context [project_valid ?p] => set (proj' := p) end.
  assert (Hv' : project_valid proj' = true).
  { unfold project_valid in *. subst proj'.
    cbn [p_moduleSubmissions p_completionPercentage set_moduleSubmissions].
    rewrite forallb_app. cbn [forallb].
    apply andb_prop in Hpvalid as [Hpvalid Hhi]. apply andb_prop in Hpvalid as [Hsubs Hlo].
    rewrite Hsubs, Hlo, Hhi. unfold submission_valid.
    cbn [ms_title ms_completionPercentage].
    rewrite (bool_decide_eq_true_2 _ Htrim).
    assert ((0 <=? pct) = true) as -> by (apply Z.leb_le; lia).
    assert ((pct <=? 100) = true) as -> by (apply Z.leb_le; lia).
    reflexivity. }
  rewrite Hv'. cbn [negb].
  cbn [db_chats db_projects].
  assert (Hid : p_id proj' = p_id proj) by reflexivity.
  rewrite Hid, Hchat.
  unfold mbind, M_bind, Date_now, new_ObjectId, mret, M_ret.
  cbn [clock ticks next_oid].
  match goal with |- context [save ?c] => set (chat' := c) end.
  assert (Hcv' : chat_valid chat' = true).
  { unfold chat_valid in *. subst chat'.
    cbn [c_messages c_type c_project set_lastMessage set_messages].
    rewrite forallb_app. cbn [forallb].
    apply andb_prop in Hcvalid as [-> ->].
    unfold message_valid. cbn [m_content].
    by rewrite (bool_decide_eq_true_2 _ (messageContent_nonempty _ _ _)). }
  unfold save. rewrite Hcv'.
  assert (Hne : p_moduleSubmissions proj' ≠ []).
  { subst proj'. cbn [p_moduleSubmissions set_moduleSubmissions].
    destruct (p_moduleSubmissions proj); discriminate. }
  match goal with |- context [progressData proj' ?w1] =>
    destruct (progressData_nonempty proj' w1 Hne) as (first & ->) end.
  cbn [clock ticks next_oid].
  eexists _, proj', _, chat', _, _.
  split.
  { cbn zeta. rewrite reduce_sum_foldr. reflexivity. }
  subst chat'. cbn [c_messages c_id c_lastMessage set_lastMessage set_messages].
  assert (Hlast : ∀ (l : list Message) x, List.last (l ++ [x]) x = x)
    by (intros; apply last_last).
  rewrite Hlast.
  cbn [m_sender m_content m_attachments m_readBy ms_completionPercentage ms_title
       ms_submittedBy fmap option_fmap option_map].
  split.
  { unfold spec_rounded_mean. rewrite length_map.
    apply Math_round_div_nearest. rewrite length_app. simpl. lia. }
  repeat (split; [reflexivity|]).
  split; [|repeat split].
  unfold read_by. cbn. by rewrite bool_decide_eq_true_2.
Qed.

Lemma submit_module_appends_submission_and_message_witness :
  ∃ sub proj' msg chat' lastUpdated w',
    let all := p_moduleSubmissions project_with_40 ++ [sub] in
    let aggregate :=
      Math_round_div (foldr Z.add 0 (map ms_completionPercentage all))
                     (Z.of_nat (length all)) in
    submit_module submit_80 module_db example_world
      = ({| status := 201;
            body := json_submitted msg 7%N "P"
                      {| pd_completionPercentage := aggregate;
                         pd_lastUpdated := lastUpdated |} |},
         {| db_chats := ChatController.persist chat' (db_chats module_db);
            db_projects := persist_project proj' (db_projects module_db) |}, w')
    ∧ spec_rounded_mean (map ms_completionPercentage all) aggregate
    ∧ ms_completionPercentage sub = 80 ∧ ms_title sub = "Parser"
    ∧ ms_submittedBy sub = 1%N
    ∧ p_id proj' = 7%N ∧ p_moduleSubmissions proj' = all
    ∧ c_id chat' = 51%N ∧ c_messages chat' = [msg]
    ∧ m_sender msg = 1%N ∧ read_by 1%N msg = Some true
    ∧ m_content msg = "Module Submitted: Parser (80% complete)"
    ∧ m_attachments msg
      = [ {| at_type := att_module; at_filename := None; at_path := None;
             at_mimetype := None; at_size := None; at_language := None;
             at_preview := None;
             at_moduleData := Some {| md_title := "Parser";
                                      md_description := None;
                                      md_completionPercentage := 80;
                                      md_githubLink := None |} |} ]
    ∧ (lm_content <$> c_lastMessage chat') = Some (m_content msg).
Proof.
  apply (submit_module_appends_submission_and_message submit_80 module_db example_world
           "Parser" "80" 80 project_with_40 project_chat);
    try reflexivity; try discriminate; lia.
Defined.

(** C9 as stated fails.  Project 7 has one submission of 40 percent and a
    deadline; a module of 80 percent is submitted.  The aggregate is 60,
    yet the message appended to the project's chat carries the module's own
    80 percent (in its content and in a module attachment), with neither
    the aggregate nor the deadline, and the project's stored
    [completionPercentage] is still 40. *)
Lemma submit_module_message_has_module_percentage :
  ∃ msg pd chat' proj' w',
    submit_module submit_80 module_db example_world
      = ({| status := 201; body := json_submitted msg 7%N "P" pd |},
         {| db_chats := [empty_direct; chat']; db_projects := [proj'] |}, w')
    ∧ pd_completionPercentage pd = 60
    ∧ c_messages chat' = [msg]
    ∧ m_content msg = "Module Submitted: Parser (80% complete)"
    ∧ map (λ a, md_completionPercentage <$> at_moduleData a) (m_attachments msg) = [Some 80]
    ∧ map ms_completionPercentage (p_moduleSubmissions proj') = [40; 80]
    ∧ p_deadline proj' = 1000
    ∧ p_completionPercentage proj' = 40.
Proof.
  eexists _, _, _, _, _. split; [vm_compute; reflexivity|].
  repeat split.
Qed.

End SubmissionTheorems.

(** ** C10: the socket handshake *)

Section GatewayTheorems.
Import Js Gateway.
Context {Payload : Type} (jwt_verify : string → option Payload).

Lemma on_event_keeps_identity (c : Connection Payload) (e : ClientEvent) :
  user (socket (on_event c e)) = user (socket c)
  ∧ refused (on_event c e) = refused c.
Proof.
  unfold on_event. destruct (listening c); [|done].
  destruct e; done.
Qed.

Lemma run_keeps_identity (c : Connection Payload) (events : list ClientEvent) :
  user (socket (foldl on_event c events)) = user (socket c)
  ∧ refused (foldl on_event c events) = refused c.
Proof.
  revert c. induction events as [|e events IH]; intros c; [done|].
  simpl. destruct (IH (on_event c e)) as [-> ->]. apply on_event_keeps_identity.
Qed.

Lemma run_not_listening (c : Connection Payload) (events : list ClientEvent) :
  listening c = false → foldl on_event c events = c.
Proof.
  intros Hl. induction events as [|e events IH]; [done|].
  simpl. unfold on_event at 2. by rewrite Hl.
Qed.

(** C10.  The handshake token is checked by [authenticateSocket] before
    the connection handler can run.  Without a token, or with one that
    [jwt.verify] refuses, the connection is refused with an authentication
    error and, whatever events follow, no room is ever joined or left on
    it.  Otherwise the socket carries the decoded user for the whole
    connection, so every join and leave happens on an authenticated
    socket. *)
Theorem socket_rooms_need_authentication
    (token : option string) (events : list ClientEvent) :
  let c := run Payload jwt_verify token events in
  match or_null token with
  | None =>
      refused c = Some "Authentication error: No token provided"
      ∧ room_ops c = [] ∧ rooms (socket c) = [] ∧ user (socket c) = None
  | Some t =>
      match jwt_verify t with
      | None =>
          refused c = Some "Authentication error: Invalid token"
          ∧ room_ops c = [] ∧ rooms (socket c) = [] ∧ user (socket c) = None
      | Some decoded =>
          refused c = None ∧ user (socket c) = Some decoded
      end
  end.
Proof.
  unfold run.
  destruct (or_null token) as [t|] eqn:Ht.
  - destruct (jwt_verify t) as [decoded|] eqn:Hv.
    + destruct (run_keeps_identity (connect Payload jwt_verify token) events) as [-> ->].
      unfold connect, authenticateSocket. cbn [handshake_auth_token].
      by rewrite Ht, Hv.
    + rewrite run_not_listening.
      * unfold connect, authenticateSocket. cbn [handshake_auth_token].
        by rewrite Ht, Hv.
      * unfold connect, authenticateSocket. cbn [handshake_auth_token].
        by rewrite Ht, Hv.
  - rewrite run_not_listening.
    + unfold connect, authenticateSocket. cbn [handshake_auth_token].
      by rewrite Ht.
    + unfold connect, authenticateSocket. cbn [handshake_auth_token].
      by rewrite Ht.
Qed.

(** A room operation in the trace implies the token was verified. *)
Corollary room_op_implies_verified (token : option string) (events : list ClientEvent) :
  room_ops (run Payload jwt_verify token events) ≠ [] →
  ∃ t decoded, token = Some t ∧ jwt_verify t = Some decoded
               ∧ user (socket (run Payload jwt_verify token events)) = Some decoded.
Proof.
  unfold run. intros Hops.
  destruct (listening (connect Payload jwt_verify token)) eqn:Hl.
  - destruct (run_keeps_identity (connect Payload jwt_verify token) events) as [-> _].
    revert Hl. unfold connect, authenticateSocket. cbn [handshake_auth_token].
    unfold or_null. destruct token as [s|]; [|done].
    case_bool_decide; [done|].
    destruct (jwt_verify s) as [decoded|] eqn:Hv; [|done].
    intros _. by exists s, decoded.
  - rewrite run_not_listening in Hops by done.
    revert Hops. unfold connect, authenticateSocket.
    by repeat case_match.
Qed.

End GatewayTheorems.

(** ** C6: the client's message list *)

Section ClientTheorems.
Import Js Client ClientExamples Examples.

Lemma get_insert_eq (o : JsObj) (k : string) (v : JsVal) : get (<[k := v]> o) k = v.
Proof. unfold get. by rewrite lookup_insert_eq. Qed.

Lemma get_insert_ne (o : JsObj) (k k' : string) (v : JsVal) :
  k ≠ k' → get (<[k := v]> o) k' = get o k'.
Proof. intros. unfold get. by rewrite lookup_insert_ne. Qed.

Lemma truthy_present (o : JsObj) (k : string) :
  truthy (get o k) = true → o !! k = Some (get o k).
Proof. unfold get. by destruct (o !! k). Qed.

Ltac get_simpl :=
  repeat first [rewrite get_insert_eq | rewrite get_insert_ne by done].

(** The merged entry keeps the id it was found under. *)
Lemma merged_id (message existing : JsObj) (vs vc vg : JsVal) :
  truthy (get message "_id") = true →
  get (<["githubLink" := vg]> (<["createdAt" := vc]> (<["sender" := vs]> (message ∪ existing))))
      "_id"
  = get message "_id".
Proof.
  intros Hid. get_simpl.
  unfold get at 1. by rewrite (lookup_union_Some_l _ _ _ _ (truthy_present _ _ Hid)).
Qed.

Lemma ids_insert_same (prev : list JsObj) (i : nat) (existing merged : JsObj) :
  prev !! i = Some existing → get merged "_id" = get existing "_id" →
  ids (<[i := merged]> prev) = ids prev.
Proof.
  intros Hi Hid. unfold ids. rewrite list_fmap_insert, Hid.
  apply list_insert_id. by rewrite list_lookup_fmap, Hi.
Qed.

(** One call of [handleMessageUpdate] on a list without duplicate ids. *)
Lemma handleMessageUpdate_step (message : JsObj) (prev : list JsObj) (w : World) :
  truthy (get message "_id") = true →
  NoDup (ids prev) →
  let next := (handleMessageUpdate (Some message) prev w).1 in
  NoDup (ids next)
  ∧ match list_find (λ m, get m "_id" = get message "_id") prev with
    | Some (i, existing) =>
        ∃ merged,
          next = <[i := merged]> prev
          ∧ prev !! i = Some existing
          ∧ (∀ k, k ∉ fallback_keys → merged !! k = spec_merge existing message !! k)
          ∧ get merged "sender"
            = or (get message "sender") (or (get existing "sender") JUnknownUser)
          ∧ get merged "createdAt" = or (get message "createdAt") (get existing "createdAt")
          ∧ get merged "githubLink" = or (get message "githubLink") (get existing "githubLink")
    | None =>
        ∃ entry,
          next = prev ++ [entry]
          ∧ get entry "_id" = get message "_id"
          ∧ get entry "content" = or (get message "content") (JStr "")
          ∧ get entry "sender" = or (get message "sender") JUnknownUser
          ∧ get entry "createdAt"
            = or (get message "createdAt") (JDate (clock w (ticks w)))
          ∧ get entry "attachments" = or (get message "attachments") JEmptyArray
          ∧ get entry "readBy" = or (get message "readBy") JEmptyArray
          ∧ get entry "githubLink" = get message "githubLink"
    end.
Proof.
  intros Hid Hnodup next. subst next.
  unfold handleMessageUpdate. rewrite Hid. cbn [negb].
  destruct (list_find _ prev) as [[i existing]|] eqn:Hfind.
  - apply list_find_Some in Hfind as (Hi & Heq & _).
    unfold mret, M_ret. cbn [fst].
    split.
    + rewrite (ids_insert_same prev i existing); [done|done|].
      rewrite merged_id by done. done.
    + eexists. split; [reflexivity|]. split; [done|].
      split; [|by get_simpl].
      intros k Hk. unfold fallback_keys in Hk.
      rewrite !lookup_insert_ne; [done| | |].
      all: intros <-; apply Hk; set_solver.
  - apply list_find_None in Hfind.
    assert (Hfresh : get message "_id" ∉ ids prev).
    { unfold ids. intros (m & Hm & Hin)%list_elem_of_fmap.
      rewrite Forall_forall in Hfind. by apply (Hfind m). }
    unfold mbind, M_bind, mret, M_ret.
    assert (Hentry : ∀ createdAt,
      NoDup (ids (prev ++ [
        <["_id" := get message "_id"]>
        (<["content" := or (get message "content") (JStr "")]>
        (<["sender" := or (get message "sender") JUnknownUser]>
        (<["createdAt" := createdAt]>
        (<["attachments" := or (get message "attachments") JEmptyArray]>
        (<["readBy" := or (get message "readBy") JEmptyArray]>
        (<["githubLink" := get message "githubLink"]> (∅ : JsObj)))))))]))).
    { intros. unfold ids. rewrite fmap_app. cbn [fmap list_fmap].
      rewrite get_insert_eq. apply NoDup_app. split; [done|].
      split; [|apply NoDup_singleton].
      intros x Hx ->%list_elem_of_singleton. by apply Hfresh. }
    destruct (truthy (get message "createdAt")) eqn:Hc.
    + cbn [fst]. split; [apply Hentry|].
      eexists. split; [reflexivity|].
      get_simpl. repeat split.
      unfold or. by rewrite Hc.
    + unfold Date_now. cbn [fst]. split; [apply Hentry|].
      eexists. split; [reflexivity|].
      get_simpl. repeat split.
      unfold or. by rewrite Hc.
Qed.

Lemma handleMessageUpdate_NoDup (message : option JsObj) (prev : list JsObj) (w : World) :
  NoDup (ids prev) → NoDup (ids (handleMessageUpdate message prev w).1).
Proof.
  intros Hnodup. destruct message as [message|]; [|done].
  destruct (truthy (get message "_id")) eqn:Hid.
  - by apply handleMessageUpdate_step.
  - unfold handleMessageUpdate. by rewrite Hid.
Qed.

Lemma fetchMessages_NoDup (data : list Fetched) (prev : list JsObj) :
  NoDup (map (λ f, get (fm_fields f) "_id") data) →
  NoDup (ids prev) → NoDup (ids (fetchMessages data prev)).
Proof.
  intros Hdata Hprev. unfold fetchMessages.
  destruct (forallb _ _); [|done].
  unfold ids. rewrite <- list_fmap_compose.
  erewrite list_fmap_ext; [exact Hdata|].
  intros i f _. simpl. by rewrite get_insert_eq.
Qed.

Lemma receive_NoDup (ev : Incoming) (prev : list JsObj) (w : World) :
  history_distinct ev → NoDup (ids prev) → NoDup (ids (receive ev prev w).1).
Proof.
  destruct ev as [data|message]; simpl; intros Hev Hprev.
  - by apply fetchMessages_NoDup.
  - unfold on_receive_message. destruct (sm_message message);
      by apply handleMessageUpdate_NoDup.
Qed.

Lemma receive_all_NoDup (evs : list Incoming) (prev : list JsObj) (w : World) :
  Forall history_distinct evs → NoDup (ids prev) →
  NoDup (ids (receive_all evs prev w).1).
Proof.
  intros Hevs. revert prev w.
  induction Hevs as [|ev evs Hev _ IH]; intros prev w Hprev; [done|].
  simpl. unfold mbind, M_bind.
  pose proof (receive_NoDup ev prev w Hev Hprev) as Hstep.
  destruct (receive ev prev w) as [cur w1]. by apply IH.
Qed.

(** C6, as the code has it.  After any sequence of history fetches (each
    listing an id once) and realtime events, the visible list holds every
    id at most once, and handing it one more message with an id keeps it
    so.  When the id is present, that entry is replaced in place: outside
    [sender], [createdAt] and [githubLink] the incoming message's own
    properties overwrite and the others are kept; for those three the
    incoming value is taken when truthy and the existing one kept
    otherwise, the sender defaulting to an unknown user.  When the id is
    new, an entry built from the message's [_id], [content], [sender],
    [createdAt], [attachments], [readBy] and [githubLink], with defaults
    for the falsy ones, is appended. *)
Theorem visible_list_one_entry_per_id
    (evs : list Incoming) (message : JsObj) (w : World) :
  Forall history_distinct evs →
  truthy (get message "_id") = true →
  let prev := (receive_all evs [] w).1 in
  let w1 := (receive_all evs [] w).2 in
  let next := (handleMessageUpdate (Some message) prev w1).1 in
  NoDup (ids prev) ∧ NoDup (ids next)
  ∧ match list_find (λ m, get m "_id" = get message "_id") prev with
    | Some (i, existing) =>
        ∃ merged,
          next = <[i := merged]> prev
          ∧ prev !! i = Some existing
          ∧ (∀ k, k ∉ fallback_keys → merged !! k = spec_merge existing message !! k)
          ∧ get merged "sender"
            = or (get message "sender") (or (get existing "sender") JUnknownUser)
          ∧ get merged "createdAt" = or (get message "createdAt") (get existing "createdAt")
          ∧ get merged "githubLink" = or (get message "githubLink") (get existing "githubLink")
    | None =>
        ∃ entry,
          next = prev ++ [entry]
          ∧ get entry "_id" = get message "_id"
          ∧ get entry "content" = or (get message "content") (JStr "")
          ∧ get entry "sender" = or (get message "sender") JUnknownUser
          ∧ get entry "createdAt"
            = or (get message "createdAt") (JDate (clock w1 (ticks w1)))
          ∧ get entry "attachments" = or (get message "attachments") JEmptyArray
          ∧ get entry "readBy" = or (get message "readBy") JEmptyArray
          ∧ get entry "githubLink" = get message "githubLink"
    end.
Proof.
  intros Hevs Hid prev w1 next.
  assert (Hprev : NoDup (ids prev)).
  { subst prev. apply receive_all_NoDup; [done|]. constructor. }
  split; [done|].
  exact (handleMessageUpdate_step message prev w1 Hid Hprev).
Qed.

End ClientTheorems.

Section ClientInstances.
Import Js Client ClientExamples Examples.

Lemma visible_list_one_entry_per_id_witness :
  let evs := [history [m1_fetched]; realtime m1_wrapped] in
  let prev := (receive_all evs [] example_world).1 in
  let w1 := (receive_all evs [] example_world).2 in
  let next := (handleMessageUpdate (Some m1_event) prev w1).1 in
  NoDup (ids prev) ∧ NoDup (ids next)
  ∧ match list_find (λ m, get m "_id" = get m1_event "_id") prev with
    | Some (i, existing) =>
        ∃ merged,
          next = <[i := merged]> prev
          ∧ prev !! i = Some existing
          ∧ (∀ k, k ∉ fallback_keys → merged !! k = spec_merge existing m1_event !! k)
          ∧ get merged "sender"
            = or (get m1_event "sender") (or (get existing "sender") JUnknownUser)
          ∧ get merged "createdAt" = or (get m1_event "createdAt") (get existing "createdAt")
          ∧ get merged "githubLink" = or (get m1_event "githubLink") (get existing "githubLink")
    | None =>
        ∃ entry,
          next = prev ++ [entry]
          ∧ get entry "_id" = get m1_event "_id"
          ∧ get entry "content" = or (get m1_event "content") (JStr "")
          ∧ get entry "sender" = or (get m1_event "sender") JUnknownUser
          ∧ get entry "createdAt"
            = or (get m1_event "createdAt") (JDate (clock w1 (ticks w1)))
          ∧ get entry "attachments" = or (get m1_event "attachments") JEmptyArray
          ∧ get entry "readBy" = or (get m1_event "readBy") JEmptyArray
          ∧ get entry "githubLink" = get m1_event "githubLink"
    end.
Proof.
  apply (visible_list_one_entry_per_id
           [history [m1_fetched]; realtime m1_wrapped] m1_event example_world).
  - constructor; [simpl; apply NoDup_singleton|].
    constructor; [exact I|constructor].
  - reflexivity.
Defined.

(** The spec's example: a history fetch returning m1 and a later realtime
    event for m1 leave exactly one entry for m1. *)
Example history_then_event_one_entry :
  ids (receive_all [history [m1_fetched]; realtime m1_wrapped] [] example_world).1
  = [JStr "m1"].
Proof. vm_compute. reflexivity. Qed.

(** C6 as stated fails on the field rule, in both directions.  A field
    present on the incoming message does not always overwrite: the event
    carries [githubLink: null], and the entry keeps its link.  A field
    absent from the incoming message is not always preserved: the wrapped
    event has no [attachments], and the entry's attachments are replaced by
    an empty array. *)
Lemma visible_list_merge_not_field_wise :
  (∃ entry,
     (handleMessageUpdate (Some m1_event) [m1_entry] example_world).1 = [entry]
     ∧ m1_event !! "githubLink" = Some JNull
     ∧ spec_merge m1_entry m1_event !! "githubLink" = Some JNull
     ∧ entry !! "githubLink" = Some (JStr "https://repo"))
  ∧ (∃ entry inner,
       sm_message m1_wrapped = Some inner
       ∧ (on_receive_message m1_wrapped [m1_entry] example_world).1 = [entry]
       ∧ inner !! "attachments" = None
       ∧ spec_merge m1_entry inner !! "attachments" = Some (JObject 9%N)
       ∧ entry !! "attachments" = Some JEmptyArray).
Proof.
  split.
  - eexists. split; [vm_compute; reflexivity|].
    repeat split; vm_compute; reflexivity.
  - eexists _, _. split; [reflexivity|].
    split; [vm_compute; reflexivity|].
    repeat split; vm_compute; reflexivity.
Qed.

End ClientInstances.

(** * Further properties of the code *)

(** ** White space *)

Section WhiteSpace.
Import Js ChatModel ChatController ModuleRoutes Client ClientMore.
Import Examples ChatExamples RouteExamples MoreExamples.

(** [trim] and [parseInt] take the no-break space and the other white
    space characters beyond ASCII for white space. *)
Lemma trimStart_nbsp (s : string) : trimStart (nbsp +:+ s) = trimStart s.
Proof. reflexivity. Qed.

Lemma parseInt_nbsp (s : string) : parseInt (nbsp +:+ s) = parseInt s.
Proof. reflexivity. Qed.

Example trim_beyond_ascii :
  trim (nbsp +:+ " Parser" +:+ em_space +:+ line_separator) = "Parser"
  ∧ trim nbsp = "" ∧ trim em_space = "" ∧ trim byte_order_mark = ""
  ∧ trim ("a" +:+ nbsp +:+ "b") = "a" +:+ nbsp +:+ "b"
  ∧ parseInt (nbsp +:+ "80") = Some 80%Z.
Proof. repeat split; vm_compute; reflexivity. Qed.

(** A content, a title or a token made of a no-break space counts as
    blank: the controller and the module route answer 400 and store
    nothing, and the client's storage refuses the token. *)
Example blank_beyond_ascii :
  sendMessage 1%N 50%N (Some nbsp) [chat_with_hello] example_world
    = ({| ChatController.status := 400;
          ChatController.body := ChatController.json_message "Message content is required" |},
       [chat_with_hello], example_world)
  ∧ submit_module
      {| rq_user := 1%N; rq_id := 7%N; rq_title := Some nbsp; rq_description := None;
         rq_completionPercentage := Some "80"; rq_githubLink := None; rq_files := [] |}
      module_db example_world
    = ({| status := 400; body := json_message "Module title is required" |},
       module_db, example_world)
  ∧ setToken (JStr nbsp) ∅ = (false, ∅)
  ∧ getToken {[ "token" := nbsp ]} = None.
Proof. repeat split; vm_compute; reflexivity. Qed.

End WhiteSpace.


(** ** The progress getter and [updateProgress] *)

Section ProgressGetterTheorems.
Import Js ProjectModel Spec Examples MoreSpec.
Local Open Scope Z_scope.

(** X1.  [updateProgress] and the [progressData] getter always agree on the
    percentage, and the reordering of the submissions that reading the
    getter leaves behind does not change what [updateProgress] returns. *)
Theorem updateProgress_agrees_with_progressData (p : Project) (w : World) :
  updateProgress p = pd_completionPercentage (progressData p w).1.1
  ∧ updateProgress (progressData p w).1.2 = updateProgress p.
Proof.
  split.
  - unfold updateProgress, progressData.
    destruct (p_moduleSubmissions p) as [|first rest]; reflexivity.
  - destruct (p_moduleSubmissions p) as [|first rest] eqn:E.
    + unfold progressData. rewrite E. reflexivity.
    + assert (Hne : p_moduleSubmissions p ≠ []) by (by rewrite E).
      destruct (progressData_nonempty p w Hne) as (first' & ->). cbn [fst snd].
      pose proof (sort_desc_perm ms_submittedAt (p_moduleSubmissions p)) as Hperm.
      unfold updateProgress. cbn [p_moduleSubmissions set_moduleSubmissions].
      rewrite (reduce_sum_perm _ _ _ Hperm), (Permutation_length Hperm), E.
      rewrite E in Hperm.
      destruct (sort_desc ms_submittedAt (first :: rest)) eqn:Es; [|done].
      by apply Permutation_nil_l in Hperm.
Qed.

Lemma insert_desc_sorted (x : ModuleSubmission) (l : list ModuleSubmission) :
  StronglySorted newest_first l →
  StronglySorted newest_first (insert_desc ms_submittedAt x l).
Proof.
  induction 1 as [|y l Hs IH Hy]; simpl.
  - repeat constructor.
  - destruct (Z.leb_spec (ms_submittedAt y) (ms_submittedAt x)) as [Hle|Hlt].
    + constructor; [by constructor|].
      constructor; [done|].
      eapply Forall_impl; [exact Hy|]. unfold newest_first. intros; simpl in *; lia.
    + constructor; [done|].
      rewrite insert_desc_perm. constructor; [unfold newest_first; lia|done].
Qed.

Lemma sort_desc_sorted (l : list ModuleSubmission) :
  StronglySorted newest_first (sort_desc ms_submittedAt l).
Proof.
  induction l as [|x l IH]; simpl; [constructor|]. by apply insert_desc_sorted.
Qed.

Lemma sort_desc_fixed (l : list ModuleSubmission) :
  StronglySorted newest_first l → sort_desc ms_submittedAt l = l.
Proof.
  induction 1 as [|x l Hs IH Hx]; [done|].
  simpl. rewrite IH. destruct l as [|y l']; [done|]. simpl.
  apply Forall_cons in Hx as [Hxy _]. unfold newest_first in Hxy.
  by destruct (Z.leb_spec (ms_submittedAt y) (ms_submittedAt x)); [|lia].
Qed.

(** X2.  Reading [progressData] reorders the project's submissions in
    place: afterwards the array holds the same submissions, newest first.
    Reading it again returns the same data and changes nothing more. *)
Theorem progressData_sorts_submissions_in_place (p : Project) (w w2 : World) :
  p_moduleSubmissions p ≠ [] →
  let pd := (progressData p w).1.1 in
  let p' := (progressData p w).1.2 in
  p_moduleSubmissions p' ≡ₚ p_moduleSubmissions p
  ∧ StronglySorted newest_first (p_moduleSubmissions p')
  ∧ progressData p' w2 = ((pd, p'), w2).
Proof.
  intros Hne pd p'. subst pd p'.
  destruct (progressData_nonempty p w Hne) as (first & Hpd). rewrite Hpd. cbn [fst snd].
  cbn [p_moduleSubmissions set_moduleSubmissions].
  pose proof (sort_desc_perm ms_submittedAt (p_moduleSubmissions p)) as Hperm.
  pose proof (sort_desc_sorted (p_moduleSubmissions p)) as Hsorted.
  split; [done|]. split; [done|].
  set (sorted := sort_desc ms_submittedAt (p_moduleSubmissions p)) in *.
  assert (Hne' : p_moduleSubmissions (set_moduleSubmissions p sorted) ≠ []).
  { cbn. intros E. rewrite E in Hperm. apply Permutation_nil_l in Hperm. done. }
  destruct (progressData_nonempty _ w2 Hne') as (first' & ->).
  cbn [p_moduleSubmissions set_moduleSubmissions].
  rewrite (sort_desc_fixed sorted Hsorted).
  rewrite (reduce_sum_perm _ _ _ Hperm), (Permutation_length Hperm).
  destruct sorted as [|h t] eqn:E; [by apply Permutation_nil_l in Hperm|].
  reflexivity.
Qed.

Lemma progressData_sorts_submissions_in_place_witness :
  let p := example_project [example_submission 20 10; example_submission 60 30] in
  let pd := (progressData p example_world).1.1 in
  let p' := (progressData p example_world).1.2 in
  p_moduleSubmissions p' ≡ₚ p_moduleSubmissions p
  ∧ StronglySorted newest_first (p_moduleSubmissions p')
  ∧ progressData p' example_world = ((pd, p'), example_world).
Proof.
  apply (progressData_sorts_submissions_in_place
           (example_project [example_submission 20 10; example_submission 60 30])
           example_world example_world).
  discriminate.
Defined.

End ProgressGetterTheorems.

Section AggregateBounds.
Import Js ProjectModel ModuleRoutes Spec Examples.
Local Open Scope Z_scope.

Lemma reduce_sum_bounds (subs : list ModuleSubmission) :
  Forall (λ s, 0 <= ms_completionPercentage s <= 100) subs →
  0 <= reduce_sum ms_completionPercentage subs <= 100 * Z.of_nat (length subs).
Proof.
  induction 1 as [|s subs Hs _ IH]; [by vm_compute|].
  rewrite reduce_sum_cons. cbn [length]. cbn beta in Hs. lia.
Qed.

Lemma Math_round_div_bounds (total n : Z) :
  0 < n → 0 <= total <= 100 * n → 0 <= Math_round_div total n <= 100.
Proof.
  intros Hn Ht. unfold Math_round_div. split.
  - apply Z.div_pos; lia.
  - assert ((2 * total + n) / (2 * n) < 101); [|lia].
    apply Z.div_lt_upper_bound; lia.
Qed.

(** X3.  When every submission's percentage lies within 0..100, which
    the schema enforces on each save, the aggregate computed by
    [updateProgress] and by [progressData] lies within 0..100 as well. *)
Theorem aggregate_within_bounds (p : Project) (w : World) :
  Forall (λ s, 0 <= ms_completionPercentage s <= 100) (p_moduleSubmissions p) →
  0 <= updateProgress p <= 100
  ∧ 0 <= pd_completionPercentage (progressData p w).1.1 <= 100.
Proof.
  intros Hall.
  assert (H : 0 <= updateProgress p <= 100).
  { unfold updateProgress.
    destruct (p_moduleSubmissions p) as [|s rest] eqn:E; [lia|].
    rewrite <- E in *. apply Math_round_div_bounds.
    - rewrite E. cbn [length]. lia.
    - by apply reduce_sum_bounds. }
  split; [done|].
  unfold updateProgress, progressData in *.
  destruct (p_moduleSubmissions p); done.
Qed.

Lemma aggregate_within_bounds_witness :
  let p := example_project [example_submission 100 1; example_submission 99 2] in
  0 <= updateProgress p <= 100
  ∧ 0 <= pd_completionPercentage (progressData p example_world).1.1 <= 100.
Proof.
  apply (aggregate_within_bounds
           (example_project [example_submission 100 1; example_submission 99 2])
           example_world).
  repeat constructor; simpl; lia.
Defined.

End AggregateBounds.

(** ** The chat controller *)

Section ControllerTheorems.
Import Js ChatModel ChatController ChatExamples Examples.
Local Open Scope Z_scope.

Lemma findById_id (chatId : ObjectId) (coll : list Chat) (chat : Chat) :
  findById chatId coll = Some chat → c_id chat = chatId.
Proof.
  intros H. apply find_some in H as [_ H]. by apply bool_decide_eq_true in H.
Qed.

Lemma findById_persist (chatId : ObjectId) (coll : list Chat) (chat chat' : Chat) :
  findById chatId coll = Some chat → c_id chat' = c_id chat →
  findById chatId (persist chat' coll) = Some chat'.
Proof.
  intros Hfind Hid. pose proof (findById_id _ _ _ Hfind) as Hc.
  unfold findById, persist in *.
  induction coll as [|c coll IH]; [done|]. simpl in *.
  destruct (bool_decide (c_id c = chatId)) eqn:E.
  - apply bool_decide_eq_true in E.
    rewrite (bool_decide_eq_true_2 (c_id c = c_id chat')) by congruence.
    rewrite (bool_decide_eq_true_2 (c_id chat' = chatId)) by congruence. done.
  - apply bool_decide_eq_false in E.
    rewrite (bool_decide_eq_false_2 (c_id c = c_id chat')) by congruence.
    rewrite (bool_decide_eq_false_2 (c_id c = chatId)) by done. by apply IH.
Qed.

Lemma findById_app_fresh (coll : list Chat) (chat : Chat) :
  Forall (λ c, c_id c ≠ c_id chat) coll →
  findById (c_id chat) (coll ++ [chat]) = Some chat.
Proof.
  unfold findById. induction 1 as [|c coll Hc _ IH]; simpl.
  - by rewrite bool_decide_eq_true_2.
  - by rewrite bool_decide_eq_false_2.
Qed.

End ControllerTheorems.

Section ControllerProperties.
Import Js ChatModel ChatController ChatExamples Examples.
Local Open Scope Z_scope.

(** What [addMessage] returns on a valid chat for a non-empty content. *)
Lemma addMessage_result
    (c : Chat) (s : ObjectId) (content : string) (attachments : list Attachment)
    (githubLink : option string) (w : World) :
  chat_valid c = true → content ≠ "" →
  ∃ msg c' w',
    addMessage c s content attachments githubLink w = (Resolved (msg, c'), w')
    ∧ c_messages c' = c_messages c ++ [msg]
    ∧ m_sender msg = s ∧ m_content msg = content ∧ m_attachments msg = attachments
    ∧ m_readBy msg = [ {| rr_user := ref_id s; rr_readAt := clock w (ticks w) |} ]
    ∧ chat_valid c' = true
    ∧ c_id c' = c_id c ∧ c_type c' = c_type c ∧ c_participants c' = c_participants c
    ∧ c_project c' = c_project c.
Proof.
  intros Hvalid Hcontent.
  unfold addMessage, mbind, M_bind, new_ObjectId, Date_now, mret, M_ret.
  cbn [clock ticks next_oid].
  unfold save.
  match goal with |- context [chat_valid ?x] => set (c2 := x) end.
  assert (Hv2 : chat_valid c2 = true).
  { unfold chat_valid in *. subst c2.
    cbn [c_messages c_type c_project set_lastMessage set_messages].
    rewrite forallb_app_single.
    apply andb_prop in Hvalid as [Hm Ht]. rewrite Hm, Ht.
    unfold message_valid. cbn [m_content]. by rewrite bool_decide_eq_true_2. }
  rewrite Hv2.
  eexists _, c2, _. split; [reflexivity|].
  split; [subst c2; cbn; by rewrite last_snoc|].
  subst c2. cbn [c_messages set_lastMessage set_messages]. rewrite last_snoc.
  repeat split; done.
Qed.

(** X4.  [GET /:chatId/messages] by a participant of a valid chat whose
    receipts name existing users answers 200 with the chat's messages as
    populated, and stores on every message one more receipt of the caller,
    whether or not the caller had read it.  What is stored meets the same
    conditions again, so the receipts grow with every repetition of the
    request. *)
Theorem getChatMessages_adds_receipt_every_time
    (user chatId : ObjectId) (users : list ObjectId) (coll : list Chat) (chat : Chat)
    (w : World) :
  findById chatId coll = Some chat →
  user ∈ c_participants chat →
  chat_valid chat = true →
  stored_receipts users (c_messages chat) →
  ∃ msgs chat' coll' w',
    ChatEndpoints.getChatMessages user chatId users coll w
      = ({| ChatEndpoints.status := 200;
            ChatEndpoints.body := ChatEndpoints.json_messages msgs |},
         coll', w')
    ∧ Forall2 (receipt_pushed user) (c_messages (populate_readBy users chat)) msgs
    ∧ findById chatId coll' = Some chat'
    ∧ Forall2 (receipt_pushed user) (c_messages chat) (c_messages chat')
    ∧ c_participants chat' = c_participants chat
    ∧ chat_valid chat' = true
    ∧ (user ∈ users → stored_receipts users (c_messages chat')).
Proof.
  intros Hfind Hin Hvalid Hstored.
  destruct (markAsRead_populated chat users user w Hvalid Hstored)
    as (pc & w1 & Hrun & Hbody & Hpushed & Hid & _ & Hps & _ & _ & Hv & Hnil).
  set (n := length (c_messages chat)) in *.
  set (coll' := if (0 <? n)%nat then persist (depopulate pc) coll else coll).
  assert (Hfind' : findById chatId coll' = Some (depopulate pc)).
  { subst coll'. destruct (0 <? n)%nat eqn:E.
    - by apply (findById_persist chatId coll chat (depopulate pc)).
    - apply Nat.ltb_ge in E. subst n.
      destruct (Hnil ltac:(apply length_zero_iff_nil; lia)) as [-> _]. done. }
  exists (c_messages pc), (depopulate pc), coll', w1.
  split.
  { unfold ChatEndpoints.getChatMessages. rewrite Hfind. cbn [fmap option_fmap option_map].
    cbn [c_participants populate_readBy set_messages].
    rewrite bool_decide_eq_true_2 by done. cbn [negb].
    unfold mbind, M_bind. rewrite Hrun. reflexivity. }
  do 5 (split; [done|]).
  intros Hu. by apply (receipt_pushed_stored users user (c_messages chat)).
Qed.

Lemma getChatMessages_adds_receipt_every_time_witness :
  ∃ msgs chat' coll' w',
    ChatEndpoints.getChatMessages 2%N 50%N [1%N; 2%N] [chat_with_hello] example_world
      = ({| ChatEndpoints.status := 200;
            ChatEndpoints.body := ChatEndpoints.json_messages msgs |},
         coll', w')
    ∧ Forall2 (receipt_pushed 2%N)
              (c_messages (populate_readBy [1%N; 2%N] chat_with_hello)) msgs
    ∧ findById 50%N coll' = Some chat'
    ∧ Forall2 (receipt_pushed 2%N) (c_messages chat_with_hello) (c_messages chat')
    ∧ c_participants chat' = c_participants chat_with_hello
    ∧ chat_valid chat' = true
    ∧ (2%N ∈ [1%N; 2%N] → stored_receipts [1%N; 2%N] (c_messages chat')).
Proof.
  apply (getChatMessages_adds_receipt_every_time 2%N 50%N [1%N; 2%N] [chat_with_hello]
           chat_with_hello example_world).
  - reflexivity.
  - apply list_elem_of_further, list_elem_of_here.
  - reflexivity.
  - repeat constructor. exists 1%N. split; [reflexivity|]. apply list_elem_of_here.
Defined.

(** Users 1 and 2 exist; user 2 fetches the messages of chat 50 twice.
    The message sent and read by user 1 ends up with the receipts of
    1, 2 and 2. *)
Example getChatMessages_twice :
  let coll1 := (ChatEndpoints.getChatMessages 2%N 50%N [1%N; 2%N] [chat_with_hello]
                  example_world).1.2 in
  let coll2 := (ChatEndpoints.getChatMessages 2%N 50%N [1%N; 2%N] coll1 example_world).1.2 in
  (λ c, readers <$> c_messages c) <$> coll2 = [[[1%N; 2%N; 2%N]]].
Proof. reflexivity. Qed.

Lemma some_read_missing (u : ObjectId) (users : list ObjectId) (m : Message) :
  Forall (λ read, ∃ id, rr_user read = ref_id id) (m_readBy m) →
  read_by u (map_receipts (populate_ref users) m)
  = if forallb (λ read, bool_decide (ref_target (rr_user read) ∈ users)) (m_readBy m)
    then Some false else None.
Proof.
  unfold read_by, map_receipts. cbn [m_readBy set_readBy].
  induction 1 as [|r rs [id Hr] _ IH]; simpl; [done|].
  rewrite Hr. cbn. case_bool_decide; simpl; [exact IH|done].
Qed.

Lemma filter_unread_missing (u : ObjectId) (users : list ObjectId) (msgs : list Message) :
  Forall (λ m, Forall (λ read, ∃ id, rr_user read = ref_id id) (m_readBy m)) msgs →
  Exists (λ m, Exists (λ read, ref_target (rr_user read) ∉ users) (m_readBy m)) msgs →
  filter_unread u (map (map_receipts (populate_ref users)) msgs) = None.
Proof.
  intros Hst Hex. induction Hst as [|m msgs Hm _ IH]; [by inversion Hex|].
  simpl. rewrite (some_read_missing u users m Hm).
  destruct (forallb _ (m_readBy m)) eqn:E; [|done].
  apply Exists_cons in Hex as [Hex|Hex].
  - exfalso. rewrite forallb_forall in E.
    apply Exists_exists in Hex as (r & Hr & Hout).
    apply Hout. apply list_elem_of_In in Hr. apply E in Hr.
    by apply bool_decide_eq_true in Hr.
  - by rewrite (IH Hex).
Qed.

(** X24.  When some receipt of the chat names a user that no longer
    exists, populate leaves [null] in its place and [markAsRead] throws on
    it: every later [GET /:chatId/messages] by a participant answers 500
    and neither marks nor stores anything. *)
Theorem getChatMessages_fails_on_missing_reader
    (user chatId : ObjectId) (users : list ObjectId) (coll : list Chat) (chat : Chat)
    (w : World) :
  findById chatId coll = Some chat →
  user ∈ c_participants chat →
  Forall (λ m, Forall (λ read, ∃ id, rr_user read = ref_id id) (m_readBy m))
         (c_messages chat) →
  Exists (λ m, Exists (λ read, ref_target (rr_user read) ∉ users) (m_readBy m))
         (c_messages chat) →
  ChatEndpoints.getChatMessages user chatId users coll w
    = ({| ChatEndpoints.status := 500;
          ChatEndpoints.body :=
            ChatEndpoints.json_error "Error fetching messages" "TypeError" |},
       coll, w).
Proof.
  intros Hfind Hin Hst Hex.
  unfold ChatEndpoints.getChatMessages. rewrite Hfind. cbn [fmap option_fmap option_map].
  cbn [c_participants populate_readBy set_messages].
  rewrite bool_decide_eq_true_2 by done. cbn [negb].
  unfold mbind, M_bind, markAsRead.
  change (c_messages (populate_readBy users chat))
    with (map (map_receipts (populate_ref users)) (c_messages chat)).
  by rewrite (filter_unread_missing user users _ Hst Hex).
Qed.

Lemma getChatMessages_fails_on_missing_reader_witness :
  ChatEndpoints.getChatMessages 2%N 50%N [2%N] [chat_with_hello] example_world
    = ({| ChatEndpoints.status := 500;
          ChatEndpoints.body :=
            ChatEndpoints.json_error "Error fetching messages" "TypeError" |},
       [chat_with_hello], example_world).
Proof.
  apply (getChatMessages_fails_on_missing_reader 2%N 50%N [2%N] [chat_with_hello]
           chat_with_hello example_world).
  - reflexivity.
  - apply list_elem_of_further, list_elem_of_here.
  - repeat constructor. by exists 1%N.
  - apply Exists_cons_hd, Exists_cons_hd. cbn.
    apply (bool_decide_eq_false_1 (1%N ∈ [2%N])). reflexivity.
Defined.

Lemma existsb_participant (user : ObjectId) (ps : list ObjectId) :
  existsb (λ p, bool_decide (p = user)) ps = bool_decide (user ∈ ps).
Proof.
  apply eq_true_iff_eq. rewrite existsb_exists, bool_decide_eq_true. split.
  - intros (x & Hx & Heq). apply bool_decide_eq_true in Heq as ->.
    by apply list_elem_of_In.
  - intros Hin. exists user. split; [by apply list_elem_of_In|].
    by apply bool_decide_eq_true.
Qed.

(** X5.  A user who is not a participant of a chat can neither read nor
    write it through the controller: [getChatMessages] answers 403 and
    [sendMessage] answers 400 or 403, and in both cases nothing is marked
    read, appended or stored. *)
Theorem outsider_cannot_read_or_write
    (user chatId : ObjectId) (users : list ObjectId) (content : option string)
    (coll : list Chat) (chat : Chat) (w : World) :
  findById chatId coll = Some chat →
  user ∉ c_participants chat →
  ChatEndpoints.getChatMessages user chatId users coll w
    = ({| ChatEndpoints.status := 403;
          ChatEndpoints.body :=
            ChatEndpoints.json_message "Not authorized to access this chat" |}, coll, w)
  ∧ ∃ response,
      sendMessage user chatId content coll w = (response, coll, w)
      ∧ (status response = 400%nat ∨ status response = 403%nat).
Proof.
  intros Hfind Hout. split.
  - unfold ChatEndpoints.getChatMessages. rewrite Hfind. cbn [fmap option_fmap option_map].
    cbn [c_participants populate_readBy set_messages].
    by rewrite bool_decide_eq_false_2.
  - unfold sendMessage. destruct content as [s|]; [|eauto].
    destruct (bool_decide (s = "") || bool_decide (trim s = "")); [eauto|].
    rewrite Hfind, existsb_participant.
    rewrite bool_decide_eq_false_2 by done. eauto.
Qed.

Lemma outsider_cannot_read_or_write_witness :
  ChatEndpoints.getChatMessages 9%N 50%N [1%N; 2%N] [chat_with_hello] example_world
    = ({| ChatEndpoints.status := 403;
          ChatEndpoints.body :=
            ChatEndpoints.json_message "Not authorized to access this chat" |},
       [chat_with_hello], example_world)
  ∧ ∃ response,
      sendMessage 9%N 50%N (Some "hi") [chat_with_hello] example_world
        = (response, [chat_with_hello], example_world)
      ∧ (status response = 400%nat ∨ status response = 403%nat).
Proof.
  apply (outsider_cannot_read_or_write 9%N 50%N [1%N; 2%N] (Some "hi") [chat_with_hello]
           chat_with_hello example_world).
  - reflexivity.
  - apply (bool_decide_eq_false_1 (9%N ∈ c_participants chat_with_hello)).
    reflexivity.
Defined.

End ControllerProperties.

Section ChatLifecycle.
Import Js ChatModel ChatController ChatExamples Examples.
Local Open Scope Z_scope.

(** X6.  When a project has no chat yet, [createProjectChat] answers 201
    and stores one project chat whose only participant is the caller; from
    then on the project has exactly one chat, and any further request for
    the same project, by anyone, answers 400 and stores nothing. *)
Theorem createProjectChat_only_once
    (user other projectId : ObjectId) (coll : list Chat) (w : World) :
  ModuleRoutes.find_project_chat projectId coll = None →
  ∃ chat w',
    ChatEndpoints.createProjectChat user projectId coll w
      = ({| ChatEndpoints.status := 201; ChatEndpoints.body := ChatEndpoints.json_chat chat |},
         coll ++ [chat], w')
    ∧ c_type chat = project ∧ c_project chat = Some projectId
    ∧ c_participants chat = [user] ∧ c_messages chat = []
    ∧ List.filter (λ c, bool_decide (c_type c = project)
                        && bool_decide (c_project c = Some projectId)) (coll ++ [chat])
      = [chat]
    ∧ ∀ w2, ChatEndpoints.createProjectChat other projectId (coll ++ [chat]) w2
            = ({| ChatEndpoints.status := 400;
                  ChatEndpoints.body :=
                    ChatEndpoints.json_message "Project chat already exists" |},
               coll ++ [chat], w2).
Proof.
  intros Hnone. unfold ModuleRoutes.find_project_chat, findOne in Hnone.
  set (chat := {| c_id := next_oid w; c_type := project; c_participants := [user];
                  c_project := Some projectId; c_messages := [];
                  c_lastMessage := None |}).
  assert (Hq : bool_decide (c_type chat = project)
               && bool_decide (c_project chat = Some projectId) = true).
  { cbn. by rewrite !bool_decide_eq_true_2. }
  exists chat, {| clock := clock w; ticks := ticks w; next_oid := N.succ (next_oid w) |}.
  split.
  { unfold ChatEndpoints.createProjectChat, findOne. rewrite Hnone.
    unfold mbind, M_bind, new_ObjectId, mret, M_ret. fold chat.
    unfold save, chat_valid. cbn [c_messages c_type c_project chat forallb andb].
    by rewrite bool_decide_eq_true_2 by eauto. }
  repeat (split; [done|]).
  split.
  { rewrite List.filter_app, (find_None_filter _ _ Hnone). cbn [List.filter app].
    by rewrite Hq. }
  intros w2. unfold ChatEndpoints.createProjectChat, findOne.
  by rewrite (find_app_None _ coll chat Hnone Hq).
Qed.

Lemma createProjectChat_only_once_witness :
  ∃ chat w',
    ChatEndpoints.createProjectChat 1%N 7%N [empty_direct] example_world
      = ({| ChatEndpoints.status := 201; ChatEndpoints.body := ChatEndpoints.json_chat chat |},
         [empty_direct] ++ [chat], w')
    ∧ c_type chat = project ∧ c_project chat = Some 7%N
    ∧ c_participants chat = [1%N] ∧ c_messages chat = []
    ∧ List.filter (λ c, bool_decide (c_type c = project)
                        && bool_decide (c_project c = Some 7%N)) ([empty_direct] ++ [chat])
      = [chat]
    ∧ ∀ w2, ChatEndpoints.createProjectChat 2%N 7%N ([empty_direct] ++ [chat]) w2
            = ({| ChatEndpoints.status := 400;
                  ChatEndpoints.body :=
                    ChatEndpoints.json_message "Project chat already exists" |},
               [empty_direct] ++ [chat], w2).
Proof.
  apply (createProjectChat_only_once 1%N 2%N 7%N [empty_direct] example_world).
  reflexivity.
Defined.

Lemma readers_map_receipts (f : UserRef → UserRef) (m : Message) :
  (∀ r, ref_target (f r) = ref_target r) →
  readers (map_receipts f m) = readers m
  ∧ m_id (map_receipts f m) = m_id m ∧ m_sender (map_receipts f m) = m_sender m
  ∧ m_content (map_receipts f m) = m_content m.
Proof.
  intros Hf. unfold readers, map_receipts. cbn [m_readBy set_readBy m_id m_sender m_content].
  split; [|done]. rewrite map_map. apply map_ext. intros r. cbn. apply Hf.
Qed.

Lemma ref_target_populate (users : list ObjectId) (r : UserRef) :
  ref_target (populate_ref users r) = ref_target r.
Proof. destruct r; cbn; [by case_bool_decide|done|done]. Qed.

(** X7.  End to end: [a] asks for a direct chat with an existing user [b]
    while none exists, sends a message, and [b] then fetches the messages.
    The chat is created with participants [a; b]; the fetch returns exactly
    one message, with the trimmed content and sender [a], whose receipts
    are those of [a] and of [b], and that is what the stored chat holds. *)
Theorem direct_chat_end_to_end
    (a b : ObjectId) (users : list ObjectId) (content : string)
    (coll : list Chat) (w : World) :
  a ∈ users →
  b ∈ users →
  findOne (direct_query a b) coll = None →
  Forall (λ c, c_id c ≠ next_oid w) coll →
  trim content ≠ "" →
  ∃ chat coll1 w1 msg coll2 w2 msg' coll3 w3 stored,
    ChatEndpoints.getOrCreateDirectChat a b users coll w
      = ({| ChatEndpoints.status := 200; ChatEndpoints.body := ChatEndpoints.json_chat chat |},
         coll1, w1)
    ∧ c_type chat = direct ∧ c_participants chat = [a; b] ∧ c_messages chat = []
    ∧ sendMessage a (c_id chat) (Some content) coll1 w1
      = ({| status := 201; body := json_chat_message msg |}, coll2, w2)
    ∧ ChatEndpoints.getChatMessages b (c_id chat) users coll2 w2
      = ({| ChatEndpoints.status := 200;
            ChatEndpoints.body := ChatEndpoints.json_messages [msg'] |}, coll3, w3)
    ∧ m_id msg' = m_id msg ∧ m_content msg' = trim content ∧ m_sender msg' = a
    ∧ readers msg' = [a; b]
    ∧ findById (c_id chat) coll3 = Some stored
    ∧ readers <$> c_messages stored = [[a; b]].
Proof.
  intros Ha Hb Hnone Hfresh Htrim.
  assert (Hcontent : content ≠ "") by (by intros ->).
  set (chat := {| c_id := next_oid w; c_type := direct; c_participants := [a; b];
                  c_project := None; c_messages := []; c_lastMessage := None |}).
  set (w1 := {| clock := clock w; ticks := ticks w; next_oid := N.succ (next_oid w) |}).
  assert (Hstep1 : ChatEndpoints.getOrCreateDirectChat a b users coll w
    = ({| ChatEndpoints.status := 200; ChatEndpoints.body := ChatEndpoints.json_chat chat |},
       coll ++ [chat], w1)).
  { unfold ChatEndpoints.getOrCreateDirectChat.
    rewrite bool_decide_eq_true_2 by done. cbn [negb].
    unfold getOrCreateDirectChat. rewrite Hnone. reflexivity. }
  assert (Hfind1 : findById (c_id chat) (coll ++ [chat]) = Some chat)
    by (by apply findById_app_fresh).
  destruct (addMessage_result chat a (trim content) [] None w1)
    as (msg & c' & w2 & Hadd & Hmsgs & Hsender & Hmcontent & _ & Hreadby & Hv' & Hid' & _ & Hparts' & _);
    [done|done|].
  cbn [c_messages chat app] in Hmsgs.
  assert (Hstep2 : sendMessage a (c_id chat) (Some content) (coll ++ [chat]) w1
    = ({| status := 201; body := json_chat_message msg |}, persist c' (coll ++ [chat]), w2)).
  { unfold sendMessage.
    rewrite (bool_decide_eq_false_2 (content = "")) by done.
    rewrite (bool_decide_eq_false_2 (trim content = "")) by done. cbn [orb].
    rewrite Hfind1, existsb_participant.
    rewrite bool_decide_eq_true_2 by apply list_elem_of_here. cbn [negb].
    unfold mbind, M_bind. rewrite Hadd. reflexivity. }
  assert (Hfind2 : findById (c_id chat) (persist c' (coll ++ [chat])) = Some c')
    by (by apply (findById_persist _ _ chat c')).
  assert (Hstored : stored_receipts users (c_messages c')).
  { rewrite Hmsgs. constructor; [|constructor]. rewrite Hreadby.
    constructor; [|constructor]. by exists a. }
  destruct (markAsRead_populated c' users b w2 Hv' Hstored)
    as (pc & w3 & Hrun & Hbody & Hpushed & Hidp & _).
  cbn [c_messages populate_readBy set_messages] in Hbody.
  rewrite Hmsgs in Hbody, Hpushed, Hrun. cbn [map length] in Hbody, Hrun.
  apply Forall2_cons_inv_l in Hbody as (msg' & rest & Hmm & Hrest & Hpc).
  apply Forall2_nil_inv_l in Hrest as ->.
  apply Forall2_cons_inv_l in Hpushed as (msg2 & rest & Hm2 & Hrest & Hdp).
  apply Forall2_nil_inv_l in Hrest as ->.
  apply receipt_pushed_readers in Hmm as (Hr & Hi & Hs & Hc & _).
  apply receipt_pushed_readers in Hm2 as (Hr2 & _).
  destruct (readers_map_receipts (populate_ref users) msg (ref_target_populate users))
    as (Hpr & Hpi & Hps & Hpcn).
  assert (Hreaders : readers msg = [a]) by (unfold readers; by rewrite Hreadby).
  eexists chat, _, w1, msg, _, w2, msg', _, w3, (depopulate pc).
  split; [exact Hstep1|]. do 3 (split; [done|]).
  split; [exact Hstep2|].
  split.
  { unfold ChatEndpoints.getChatMessages. rewrite Hfind2. cbn [fmap option_fmap option_map].
    cbn [c_participants populate_readBy set_messages]. rewrite Hparts'.
    rewrite bool_decide_eq_true_2
      by (apply list_elem_of_further, list_elem_of_here). cbn [negb].
    unfold mbind, M_bind. rewrite Hrun, Hpc. reflexivity. }
  split; [congruence|]. split; [congruence|]. split; [congruence|].
  split; [by rewrite Hr, Hpr, Hreaders|].
  split.
  { cbn [Nat.ltb Nat.leb]. apply (findById_persist _ _ c' (depopulate pc)); [done|].
    by rewrite Hidp. }
  rewrite Hdp. cbn. by rewrite Hr2, Hreaders.
Qed.

Lemma direct_chat_end_to_end_witness :
  ∃ chat coll1 w1 msg coll2 w2 msg' coll3 w3 stored,
    ChatEndpoints.getOrCreateDirectChat 1%N 2%N [1%N; 2%N] [] example_world
      = ({| ChatEndpoints.status := 200; ChatEndpoints.body := ChatEndpoints.json_chat chat |},
         coll1, w1)
    ∧ c_type chat = direct ∧ c_participants chat = [1%N; 2%N] ∧ c_messages chat = []
    ∧ sendMessage 1%N (c_id chat) (Some " hello ") coll1 w1
      = ({| status := 201; body := json_chat_message msg |}, coll2, w2)
    ∧ ChatEndpoints.getChatMessages 2%N (c_id chat) [1%N; 2%N] coll2 w2
      = ({| ChatEndpoints.status := 200;
            ChatEndpoints.body := ChatEndpoints.json_messages [msg'] |}, coll3, w3)
    ∧ m_id msg' = m_id msg ∧ m_content msg' = trim " hello " ∧ m_sender msg' = 1%N
    ∧ readers msg' = [1%N; 2%N]
    ∧ findById (c_id chat) coll3 = Some stored
    ∧ readers <$> c_messages stored = [[1%N; 2%N]].
Proof.
  apply (direct_chat_end_to_end 1%N 2%N [1%N; 2%N] " hello " [] example_world).
  - apply list_elem_of_here.
  - apply list_elem_of_further, list_elem_of_here.
  - reflexivity.
  - constructor.
  - discriminate.
Defined.

(** X8.  A request for a direct chat with oneself never creates a chat
    once the user has any two-participant direct chat: the [$all] filter
    with the same id twice matches such a chat, which is returned, with its
    other participant, and the collection is left as it is. *)
Theorem self_chat_request_returns_existing
    (a : ObjectId) (coll : list Chat) (c : Chat) (w : World) :
  c ∈ coll → c_type c = direct → a ∈ c_participants c →
  length (c_participants c) = 2%nat →
  ∃ c', getOrCreateDirectChat a a coll w = ((c', coll), w)
        ∧ c' ∈ coll ∧ c_type c' = direct ∧ a ∈ c_participants c'
        ∧ length (c_participants c') = 2%nat.
Proof.
  intros Hin Htype Ha Hlen.
  assert (Hq : direct_query a a c = true).
  { unfold direct_query. rewrite !andb_true_iff, !bool_decide_eq_true, Nat.eqb_eq. done. }
  unfold getOrCreateDirectChat, findOne.
  destruct (List.find (direct_query a a) coll) as [c'|] eqn:Hfind.
  - exists c'. split; [done|].
    apply find_some in Hfind as [Hin' Hq'].
    unfold direct_query in Hq'.
    rewrite !andb_true_iff, !bool_decide_eq_true, Nat.eqb_eq in Hq'.
    destruct Hq' as [[[? ?] ?] ?]. split; [by apply list_elem_of_In|done].
  - rewrite (find_none _ _ Hfind c) in Hq; [done|]. by apply list_elem_of_In.
Qed.

Lemma self_chat_request_returns_existing_witness :
  ∃ c', getOrCreateDirectChat 1%N 1%N [empty_direct] example_world
          = ((c', [empty_direct]), example_world)
        ∧ c' ∈ [empty_direct] ∧ c_type c' = direct ∧ 1%N ∈ c_participants c'
        ∧ length (c_participants c') = 2%nat.
Proof.
  apply (self_chat_request_returns_existing 1%N [empty_direct] empty_direct example_world).
  - apply list_elem_of_here.
  - reflexivity.
  - apply list_elem_of_here.
  - reflexivity.
Defined.

End ChatLifecycle.

(** ** Splitting and joining; the token middleware *)

Section SplitJoin.
Import Js JsMore MoreSpec.

Lemma split_on_cons (sep : ascii) (s : string) :
  ∃ h t, split_on sep s = h :: t.
Proof.
  destruct s as [|a r]; simpl; [eauto|].
  destruct (Ascii.eqb a sep); [eauto|].
  destruct (split_on sep r); eauto.
Qed.

Lemma join_cons_char (sep : string) (a : ascii) (h : string) (l : list string) :
  join sep (String a h :: l) = String a (join sep (h :: l)).
Proof. destruct l; reflexivity. Qed.

Lemma join_cons_empty (sep : ascii) (x : string) (l : list string) :
  join (String sep EmptyString) (EmptyString :: x :: l)
  = String sep (join (String sep EmptyString) (x :: l)).
Proof. reflexivity. Qed.

Lemma length_split_on (sep : ascii) (s : string) :
  length (split_on sep s) = S (count_char sep s).
Proof.
  induction s as [|a r IH]; simpl; [done|].
  destruct (Ascii.eqb a sep); simpl; [by rewrite IH|].
  destruct (split_on sep r); simpl in *; lia.
Qed.

(** Joining the pieces of a split gives the string back. *)
Lemma join_split_on (sep : ascii) (s : string) :
  join (String sep EmptyString) (split_on sep s) = s.
Proof.
  induction s as [|a r IH]; simpl; [done|].
  destruct (Ascii.eqb_spec a sep) as [->|Hne].
  - destruct (split_on_cons sep r) as (h & t & E). rewrite E in *.
    rewrite join_cons_empty. by rewrite IH.
  - destruct (split_on_cons sep r) as (h & t & E). rewrite E in *.
    rewrite join_cons_char. by rewrite IH.
Qed.

Lemma take_S_cons {A} (n : nat) (x : A) (l : list A) :
  take (S n) (x :: l) = x :: take n l.
Proof. reflexivity. Qed.

Lemma join_take_split_prefix (sep : ascii) (s : string) (n : nat) :
  ∃ rest, s = join (String sep EmptyString) (take (S n) (split_on sep s)) +:+ rest.
Proof.
  revert n. induction s as [|a r IH]; intros n.
  - exists EmptyString. cbn [split_on]. rewrite take_S_cons, take_nil. reflexivity.
  - cbn [split_on]. destruct (Ascii.eqb_spec a sep) as [->|Hne].
    + rewrite take_S_cons. destruct n as [|n].
      * exists (String sep r). reflexivity.
      * destruct (IH n) as [rest Hrest].
        destruct (split_on_cons sep r) as (h & t & E). rewrite E in *.
        rewrite take_S_cons in *. rewrite join_cons_empty.
        exists rest. rewrite Hrest at 1. reflexivity.
    + destruct (IH n) as [rest Hrest].
      destruct (split_on_cons sep r) as (h & t & E). rewrite E in *.
      rewrite take_S_cons in *. rewrite join_cons_char.
      exists rest. rewrite Hrest at 1. reflexivity.
Qed.

Lemma count_join_take_split (sep : ascii) (s : string) (n : nat) :
  count_char sep (join (String sep EmptyString) (take (S n) (split_on sep s))) ≤ n.
Proof.
  revert n. induction s as [|a r IH]; intros n.
  - cbn [split_on]. rewrite take_S_cons, take_nil. cbn [join count_char]. lia.
  - cbn [split_on]. destruct (Ascii.eqb_spec a sep) as [->|Hne].
    + rewrite take_S_cons. destruct n as [|n]; [rewrite take_0; cbn [join count_char]; lia|].
      specialize (IH n).
      destruct (split_on_cons sep r) as (h & t & E). rewrite E in *.
      rewrite take_S_cons in *. rewrite join_cons_empty. cbn [count_char].
      rewrite Ascii.eqb_refl. lia.
    + specialize (IH n).
      destruct (split_on_cons sep r) as (h & t & E). rewrite E in *.
      rewrite take_S_cons in *. rewrite join_cons_char. cbn [count_char].
      destruct (Ascii.eqb_spec a sep); [done|]. lia.
Qed.

Lemma split_on_no_sep (sep : ascii) (s : string) :
  count_char sep s = 0%nat → split_on sep s = [s].
Proof.
  induction s as [|a r IH]; simpl; [done|].
  destruct (Ascii.eqb a sep); [done|]. intros H. by rewrite IH.
Qed.

Lemma split_on_app_sep (sep : ascii) (a b : string) :
  count_char sep a = 0%nat →
  split_on sep (a +:+ String sep b) = a :: split_on sep b.
Proof.
  induction a as [|c a IH]; simpl.
  - intros _. by rewrite Ascii.eqb_refl.
  - destruct (Ascii.eqb c sep); [done|]. intros H. by rewrite IH.
Qed.

Lemma append_empty_r (s : string) : s +:+ "" = s.
Proof. induction s as [|a s IH]; [done|]. rewrite <- IH at 2. reflexivity. Qed.

End SplitJoin.

Section MiddlewareTheorems.
Import Js JsMore MoreSpec AuthMiddleware.
Context {Payload : Type} (jwt_verify : string → Payload + VerifyError).

(** X9.  [authenticateToken] takes the second space-separated field of the
    Authorization header as the token, whatever the first field (the scheme
    is never looked at) and whatever follows a further space: the request
    goes on exactly when that token verifies, and is answered 401 when it
    has expired and 403 when it is invalid.  A header without any space is
    answered 401 like a missing one. *)
Theorem authenticateToken_uses_second_field
    (scheme token tail header : string) :
  count_char " " scheme = 0%nat →
  count_char " " token = 0%nat →
  token ≠ "" →
  tail = "" ∨ (∃ t, tail = String " " t) →
  count_char " " header = 0%nat →
  authenticateToken Payload jwt_verify (Some (scheme +:+ " " +:+ token +:+ tail))
    = match jwt_verify token with
      | inl user => next user
      | inr TokenExpiredError => respond 401 "Token has expired"
      | inr OtherVerifyError => respond 403 "Invalid token"
      end
  ∧ authenticateToken Payload jwt_verify (Some header)
    = respond 401 "Authentication token is required"
  ∧ authenticateToken Payload jwt_verify None
    = respond 401 "Authentication token is required".
Proof.
  intros Hscheme Htoken Hne Htail Hheader.
  split; [|split; [|reflexivity]].
  - unfold authenticateToken.
    assert (Hnonempty : or_null (Some (scheme +:+ " " +:+ token +:+ tail))
                        = Some (scheme +:+ " " +:+ token +:+ tail)).
    { unfold or_null. rewrite bool_decide_eq_false_2; [done|].
      destruct scheme; discriminate. }
    rewrite Hnonempty.
    change (scheme +:+ " " +:+ token +:+ tail)
      with (scheme +:+ String " " (token +:+ tail)).
    rewrite split_on_app_sep by done.
    assert (Hsecond : ∃ l, split_on " " (token +:+ tail) = token :: l).
    { destruct Htail as [->|[t ->]].
      - exists []. rewrite append_empty_r. by apply split_on_no_sep.
      - eexists. by apply split_on_app_sep. }
    destruct Hsecond as [l ->]. cbn [lookup list_lookup].
    unfold or_null. by rewrite bool_decide_eq_false_2.
  - unfold authenticateToken. unfold or_null at 2.
    case_bool_decide; [done|].
    by rewrite split_on_no_sep.
Qed.

End MiddlewareTheorems.

Section MiddlewareWitness.
Import Js JsMore MoreSpec AuthMiddleware MoreExamples.

Lemma authenticateToken_uses_second_field_witness :
  authenticateToken nat example_verify (Some ("Basic" +:+ " " +:+ "abc" +:+ " x"))
    = match example_verify "abc" with
      | inl user => next user
      | inr TokenExpiredError => respond 401 "Token has expired"
      | inr OtherVerifyError => respond 403 "Invalid token"
      end
  ∧ authenticateToken nat example_verify (Some "Bearer")
    = respond 401 "Authentication token is required"
  ∧ authenticateToken nat example_verify None
    = respond 401 "Authentication token is required".
Proof.
  apply (authenticateToken_uses_second_field example_verify "Basic" "abc" " x" "Bearer").
  - reflexivity.
  - reflexivity.
  - discriminate.
  - right. by exists "x".
  - reflexivity.
Defined.

End MiddlewareWitness.

(** ** File upload *)

Section UploadTheorems.
Import Js JsMore MoreSpec ChatModel ChatController ChatUpload ChatExamples Examples MoreExamples.
Local Open Scope Z_scope.
Context (extname : string → string).

(** X10.  The preview of a code file is a prefix of the file's content
    holding at most five lines, and the whole content when that has at
    most five lines. *)
Theorem first_lines_is_prefix_of_at_most_five_lines (content : string) :
  (∃ rest, content = first_lines content +:+ rest)
  ∧ (count_char LF (first_lines content) ≤ 4)%nat
  ∧ ((count_char LF content ≤ 4)%nat → first_lines content = content).
Proof.
  unfold first_lines. split; [apply join_take_split_prefix|].
  split; [apply count_join_take_split|].
  intros Hfew. rewrite take_ge.
  - apply join_split_on.
  - rewrite length_split_on. lia.
Qed.

(** X11.  An upload by a participant of a valid chat, whatever the file's
    name, type and content, stores the message and then answers 400: the
    chat gets exactly one more message, sent and read by the uploader, with
    exactly one attachment, which carries the stored file name, the type
    [getFileInfo] gives and, for code only, the first lines as preview;
    the call of [populate] on that embedded message then throws, and the
    [catch] reports an upload error. *)
Theorem upload_stores_message_and_answers_400
    (user chatId : ObjectId) (file : UploadedFile) (coll : list Chat) (chat : Chat)
    (w : World) :
  findOne (λ c, bool_decide (c_id c = chatId) && bool_decide (user ∈ c_participants c)) coll
    = Some chat →
  chat_valid chat = true →
  ∃ msg chat' att w',
    upload extname user chatId (Some file) coll w
      = ({| ChatUpload.status := 400;
            ChatUpload.body := ChatUpload.json_error "Error uploading file" "MongooseError" |},
         persist chat' coll, w')
    ∧ c_messages chat' = c_messages chat ++ [msg]
    ∧ c_participants chat' = c_participants chat
    ∧ m_sender msg = user ∧ read_by user msg = Some true
    ∧ m_attachments msg = [att]
    ∧ at_type att = fi_type (getFileInfo extname file)
    ∧ at_filename att = Some (uf_filename file)
    ∧ at_preview att
      = Some match fi_type (getFileInfo extname file), uf_content file with
             | att_code, Some content => first_lines content
             | _, _ => ""
             end.
Proof.
  intros Hfind Hvalid. unfold upload. rewrite Hfind.
  match goal with |- context [addMessage chat user ?c ?a None] =>
    destruct (addMessage_result chat user c a None w)
      as (msg & c' & w' & Hadd & Hmsgs & Hsender & _ & Hatt & Hreadby & _ & _ & _ & Hparts & _);
      [done|discriminate|]
  end.
  unfold mbind, M_bind. rewrite Hadd.
  eexists msg, c', _, w'. split; [reflexivity|].
  repeat (split; [done|]).
  split.
  { unfold read_by. rewrite Hreadby. cbn. by rewrite bool_decide_eq_true_2. }
  split; [exact Hatt|]. repeat split.
Qed.

(** X12.  An upload to a chat the caller does not take part in, or to no
    chat at all, answers 404, and one without a file answers 400; in both
    cases no message is created and the collection is left as it is. *)
Theorem upload_rejects_without_change
    (user chatId : ObjectId) (file : option UploadedFile) (coll : list Chat) (w : World) :
  file = None
  ∨ Forall (λ c, c_id c ≠ chatId ∨ user ∉ c_participants c) coll →
  ∃ response,
    upload extname user chatId file coll w = (response, coll, w)
    ∧ (ChatUpload.status response = 400%nat ∨ ChatUpload.status response = 404%nat).
Proof.
  intros [->|Hnone]; [unfold upload; eauto|].
  unfold upload. destruct file as [file|]; [|eauto].
  assert (Hfind : findOne (λ c, bool_decide (c_id c = chatId)
                                && bool_decide (user ∈ c_participants c)) coll = None).
  { unfold findOne. induction Hnone as [|c coll Hc _ IH]; [done|]. simpl.
    destruct Hc as [Hc|Hc].
    - by rewrite (bool_decide_eq_false_2 _ Hc).
    - by rewrite (bool_decide_eq_false_2 _ Hc), andb_false_r. }
  rewrite Hfind. eauto.
Qed.

End UploadTheorems.

Section UploadWitnesses.
Import Js JsMore MoreSpec ChatModel ChatController ChatUpload ChatExamples Examples MoreExamples.

Lemma upload_stores_message_and_answers_400_witness :
  ∃ msg chat' att w',
    upload example_extname 2%N 50%N (Some main_js) [chat_with_hello] example_world
      = ({| ChatUpload.status := 400;
            ChatUpload.body := ChatUpload.json_error "Error uploading file" "MongooseError" |},
         persist chat' [chat_with_hello], w')
    ∧ c_messages chat' = c_messages chat_with_hello ++ [msg]
    ∧ c_participants chat' = c_participants chat_with_hello
    ∧ m_sender msg = 2%N ∧ read_by 2%N msg = Some true
    ∧ m_attachments msg = [att]
    ∧ at_type att = fi_type (getFileInfo example_extname main_js)
    ∧ at_filename att = Some (uf_filename main_js)
    ∧ at_preview att
      = Some match fi_type (getFileInfo example_extname main_js), uf_content main_js with
             | att_code, Some content => first_lines content
             | _, _ => ""
             end.
Proof.
  apply (upload_stores_message_and_answers_400 example_extname 2%N 50%N main_js
           [chat_with_hello] chat_with_hello example_world); reflexivity.
Defined.

(** The example file: an upper-case extension is still code, and the
    preview stops after the fifth line. *)
Example upload_main_js_preview :
  getFileInfo example_extname main_js
    = {| fi_type := att_code; fi_language := Some "javascript" |}
  ∧ first_lines (default "" (uf_content main_js))
    = "a" +:+ String LF ("b" +:+ String LF ("c" +:+ String LF ("d" +:+ String LF "e"))).
Proof. split; vm_compute; reflexivity. Qed.

Lemma upload_rejects_without_change_witness :
  ∃ response,
    upload example_extname 9%N 50%N (Some main_js) [chat_with_hello] example_world
      = (response, [chat_with_hello], example_world)
    ∧ (ChatUpload.status response = 400%nat ∨ ChatUpload.status response = 404%nat).
Proof.
  apply (upload_rejects_without_change example_extname 9%N 50%N (Some main_js)
           [chat_with_hello] example_world).
  right. constructor; [|constructor].
  right. apply (bool_decide_eq_false_1 (9%N ∈ c_participants chat_with_hello)).
  reflexivity.
Defined.

End UploadWitnesses.

(** ** The message route and the module route *)

Section RouteProperties.
Import Js ChatModel ProjectModel MoreSpec ChatExamples RouteExamples Examples.
Local Open Scope Z_scope.

(** X13.  [POST /:chatId/messages] to an unknown chat, or by a user who is
    not a participant of it, answers 404 or 403 and stores nothing: no
    message, no change to a chat, no change to a project. *)
Theorem post_message_outsider_no_change
    (push_id_and_save : Chat → ObjectId → Settled Chat)
    (req : ChatRoutes.Request) (db : ChatRoutes.Db) (w : World) :
  (∀ chat, ChatController.findById (ChatRoutes.rq_chatId req) (ChatRoutes.db_chats db)
           = Some chat →
           ChatRoutes.rq_user req ∉ c_participants chat) →
  ∃ response,
    ChatRoutes.post_message push_id_and_save req db w = (response, db, w)
    ∧ (ChatRoutes.status response = 403%nat ∨ ChatRoutes.status response = 404%nat).
Proof.
  intros Hout. unfold ChatRoutes.post_message.
  destruct (ChatController.findById _ _) as [chat|]; [|eauto].
  rewrite existsb_participant, (bool_decide_eq_false_2 _ (Hout chat eq_refl)). eauto.
Qed.

Lemma post_message_outsider_no_change_witness :
  ∃ response,
    ChatRoutes.post_message (λ c _, Resolved c)
      {| ChatRoutes.rq_user := 9%N; ChatRoutes.rq_chatId := 51%N;
         ChatRoutes.rq_content := Some "hi";
         ChatRoutes.rq_projectProgress := ChatRoutes.rq_projectProgress progress_150_post;
         ChatRoutes.rq_files := [] |} chat_db example_world
    = (response, chat_db, example_world)
    ∧ (ChatRoutes.status response = 403%nat ∨ ChatRoutes.status response = 404%nat).
Proof.
  apply (post_message_outsider_no_change (λ c _, Resolved c)).
  intros chat [= <-].
  apply (bool_decide_eq_false_1 (9%N ∈ c_participants project_chat)). reflexivity.
Defined.

(** X14.  Whatever the request, the message route only ever appends to
    the Message collection, at most one document, sent by the caller; the
    stored snapshots keep passing the schema's bounds; and a request in a
    direct chat, or one without [projectProgress], never changes a
    project. *)
Theorem post_message_appends_valid_message
    (push_id_and_save : Chat → ObjectId → Settled Chat)
    (req : ChatRoutes.Request) (db : ChatRoutes.Db) (w : World) :
  let db' := (ChatRoutes.post_message push_id_and_save req db w).1.2 in
  (ChatRoutes.db_messages db' = ChatRoutes.db_messages db
   ∨ ∃ d, ChatRoutes.db_messages db' = ChatRoutes.db_messages db ++ [d]
          ∧ ChatRoutes.d_sender d = ChatRoutes.rq_user req
          ∧ ChatRoutes.d_chat d = ChatRoutes.rq_chatId req
          ∧ ChatRoutes.message_doc_valid d = true)
  ∧ (ChatRoutes.rq_projectProgress req = None
     ∨ (∃ chat, ChatController.findById (ChatRoutes.rq_chatId req) (ChatRoutes.db_chats db)
                = Some chat ∧ c_type chat = direct) →
     ChatRoutes.db_projects db' = ChatRoutes.db_projects db).
Proof.
  cbn zeta. unfold ChatRoutes.post_message.
  destruct (ChatController.findById _ _) as [chat|] eqn:Hfind; [|by split; [left|]].
  destruct (negb _); [by split; [left|]|].
  unfold mbind, M_bind, mret, M_ret, new_ObjectId, Date_now.
  destruct (ChatRoutes.rq_projectProgress req) as [pp|] eqn:Hpp.
  - destruct (bool_decide (c_type chat = project)) eqn:Htype.
    + split.
      * destruct (ChatRoutes.message_doc_valid _) eqn:Hv; cbn [negb fst snd]; [|by left].
        destruct (push_id_and_save _ _); cbn [fst snd ChatRoutes.db_messages];
          right; eexists; (split; [reflexivity|]); repeat split; exact Hv.
      * intros [?|(chat' & [= <-] & Hdirect)]; [done|].
        apply bool_decide_eq_true in Htype. congruence.
    + cbn [ChatRoutes.message_doc_valid ChatRoutes.d_projectProgress negb].
      destruct (push_id_and_save _ _); cbn [fst snd ChatRoutes.db_messages ChatRoutes.db_projects];
        (split; [right; eexists; (split; [reflexivity|]); repeat split|done]).
  - cbn [ChatRoutes.message_doc_valid ChatRoutes.d_projectProgress negb].
    destruct (push_id_and_save _ _); cbn [fst snd ChatRoutes.db_messages ChatRoutes.db_projects];
      (split; [right; eexists; (split; [reflexivity|]); repeat split|done]).
Qed.

Lemma post_message_appends_valid_message_witness :
  let db' := (ChatRoutes.post_message (λ c _, Resolved c) empty_post chat_db example_world).1.2 in
  (ChatRoutes.db_messages db' = ChatRoutes.db_messages chat_db
   ∨ ∃ d, ChatRoutes.db_messages db' = ChatRoutes.db_messages chat_db ++ [d]
          ∧ ChatRoutes.d_sender d = ChatRoutes.rq_user empty_post
          ∧ ChatRoutes.d_chat d = ChatRoutes.rq_chatId empty_post
          ∧ ChatRoutes.message_doc_valid d = true)
  ∧ (ChatRoutes.rq_projectProgress empty_post = None
     ∨ (∃ chat, ChatController.findById (ChatRoutes.rq_chatId empty_post)
                  (ChatRoutes.db_chats chat_db)
                = Some chat ∧ c_type chat = direct) →
     ChatRoutes.db_projects db' = ChatRoutes.db_projects chat_db).
Proof.
  exact (post_message_appends_valid_message (λ c _, Resolved c) empty_post chat_db
           example_world).
Defined.

End RouteProperties.

Section ModuleRouteProperties.
Import Js ChatModel ProjectModel ModuleRoutes MoreSpec ChatExamples RouteExamples Examples.
Local Open Scope Z_scope.

Lemma Forall_persist_project (P : Project → Prop) (p : Project) (projects : list Project) :
  Forall P projects → P p → Forall P (persist_project p projects).
Proof.
  intros Hall Hp. unfold persist_project. apply Forall_fmap.
  eapply Forall_impl; [exact Hall|]. intros q Hq. simpl. by case_bool_decide.
Qed.

Lemma Forall_persist_chat (P : Chat → Prop) (c : Chat) (chats : list Chat) :
  Forall P chats → P c → Forall P (ChatController.persist c chats).
Proof.
  intros Hall Hc. unfold ChatController.persist. apply Forall_fmap.
  eapply Forall_impl; [exact Hall|]. intros q Hq. simpl. by case_bool_decide.
Qed.

Lemma find_project_chat_In (pid : ObjectId) (chats : list Chat) (chat : Chat) :
  find_project_chat pid chats = Some chat → chat ∈ chats.
Proof.
  intros H. apply find_some in H as [H _]. by apply list_elem_of_In.
Qed.

(** X15.  The module route keeps the stored documents well formed, for
    every request: if all projects and chats passed validation before and
    every module attachment held a percentage within 0..100, the same is
    true afterwards. *)
Theorem submit_module_keeps_documents_valid (req : Request) (db : Db) (w : World) :
  module_db_ok db → module_db_ok (submit_module req db w).1.2.
Proof.
  intros [Hprojects Hchats]. unfold submit_module.
  destruct (or_null (rq_title req)) as [title|]; [|done].
  destruct (bool_decide (trim title = "")); [done|].
  destruct (or_null (rq_completionPercentage req)) as [cp|]; [|done].
  destruct (parseInt cp) as [pct|]; [|done].
  destruct ((pct <? 0) || (100 <? pct)) eqn:Hrange; [done|].
  apply orb_false_iff in Hrange as [Hlo Hhi].
  apply Z.ltb_ge in Hlo, Hhi.
  destruct (find_accessible _ _ _) as [proj|]; [|done].
  unfold mbind at 1, M_bind at 1, Date_now at 1.
  match goal with |- context [project_valid ?p] => set (proj' := p) end.
  destruct (project_valid proj') eqn:Hv'; [|done]. cbn [negb].
  assert (Hprojects' : Forall (λ p, project_valid p = true)
                              (persist_project proj' (db_projects db)))
    by (by apply Forall_persist_project).
  cbn [db_chats db_projects].
  destruct (find_project_chat _ _) as [chat|] eqn:Hchat; [|done].
  apply find_project_chat_In in Hchat.
  rewrite Forall_forall in Hchats. destruct (Hchats chat Hchat) as [Hcv Hcm].
  unfold mbind, M_bind, Date_now, new_ObjectId, mret, M_ret.
  cbn [clock ticks next_oid].
  match goal with |- context [save ?c] => set (chat' := c) end.
  unfold save. destruct (chat_valid chat') eqn:Hcv'; [|split; [done|by apply Forall_forall]].
  destruct (progressData proj' _) as [[virtual ?] ?]. cbn [fst snd].
  split; [done|]. cbn [db_chats].
  apply Forall_persist_chat; [by apply Forall_forall|].
  split; [done|].
  subst chat'. cbn [c_messages set_lastMessage set_messages].
  apply Forall_app. split; [done|].
  constructor; [|constructor].
  unfold modules_in_range. cbn [m_attachments].
  constructor; [|constructor]. cbn. lia.
Qed.

Lemma submit_module_keeps_documents_valid_witness :
  module_db_ok (submit_module submit_80 module_db example_world).1.2.
Proof.
  apply (submit_module_keeps_documents_valid submit_80 module_db example_world).
  split.
  - repeat constructor.
  - repeat constructor.
Defined.

(** X16.  Whenever the module route answers 400, it has stored nothing:
    projects and chats are exactly as before. *)
Theorem submit_module_400_changes_nothing (req : Request) (db : Db) (w : World) :
  status (submit_module req db w).1.1 = 400%nat →
  (submit_module req db w).1.2 = db ∧ (submit_module req db w).2 = w.
Proof.
  unfold submit_module.
  destruct (or_null (rq_title req)) as [title|]; [|done].
  destruct (bool_decide (trim title = "")); [done|].
  destruct (or_null (rq_completionPercentage req)) as [cp|]; [|done].
  destruct (parseInt cp) as [pct|]; [|done].
  destruct ((pct <? 0) || (100 <? pct)); [done|].
  destruct (find_accessible _ _ _) as [proj|]; [|done].
  unfold mbind at 1, M_bind at 1, Date_now at 1.
  destruct (project_valid _); [|done]. cbn [negb db_chats db_projects].
  destruct (find_project_chat _ _) as [chat|]; [|done].
  unfold mbind, M_bind, Date_now, new_ObjectId, mret, M_ret.
  cbn [clock ticks next_oid].
  destruct (save _); [|done].
  destruct (progressData _ _) as [[virtual ?] ?]. done.
Qed.

Lemma submit_module_400_changes_nothing_witness :
  let req := {| rq_user := 1%N; rq_id := 7%N; rq_title := Some "Parser";
                rq_description := None; rq_completionPercentage := Some "101";
                rq_githubLink := None; rq_files := [] |} in
  (submit_module req module_db example_world).1.2 = module_db
  ∧ (submit_module req module_db example_world).2 = example_world.
Proof.
  apply (submit_module_400_changes_nothing
           {| rq_user := 1%N; rq_id := 7%N; rq_title := Some "Parser";
              rq_description := None; rq_completionPercentage := Some "101";
              rq_githubLink := None; rq_files := [] |} module_db example_world).
  reflexivity.
Defined.

(** X17.  When the project has no chat, a well-formed submission is
    answered 404 although it has already been stored: the project keeps
    the new submission, and no chat is touched. *)
Theorem submit_module_without_chat_stores_submission
    (req : Request) (db : Db) (w : World)
    (title cp : string) (pct : Z) (proj : Project) :
  or_null (rq_title req) = Some title → trim title ≠ "" →
  or_null (rq_completionPercentage req) = Some cp →
  parseInt cp = Some pct →
  0 <= pct <= 100 →
  find_accessible (rq_id req) (rq_user req) (db_projects db) = Some proj →
  project_valid proj = true →
  find_project_chat (p_id proj) (db_chats db) = None →
  ∃ sub proj' w',
    submit_module req db w
      = ({| status := 404; body := json_message "Chat not found for project" |},
         {| db_chats := db_chats db;
            db_projects := persist_project proj' (db_projects db) |}, w')
    ∧ p_id proj' = p_id proj
    ∧ p_moduleSubmissions proj' = p_moduleSubmissions proj ++ [sub]
    ∧ ms_completionPercentage sub = pct ∧ ms_title sub = trim title
    ∧ ms_submittedBy sub = rq_user req.
Proof.
  intros Ht Htrim Hcp Hparse Hrange Hproj Hpvalid Hchat.
  unfold submit_module. rewrite Ht, (bool_decide_eq_false_2 _ Htrim), Hcp, Hparse.
  assert ((pct <? 0) || (100 <? pct) = false) as ->.
  { apply orb_false_iff. split; apply Z.ltb_ge; lia. }
  rewrite Hproj.
  unfold mbind at 1, M_bind at 1, Date_now at 1.
  match goal with |- context [project_valid ?p] => set (proj' := p) end.
  assert (Hv' : project_valid proj' = true).
  { unfold project_valid in *. subst proj'.
    cbn [p_moduleSubmissions p_completionPercentage set_moduleSubmissions].
    rewrite forallb_app. cbn [forallb].
    apply andb_prop in Hpvalid as [Hpvalid Hhi]. apply andb_prop in Hpvalid as [Hsubs Hlo].
    rewrite Hsubs, Hlo, Hhi. unfold submission_valid.
    cbn [ms_title ms_completionPercentage].
    rewrite (bool_decide_eq_true_2 _ Htrim).
    assert ((0 <=? pct) = true) as -> by (apply Z.leb_le; lia).
    assert ((pct <=? 100) = true) as -> by (apply Z.leb_le; lia).
    reflexivity. }
  rewrite Hv'. cbn [negb db_chats db_projects].
  assert (Hid : p_id proj' = p_id proj) by reflexivity.
  rewrite Hid, Hchat.
  eexists _, proj', _. split; [reflexivity|]. repeat split.
Qed.

Lemma submit_module_without_chat_stores_submission_witness :
  ∃ sub proj' w',
    submit_module submit_80
      {| db_chats := [empty_direct]; db_projects := [project_with_40] |} example_world
      = ({| status := 404; body := json_message "Chat not found for project" |},
         {| db_chats := [empty_direct];
            db_projects := persist_project proj' [project_with_40] |}, w')
    ∧ p_id proj' = 7%N
    ∧ p_moduleSubmissions proj' = p_moduleSubmissions project_with_40 ++ [sub]
    ∧ ms_completionPercentage sub = 80 ∧ ms_title sub = "Parser"
    ∧ ms_submittedBy sub = 1%N.
Proof.
  apply (submit_module_without_chat_stores_submission submit_80
           {| db_chats := [empty_direct]; db_projects := [project_with_40] |}
           example_world "Parser" "80" 80 project_with_40);
    try reflexivity; try discriminate; lia.
Defined.

End ModuleRouteProperties.

(** ** Typing indicator, deadline colour, local storage *)

Section ClientMoreTheorems.
Import Js JsMore Client ClientMore.
Local Open Scope Z_scope.

Lemma set_add_NoDup (x : JsVal) (s : list JsVal) : NoDup s → NoDup (set_add x s).
Proof.
  intros Hs. unfold set_add. case_bool_decide; [done|].
  apply NoDup_app. split; [done|]. split; [|apply NoDup_singleton].
  intros y Hy ->%list_elem_of_singleton. done.
Qed.

Lemma on_typing_invariant (st : TypingState) (ev : TypingEvent) :
  NoDup (typingUsers st) ∧ (∀ x, x ∈ typingUsers st → x ∈ pending st) →
  NoDup (typingUsers (on_typing st ev))
  ∧ (∀ x, x ∈ typingUsers (on_typing st ev) → x ∈ pending (on_typing st ev)).
Proof.
  intros [Hnodup Hsub]. destruct ev as [me userId username|]; simpl.
  - case_bool_decide; [|done]. simpl. split; [by apply set_add_NoDup|].
    intros x. unfold set_add. case_bool_decide.
    + intros Hx. apply elem_of_app. left. by apply Hsub.
    + intros [Hx|Hx]%elem_of_app; apply elem_of_app; [left; by apply Hsub|by right].
  - destruct (pending st) as [|username rest] eqn:E; [by rewrite E|]. simpl.
    unfold set_delete. split; [by apply NoDup_filter|].
    intros x [Hne Hx]%list_elem_of_filter.
    apply Hsub in Hx. by apply elem_of_cons in Hx as [->|Hx].
Qed.

(** X18.  However ['user_typing'] events and expiring timers interleave,
    the set of typing users never holds a name twice and only holds names
    that still have a removal pending, so it is empty once every timer has
    fired.  The oldest timer removes its name even while a newer event for
    the same name is still waiting for its own timer. *)
Theorem typing_indicator_never_sticks (evs : list TypingEvent) :
  let st := foldl on_typing {| typingUsers := []; pending := [] |} evs in
  NoDup (typingUsers st)
  ∧ (∀ x, x ∈ typingUsers st → x ∈ pending st)
  ∧ (pending st = [] → typingUsers st = [])
  ∧ (∀ name rest, pending st = name :: rest →
       (name ∉ typingUsers (on_typing st timeout_fires))
       ∧ pending (on_typing st timeout_fires) = rest).
Proof.
  cbn zeta.
  assert (Hinv : ∀ st, NoDup (typingUsers st) ∧ (∀ x, x ∈ typingUsers st → x ∈ pending st) →
                       let st' := foldl on_typing st evs in
                       NoDup (typingUsers st') ∧ (∀ x, x ∈ typingUsers st' → x ∈ pending st')).
  { induction evs as [|ev evs IH]; intros st Hst; [done|].
    simpl. apply IH. by apply on_typing_invariant. }
  destruct (Hinv {| typingUsers := []; pending := [] |}) as [Hnodup Hsub].
  { split; [constructor|]. intros x Hx. by apply not_elem_of_nil in Hx. }
  set (st := foldl on_typing _ evs) in *.
  split; [done|]. split; [done|]. split.
  - intros Hp. destruct (typingUsers st) as [|x l] eqn:E; [done|].
    specialize (Hsub x (list_elem_of_here _ _)). rewrite Hp in Hsub.
    by apply not_elem_of_nil in Hsub.
  - intros name rest Hp. simpl. rewrite Hp. simpl. split; [|done].
    unfold set_delete. by intros [Hne _]%list_elem_of_filter.
Qed.

(** Two events for Ann, then the first timer: the indicator is gone
    although the second timer has not fired. *)
Example typing_indicator_expires_early :
  foldl on_typing {| typingUsers := []; pending := [] |}
        [user_typing (JStr "me") (JStr "u1") (JStr "Ann");
         user_typing (JStr "me") (JStr "u1") (JStr "Ann");
         timeout_fires]
  = {| typingUsers := []; pending := [JStr "Ann"] |}.
Proof. vm_compute. reflexivity. Qed.

Lemma Math_ceil_div_le (a d k : Z) : 0 < d → Math_ceil_div a d <= k ↔ a <= k * d.
Proof.
  intros Hd. unfold Math_ceil_div.
  pose proof (Z.div_mod (- a) d ltac:(lia)) as Hdm.
  pose proof (Z.mod_pos_bound (- a) d Hd) as Hb.
  split; intros H; nia.
Qed.

(** X19.  [getDeadlineColor] by the time left, in milliseconds: error when
    the deadline lies a full day or more in the past, warning from less
    than a day overdue up to three days ahead, info up to seven days ahead,
    default beyond. *)
Theorem getDeadlineColor_thresholds (deadline now : Date) :
  let left_ms := deadline - now in
  (getDeadlineColor deadline now = color_error ↔ left_ms <= - day_ms)
  ∧ (getDeadlineColor deadline now = color_warning ↔ - day_ms < left_ms <= 3 * day_ms)
  ∧ (getDeadlineColor deadline now = color_info ↔ 3 * day_ms < left_ms <= 7 * day_ms)
  ∧ (getDeadlineColor deadline now = color_default ↔ 7 * day_ms < left_ms).
Proof.
  cbn zeta. unfold getDeadlineColor.
  assert (Hd : 0 < day_ms) by (by vm_compute).
  pose proof (Math_ceil_div_le (deadline - now) day_ms (-1) Hd) as H1.
  pose proof (Math_ceil_div_le (deadline - now) day_ms 3 Hd) as H3.
  pose proof (Math_ceil_div_le (deadline - now) day_ms 7 Hd) as H7.
  set (days := Math_ceil_div (deadline - now) day_ms) in *.
  destruct (Z.ltb_spec days 0); [|destruct (Z.leb_spec days 3); [|destruct (Z.leb_spec days 7)]].
  all: repeat split; intros; try discriminate; try lia.
Qed.


Context {Json : Type} (JSON_parse : string → option Json) (json_truthy : Json → bool).

(** X21.  After [clearAuth] the session is gone whatever was stored:
    there is no token and no user, [isAuthenticated] is false, and every
    other key of the storage is untouched. *)
Theorem clearAuth_ends_session (ls : LocalStorage) :
  let ls' := (clearAuth ls).2 in
  (clearAuth ls).1 = true
  ∧ getToken ls' = None
  ∧ getUser Json JSON_parse ls' = None
  ∧ isAuthenticated Json JSON_parse json_truthy ls' = false
  ∧ ∀ k, k ≠ "user" → k ≠ "token" → ls' !! k = ls !! k.
Proof.
  cbn zeta. unfold clearAuth, remove. cbn [fst snd].
  assert (Ht : getToken (delete "token" (delete "user" ls)) = None).
  { unfold getToken. by rewrite lookup_delete_eq. }
  assert (Hu : getUser Json JSON_parse (delete "token" (delete "user" ls)) = None).
  { unfold getUser, get_item.
    by rewrite lookup_delete_ne, lookup_delete_eq by done. }
  repeat split; [done|done| |].
  - unfold isAuthenticated. by rewrite Ht.
  - intros k Hu' Ht'. by rewrite !lookup_delete_ne by done.
Qed.

End ClientMoreTheorems.

(** ** Openings and collaborators *)

Section MembershipTheorems.
Import Js ProjectMembership MembershipExamples Examples.

Lemma find_update_first {A} (P : A → bool) (f : A → A) (l : list A) (x : A) :
  List.find P l = Some x → P (f x) = true →
  List.find P (update_first P f l) = Some (f x).
Proof.
  intros Hfind Hp. induction l as [|y l IH]; [done|]. simpl in *.
  destruct (P y) eqn:E.
  - injection Hfind as ->. simpl. by rewrite Hp.
  - simpl. rewrite E. by apply IH.
Qed.

Lemma forallb_update_first {A} (P Q : A → bool) (f : A → A) (l : list A) :
  (∀ x, Q x = true → Q (f x) = true) →
  forallb Q l = true → forallb Q (update_first P f l) = true.
Proof.
  intros Hf. induction l as [|y l IH]; [done|]. simpl.
  intros [Hy Hl]%andb_prop. destruct (P y); simpl.
  - by rewrite (Hf y Hy), Hl.
  - by rewrite Hy, IH.
Qed.

Lemma find_persist (projectId : ObjectId) (projects : list ProjectDoc) (p p' : ProjectDoc) :
  List.find (λ q, bool_decide (pj_id q = projectId)) projects = Some p →
  pj_id p' = pj_id p →
  List.find (λ q, bool_decide (pj_id q = projectId)) (persist p' projects) = Some p'.
Proof.
  intros Hfind Hid.
  assert (Hp : pj_id p = projectId).
  { apply find_some in Hfind as [_ H]. by apply bool_decide_eq_true in H. }
  unfold persist. induction projects as [|q projects IH]; [done|]. simpl in *.
  destruct (bool_decide (pj_id q = projectId)) eqn:E.
  - apply bool_decide_eq_true in E.
    rewrite (bool_decide_eq_true_2 (pj_id q = pj_id p')) by congruence.
    by rewrite (bool_decide_eq_true_2 (pj_id p' = projectId)) by congruence.
  - apply bool_decide_eq_false in E.
    rewrite (bool_decide_eq_false_2 (pj_id q = pj_id p')) by congruence.
    rewrite (bool_decide_eq_false_2 (pj_id q = projectId)) by done. by apply IH.
Qed.

Lemma opening_by_id_id (openingId : ObjectId) (p : ProjectDoc) (o : Opening) :
  opening_by_id openingId p = Some o → op_id o = openingId.
Proof.
  intros H. apply find_some in H as [_ H]. by apply bool_decide_eq_true in H.
Qed.

(** What accepting an application does to the document. *)
Lemma handleJoinRequest_accepted
    (this : ProjectDoc) (userId openingId : ObjectId) (opening : Opening)
    (applicant : Applicant) (w : World) :
  doc_valid this = true →
  opening_by_id openingId this = Some opening →
  List.find (λ a, bool_decide (ap_user a = userId)) (op_applicants opening) = Some applicant →
  trim (op_role opening) ≠ "" →
  ∃ this' w' extra,
    handleJoinRequest this userId openingId Accepted w = (Resolved this', w')
    ∧ pj_id this' = pj_id this
    ∧ doc_valid this' = true
    ∧ opening_by_id openingId this'
      = Some (set_filled
                (set_applicants opening
                   (update_first (λ a, bool_decide (ap_user a = userId))
                                 (λ a, set_status a Accepted) (op_applicants opening)))
                userId)
    ∧ pj_collaborators this' = pj_collaborators this ++ extra
    ∧ Forall (λ c, co_user c = userId ∧ co_status c = CoPending) extra
    ∧ existsb (λ c, bool_decide (co_user c = userId)) (pj_collaborators this') = true.
Proof.
  intros Hvalid Hopening Happlicant Hrole.
  pose proof (opening_by_id_id _ _ _ Hopening) as Hoid.
  unfold handleJoinRequest. rewrite Hopening, Happlicant.
  rewrite bool_decide_eq_true_2 by done.
  match goal with |- context [addCollaborator ?t _ _] => set (this2 := t) end.
  assert (Hopening2 : opening_by_id openingId this2
    = Some (set_filled
              (set_applicants opening
                 (update_first (λ a, bool_decide (ap_user a = userId))
                               (λ a, set_status a Accepted) (op_applicants opening)))
              userId)).
  { unfold opening_by_id in *. subst this2. cbn [pj_openings set_openings].
    apply (find_update_first _
             (λ o, set_filled
                     (set_applicants o
                        (update_first (λ a, bool_decide (ap_user a = userId))
                                      (λ a, set_status a Accepted) (op_applicants o)))
                     userId) _ _ Hopening).
    cbn. by apply bool_decide_eq_true. }
  apply andb_prop in Hvalid as [Hvo Hvc].
  assert (Hvo2 : forallb (λ o, bool_decide (op_role o ≠ "")
                               && bool_decide (op_description o ≠ ""))
                         (pj_openings this2) = true).
  { subst this2. cbn [pj_openings set_openings].
    apply forallb_update_first; [|done]. by intros o Ho. }
  unfold mbind, M_bind, addCollaborator.
  destruct (existsb _ (pj_collaborators this2)) eqn:Hex; cbn [negb].
  - unfold mret, M_ret, save.
    assert (Hv2 : doc_valid this2 = true).
    { unfold doc_valid. rewrite Hvo2. subst this2. cbn. exact Hvc. }
    rewrite Hv2. exists this2, w, []. rewrite app_nil_r.
    repeat split; try done.
  - unfold mbind, M_bind, Date_now, mret, M_ret.
    match goal with |- context [save ?t] => set (this3 := t) end.
    assert (Hv3 : doc_valid this3 = true).
    { unfold doc_valid. subst this3 this2. cbn [pj_openings pj_collaborators set_collaborators set_openings] in *.
      rewrite Hvo2, forallb_app, Hvc. cbn. by rewrite bool_decide_eq_true_2. }
    unfold save at 1. rewrite Hv3. unfold save. rewrite Hv3.
    eexists this3, _, [_]. split; [reflexivity|].
    repeat split; try done.
    + by repeat constructor.
    + subst this3. cbn [pj_collaborators set_collaborators]. rewrite existsb_app.
      cbn. rewrite bool_decide_eq_true_2 by done. by rewrite orb_true_r.
Qed.

(** X22.  Accepting an application marks the opening as filled by the
    applicant and the application as accepted, and makes the applicant a
    collaborator with status pending, so [isCollaborator], which asks for
    an active one, answers for every user as it did before; and from then
    on every application for that opening is answered 400. *)
Theorem accepted_application_fills_opening
    (this : ProjectDoc) (userId openingId other : ObjectId) (opening : Opening)
    (applicant : Applicant) (projects : list ProjectDoc) (w w2 : World) :
  doc_valid this = true →
  List.find (λ q, bool_decide (pj_id q = pj_id this)) projects = Some this →
  opening_by_id openingId this = Some opening →
  List.find (λ a, bool_decide (ap_user a = userId)) (op_applicants opening) = Some applicant →
  trim (op_role opening) ≠ "" →
  ∃ this' opening' applicant' w',
    handleJoinRequest this userId openingId Accepted w = (Resolved this', w')
    ∧ opening_by_id openingId this' = Some opening'
    ∧ op_status opening' = Filled ∧ op_filledBy opening' = Some userId
    ∧ List.find (λ a, bool_decide (ap_user a = userId)) (op_applicants opening')
      = Some applicant'
    ∧ ap_status applicant' = Accepted ∧ ap_id applicant' = ap_id applicant
    ∧ existsb (λ c, bool_decide (co_user c = userId)) (pj_collaborators this') = true
    ∧ (∀ x, isCollaborator this' x = isCollaborator this x)
    ∧ apply_for_opening other (pj_id this) openingId (persist this' projects) w2
      = ({| status := 400; message := "This position is no longer open" |},
         persist this' projects, w2).
Proof.
  intros Hvalid Hproj Hopening Happlicant Hrole.
  destruct (handleJoinRequest_accepted this userId openingId opening applicant w
              Hvalid Hopening Happlicant Hrole)
    as (this' & w' & extra & Hrun & Hid & Hv' & Hopening' & Hcollab & Hextra & Hex).
  eexists this', _, (set_status applicant Accepted), w'.
  split; [exact Hrun|]. split; [exact Hopening'|].
  split; [done|]. split; [done|].
  split.
  { cbn [op_applicants set_filled set_applicants].
    apply (find_update_first _ (λ a, set_status a Accepted) _ _ Happlicant).
    apply find_some in Happlicant as [_ H]. exact H. }
  split; [done|]. split; [done|]. split; [done|].
  split.
  { intros x. unfold isCollaborator. rewrite Hcollab, existsb_app.
    assert (existsb (λ c, bool_decide (co_user c = x) && bool_decide (co_status c = CoActive))
                    extra = false) as ->; [|by rewrite orb_false_r].
    clear -Hextra. induction Hextra as [|c extra [_ Hc] _ IH]; [done|]. simpl.
    rewrite (bool_decide_eq_false_2 (co_status c = CoActive)) by (by rewrite Hc).
    rewrite andb_false_r. exact IH. }
  unfold apply_for_opening.
  rewrite (find_persist _ _ this this' Hproj Hid), Hopening'.
  reflexivity.
Qed.

Lemma accepted_application_fills_opening_witness :
  ∃ this' opening' applicant' w',
    handleJoinRequest project7 2%N 30%N Accepted example_world = (Resolved this', w')
    ∧ opening_by_id 30%N this' = Some opening'
    ∧ op_status opening' = Filled ∧ op_filledBy opening' = Some 2%N
    ∧ List.find (λ a, bool_decide (ap_user a = 2%N)) (op_applicants opening')
      = Some applicant'
    ∧ ap_status applicant' = Accepted ∧ ap_id applicant' = 40%N
    ∧ existsb (λ c, bool_decide (co_user c = 2%N)) (pj_collaborators this') = true
    ∧ (∀ x, isCollaborator this' x = isCollaborator project7 x)
    ∧ apply_for_opening 3%N 7%N 30%N (persist this' [project7]) example_world
      = ({| status := 400; message := "This position is no longer open" |},
         persist this' [project7], example_world).
Proof.
  apply (accepted_application_fills_opening project7 2%N 30%N 3%N backend_opening
           {| ap_id := 40%N; ap_user := 2%N; ap_status := Pending; ap_appliedAt := 1%Z |}
           [project7] example_world example_world);
    try reflexivity; discriminate.
Defined.

(** X23.  A first application to an open opening of a valid project is
    stored as pending at the end of the opening's applicants and answered
    200; the same user applying again is answered 400 and nothing is
    stored a second time. *)
Theorem apply_for_opening_only_once
    (user projectId openingId : ObjectId) (projects : list ProjectDoc)
    (proj : ProjectDoc) (opening : Opening) (w : World) :
  List.find (λ p, bool_decide (pj_id p = projectId)) projects = Some proj →
  doc_valid proj = true →
  opening_by_id openingId proj = Some opening →
  op_status opening = Open →
  List.find (λ a, bool_decide (ap_user a = user)) (op_applicants opening) = None →
  ∃ proj' opening' applicant' w',
    apply_for_opening user projectId openingId projects w
      = ({| status := 200; message := "Application submitted successfully" |},
         persist proj' projects, w')
    ∧ opening_by_id openingId proj' = Some opening'
    ∧ op_applicants opening' = op_applicants opening ++ [applicant']
    ∧ ap_user applicant' = user ∧ ap_status applicant' = Pending
    ∧ op_status opening' = Open
    ∧ pj_collaborators proj' = pj_collaborators proj
    ∧ ∀ w2, apply_for_opening user projectId openingId (persist proj' projects) w2
            = ({| status := 400;
                  message := "You have already applied for this position" |},
               persist proj' projects, w2).
Proof.
  intros Hproj Hvalid Hopening Hopen Hnone.
  pose proof (opening_by_id_id _ _ _ Hopening) as Hoid.
  unfold apply_for_opening at 1. rewrite Hproj, Hopening, Hopen, Hnone.
  rewrite bool_decide_eq_true_2 by done. cbn [negb].
  unfold mbind, M_bind, new_ObjectId, Date_now, mret, M_ret. cbn [clock ticks next_oid].
  match goal with |- context [save ?t] => set (proj' := t) end.
  set (applicant' := {| ap_id := next_oid w; ap_user := user; ap_status := Pending;
                        ap_appliedAt := clock w (ticks w) |}) in *.
  set (opening' := set_applicants opening (op_applicants opening ++ [applicant'])).
  assert (Hopening' : opening_by_id openingId proj' = Some opening').
  { unfold opening_by_id in *. subst proj'. cbn [pj_openings set_openings].
    apply (find_update_first _
             (λ o, set_applicants o (op_applicants o ++ [applicant'])) _ _ Hopening).
    cbn. by apply bool_decide_eq_true. }
  assert (Hv' : doc_valid proj' = true).
  { unfold doc_valid in *. subst proj'. cbn [pj_openings pj_collaborators set_openings].
    apply andb_prop in Hvalid as [Hvo ->]. rewrite andb_true_r.
    apply forallb_update_first; [|done]. by intros o Ho. }
  unfold save. rewrite Hv'.
  exists proj', opening', applicant', {| clock := clock w; ticks := S (ticks w);
                                          next_oid := N.succ (next_oid w) |}.
  split; [reflexivity|]. split; [done|].
  repeat (split; [done|]).
  intros w2. unfold apply_for_opening.
  rewrite (find_persist _ _ proj proj' Hproj eq_refl), Hopening'.
  cbn [op_status opening' set_applicants]. rewrite Hopen.
  rewrite bool_decide_eq_true_2 by done. cbn [negb op_applicants].
  assert (List.find (λ a, bool_decide (ap_user a = user)) (op_applicants opening')
          = Some applicant') as ->; [|done].
  unfold opening'. cbn [op_applicants set_applicants].
  apply find_app_None; [done|]. cbn. by apply bool_decide_eq_true.
Qed.

Lemma apply_for_opening_only_once_witness :
  ∃ proj' opening' applicant' w',
    apply_for_opening 3%N 7%N 30%N [project7] example_world
      = ({| status := 200; message := "Application submitted successfully" |},
         persist proj' [project7], w')
    ∧ opening_by_id 30%N proj' = Some opening'
    ∧ op_applicants opening' = op_applicants backend_opening ++ [applicant']
    ∧ ap_user applicant' = 3%N ∧ ap_status applicant' = Pending
    ∧ op_status opening' = Open
    ∧ pj_collaborators proj' = pj_collaborators project7
    ∧ ∀ w2, apply_for_opening 3%N 7%N 30%N (persist proj' [project7]) w2
            = ({| status := 400;
                  message := "You have already applied for this position" |},
               persist proj' [project7], w2).
Proof.
  apply (apply_for_opening_only_once 3%N 7%N 30%N [project7] project7 backend_opening
           example_world); reflexivity.
Defined.

End MembershipTheorems.
